(** * Bucky: compartment state, configuration sampler, rolling means, adm1 sums

    A shallow embedding of the parts of [bucky/model/state.py],
    [bucky/config.py], [bucky/graph.py] and [bucky/model/data.py] that the
    specification speaks about, followed by the properties proved of them.

    Numbers: Python integers are [Z].  The arithmetic of the state array is
    a parameter of [init_S], instantiated with the exact rationals ([Q])
    and with IEEE 754 binary32 as the Standard Library specifies it.
    Elsewhere floating-point entries are idealised as exact rationals
    where only rounding to decimals and comparisons are used, and as real
    numbers ([R]) where [exp] and [log] are applied.  Non-finite floats
    are explicit constructors where the code tests for them. *)

From Stdlib Require Import ZArith QArith Qround Qabs Reals Psatz Lia String List Bool.
From Stdlib Require SpecFloat.
From stdpp Require Import base list option.
Import ListNotations.

Set Warnings "-register-all".

Open Scope string_scope.
Open Scope list_scope.
Open Scope Z_scope.

(** ** Python values shared by the modules: dictionaries, exceptions *)

Module Py.

(** [d[k] = v]: overwrite in place when the key exists, append otherwise. *)
Fixpoint dict_set {V : Type} (k : string) (v : V) (d : list (string * V))
  : list (string * V) :=
  match d with
  | [] => [(k, v)]
  | (k', v') :: d' =>
      if String.eqb k' k then (k', v) :: d' else (k', v') :: dict_set k v d'
  end.

Fixpoint dict_get {V : Type} (k : string) (d : list (string * V)) : option V :=
  match d with
  | [] => None
  | (k', v') :: d' => if String.eqb k' k then Some v' else dict_get k d'
  end.

(** [k in d] *)
Definition dict_mem {V : Type} (k : string) (d : list (string * V)) : bool :=
  match dict_get k d with Some _ => true | None => false end.

(** [d.pop(k)] without the returned value. *)
Fixpoint dict_del {V : Type} (k : string) (d : list (string * V))
  : list (string * V) :=
  match d with
  | [] => []
  | (k', v') :: d' =>
      if String.eqb k' k then d' else (k', v') :: dict_del k d'
  end.

(** [sub in s] on strings. *)
Definition str_in (sub s : string) : bool :=
  match String.index 0 sub s with Some _ => true | None => false end.

(** The exceptions the modelled code raises. *)
Inductive exn :=
| KeyError (key : string)
| IndexError
| TypeError
| ValueError (msg : string)
| AxisError
| ZeroDivisionError
| NotImplementedError
| RuntimeError
| BackendError (what : string).


Inductive res (A : Type) :=
| Ok (a : A)
| Raise (e : exn).
Arguments Ok {A}.
Arguments Raise {A}.

Definition bind {A B : Type} (m : res A) (k : A -> res B) : res B :=
  match m with
  | Ok a => k a
  | Raise e => Raise e
  end.

Notation "'let*' x ':=' m 'in' k" := (bind m (fun x => k))
  (at level 10, x pattern, m at level 100, k at level 200).

(** A [for] loop over a list of indices that threads a state and stops
    at the first exception. *)
Fixpoint for_each {S : Type} (l : list nat) (body : nat -> S -> res S) (s : S)
  : res S :=
  match l with
  | [] => Ok s
  | i :: l' => let* s' := body i s in for_each l' body s'
  end.

(** The list [f 0, ..., f (n-1)]. *)
Definition tabulate {A : Type} (n : nat) (f : nat -> A) : list A :=
  map f (seq 0 n).

(** An integer index into an axis of length [len]: negative indices count
    from the end, anything else out of range is an IndexError. *)
Definition norm_index (len : nat) (i : Z) : option nat :=
  if (0 <=? i) && (i <? Z.of_nat len) then Some (Z.to_nat i)
  else if (- Z.of_nat len <=? i) && (i <? 0) then Some (Z.to_nat (Z.of_nat len + i))
  else None.

End Py.

(** ** bucky/model/state.py *)

Module State.
Import Py.

(** The three entries of [consts] that [buckyState.__init__] reads. *)
Record consts := Consts {
  E_gamma_k : Z;
  I_gamma_k : Z;
  Rh_gamma_k : Z
}.

(** A value of the [indices] dictionary: a [slice(start, stop)] for an
    evolved compartment, an integer index array for a combined group. *)
Inductive index :=
| Slice (start stop : Z)
| IdxArr (ids : list Z).

(** [xp.arange(start, stop)] ([step] of a two-argument slice is [None]). *)
Definition arange (start stop : Z) : list Z :=
  seqZ start (stop - start).

(** [xp.r_[slice_to_cpu(v)]]: only a slice has [start]/[stop]; an index
    array has not (AttributeError, [None] here). *)
Definition slice_to_cpu (v : index) : option (list Z) :=
  match v with
  | Slice a b => Some (arange a b)
  | IdxArr _ => None
  end.

(** Lines 31-37: bin counts per evolved compartment. *)
Definition bin_counts (c : consts) : list (string * Z) :=
  let d := foldl (fun d name => dict_set name 1 d) []
                 ["S"; "R"; "D"; "incH"; "incC"] in
  let d := foldl (fun d name => dict_set name (I_gamma_k c) d) d
                 ["I"; "Ic"; "Ia"] in
  let d := dict_set "E" (E_gamma_k c) d in
  dict_set "Rh" (Rh_gamma_k c) d.

(** Lines 40-44: one slice per compartment, in dictionary order. *)
Definition calc_slices (bc : list (string * Z)) : list (string * index) * Z :=
  foldl (fun '(indices, current_index) '(name, nbins) =>
           (dict_set name (Slice current_index (current_index + nbins)) indices,
            current_index + nbins))
        ([], 0) bc.

(** [xp.concatenate([xp.r_[slice_to_cpu(v)] for k, v in items if keep k])] *)
Definition concat_where (keep : string -> bool) (items : list (string * index))
  : option (list Z) :=
  @concat Z <$> mapM (fun kv => slice_to_cpu kv.2)
                  (List.filter (fun kv => keep kv.1) items).

Definition str_among (names : list string) (k : string) : bool :=
  existsb (String.eqb k) names.

(** Lines 40-51: the whole [indices] dictionary. *)
Definition build_indices (c : consts) : option (list (string * index)) :=
  let indices := (calc_slices (bin_counts c)).1 in
  n ← concat_where (fun k => negb (str_in "inc" k)) indices;
  let indices := dict_set "N" (IdxArr n) indices in
  itot ← concat_where (str_among ["I"; "Ia"; "Ic"]) indices;
  let indices := dict_set "Itot" (IdxArr itot) indices in
  h ← concat_where (str_among ["Ic"; "Rh"]) indices;
  Some (dict_set "H" (IdxArr h) indices).

(** Line 53: [sum(list(bin_counts.values()))]. *)
Definition n_compartments_of (c : consts) : Z :=
  foldl Z.add 0 (map snd (bin_counts c)).

(** The expanded index list of an entry of [indices]. *)
Definition index_ids (v : index) : list Z :=
  match v with
  | Slice a b => arange a b
  | IdxArr ids => ids
  end.

Definition slice_len (v : index) : Z :=
  match v with
  | Slice a b => b - a
  | IdxArr ids => Z.of_nat (length ids)
  end.

(** *** The state array and the named accessors

    The state is a three-axis array (compartment bins, age groups,
    regions): a list of bins, each an age-by-region matrix. *)

Abbreviation matrix A := (list (list A)).

Definition full {A : Type} (rows cols : nat) (x : A) : matrix A :=
  replicate rows (replicate cols x).

Definition get2 {A : Type} (d : A) (m : matrix A) (a r : nat) : A :=
  default d (m !! a ≫= fun row => row !! r).

Record buckyState (A : Type) := BuckyState {
  st_consts : consts;
  indices : list (string * index);
  n_compartments : Z;
  n_age_grps : nat;
  n_nodes : nat;
  state : list (matrix A)
}.
Arguments BuckyState {A}.
Arguments st_consts {A}.
Arguments indices {A}.
Arguments n_compartments {A}.
Arguments n_age_grps {A}.
Arguments n_nodes {A}.
Arguments state {A}.

(** [state_shape]: (n_compartments, n_age_grps, n_nodes). *)
Definition has_shape {A : Type} (bins : Z) (ages nodes : nat)
    (arr : list (matrix A)) : Prop :=
  Z.of_nat (length arr) = bins /\
  Forall (fun m => length m = ages /\ Forall (fun row => length row = nodes) m) arr.

(** [__init__(consts, Nij, state=None)]; [Nij] enters through its shape. *)
Definition init {A : Type} (zero : A) (c : consts) (Nij_shape : nat * nat)
    (st : option (list (matrix A))) : option (buckyState A) :=
  ind ← build_indices c;
  let n := n_compartments_of c in
  let '(ages, nodes) := Nij_shape in
  Some (BuckyState c ind n ages nodes
          (match st with
           | None => replicate (Z.to_nat n) (full ages nodes zero)
           | Some arr => arr
           end)).

(** [zeros_like]: same layout, a fresh zeroed array of the same shape. *)
Definition zeros_like {A : Type} (zero : A) (s : buckyState A) : buckyState A :=
  BuckyState (st_consts s) (indices s) (n_compartments s)
             (n_age_grps s) (n_nodes s)
             (map (map (map (fun _ => zero))) (state s)).

(** The positions a [slice(a, b)] selects on an axis of length [len]:
    negative bounds count from the end and both are clipped. *)
Definition slice_bound (len : nat) (i : Z) : Z :=
  let i := if i <? 0 then i + Z.of_nat len else i in
  Z.max 0 (Z.min i (Z.of_nat len)).

Definition positions (len : nat) (v : index) : option (list nat) :=
  match v with
  | Slice a b =>
      Some (map Z.to_nat (arange (slice_bound len a) (slice_bound len b)))
  | IdxArr ids => mapM (norm_index len) ids
  end.

(** [self.state[self.indices[attr]]] *)
Definition getitem {A : Type} (arr : list (matrix A)) (v : index)
  : option (list (matrix A)) :=
  ps ← positions (length arr) v;
  mapM (fun p => arr !! p) ps.

(** What reading a compartment yields: the selected bins, with axis 0
    squeezed away when exactly one bin was selected. *)
Inductive view (A : Type) :=
| Squeezed (m : matrix A)
| Stacked (bins : list (matrix A)).
Arguments Squeezed {A}.
Arguments Stacked {A}.

(** [__getattribute__] on a name of the layout ([None]: the name is not in
    [indices], or the index is out of bounds). *)
Definition getattr {A : Type} (s : buckyState A) (attr : string)
  : option (view A) :=
  v ← dict_get attr (indices s);
  out ← getitem (state s) v;
  match out with
  | [m] => Some (Squeezed m)
  | _ => Some (Stacked out)
  end.

(** The right-hand side of a compartment assignment. *)
Inductive rhs (A : Type) :=
| RScalar (x : A)
| RVector (v : list A)
| RMatrix (m : matrix A).
Arguments RScalar {A}.
Arguments RVector {A}.
Arguments RMatrix {A}.

Definition broadcast_axis {B : Type} (n : nat) (l : list B) : option (list B) :=
  if (length l =? n)%nat then Some l
  else match l with
       | [x] => Some (replicate n x)
       | _ => None
       end.

(** Broadcasting of the right-hand side to one (ages, nodes) bin. *)
Definition broadcast {A : Type} (ages nodes : nat) (x : rhs A)
  : option (matrix A) :=
  match x with
  | RScalar q => Some (full ages nodes q)
  | RVector v => row ← broadcast_axis nodes v; Some (replicate ages row)
  | RMatrix m => rows ← mapM (broadcast_axis nodes) m; broadcast_axis ages rows
  end.

(** [self.state[self.indices[attr]] = x] *)
Definition setitem {A : Type} (ages nodes : nat) (arr : list (matrix A))
    (v : index) (x : rhs A) : option (list (matrix A)) :=
  ps ← positions (length arr) v;
  m ← broadcast ages nodes x;
  Some (foldl (fun arr p => <[p := m]> arr) arr ps).

(** [__setattr__] on a name of the layout ([None]: the name is not in
    [indices] and the assignment is an ordinary attribute write, which
    this model does not carry; or the write raised). *)
Definition setattr {A : Type} (s : buckyState A) (attr : string) (x : rhs A)
  : option (buckyState A) :=
  v ← dict_get attr (indices s);
  arr ← setitem (n_age_grps s) (n_nodes s) (state s) v x;
  Some (BuckyState (st_consts s) (indices s) (n_compartments s)
                   (n_age_grps s) (n_nodes s) arr).

(** *** [init_S]

    The arithmetic of the state array's entries: the constants [0.0] and
    [1.0], addition and subtraction.  The code computes in the array's
    floating-point type, [float32] when [__init__] allocates the array;
    the exact rationals are the idealisation in which the specification
    states the closure condition.  A sum along axis 0 adds the bins in
    their order. *)
Class Arith (A : Type) := {
  ar_zero : A;
  ar_one : A;
  ar_add : A -> A -> A;
  ar_sub : A -> A -> A
}.

(** Exact arithmetic. *)
#[export] Instance exact : Arith Q :=
  {| ar_zero := 0%Q; ar_one := 1%Q; ar_add := Qplus; ar_sub := Qminus |}.

(** IEEE 754 binary32 ([xp.float32]): 24 bits of precision, round to
    nearest even; [1.0] is 2^23 * 2^-23. *)
#[export] Instance binary32 : Arith SpecFloat.spec_float :=
  {| ar_zero := SpecFloat.S754_zero false;
     ar_one := SpecFloat.S754_finite false 8388608 (-23);
     ar_add := SpecFloat.SFadd 24 128;
     ar_sub := SpecFloat.SFsub 24 128 |}.

Definition sum_list {A : Type} (zero : A) (add : A -> A -> A) (l : list A) : A :=
  foldl add zero l.

(** [xp.sum(x, axis=0)] of stacked bins: an (ages, nodes) matrix. *)
Definition sum_bins {A : Type} (zero : A) (add : A -> A -> A)
    (ages nodes : nat) (bins : list (matrix A)) : matrix A :=
  tabulate ages (fun a =>
    tabulate nodes (fun r =>
      sum_list zero add (map (fun m => get2 zero m a r) bins))).

(** [xp.sum(x, axis=0)] of one (ages, nodes) matrix: a vector over nodes. *)
Definition sum_rows {A : Type} (zero : A) (add : A -> A -> A)
    (ages nodes : nat) (m : matrix A) : list A :=
  tabulate nodes (fun r =>
    sum_list zero add (map (fun a => get2 zero m a r) (seq 0 ages))).

Abbreviation Qsum := (sum_list 0%Q Qplus).

(** [1.0 - xp.sum(self.N, axis=0)] *)
Definition one_minus_sum {A : Type} `{Arith A} (ages nodes : nat) (n : view A)
  : rhs A :=
  match n with
  | Stacked bins =>
      RMatrix (map (map (fun x => ar_sub ar_one x))
                   (sum_bins ar_zero ar_add ages nodes bins))
  | Squeezed m =>
      RVector (map (fun x => ar_sub ar_one x)
                   (sum_rows ar_zero ar_add ages nodes m))
  end.

Definition init_S {A : Type} `{Arith A} (s : buckyState A)
  : option (buckyState A) :=
  s ← setattr s "S" (RScalar ar_zero);
  n ← getattr s "N";
  setattr s "S" (one_minus_sum (n_age_grps s) (n_nodes s) n).

(** [xp.sum(self.N, axis=0)] as a matrix, for stating conservation. *)
Definition sum_N {A : Type} `{Arith A} (s : buckyState A) : option (matrix A) :=
  n ← getattr s "N";
  match n with
  | Stacked bins =>
      Some (sum_bins ar_zero ar_add (n_age_grps s) (n_nodes s) bins)
  | Squeezed _ => None
  end.


(** *** [validate_state]

    Entries that may be non-finite: a finite value, plus or minus
    infinity, or NaN. *)
Inductive fval :=
| FNum (q : Q)
| FInf (negative : bool)
| FNaN.

Definition isfinite (x : fval) : bool :=
  match x with FNum _ => true | _ => false end.

Definition fadd (x y : fval) : fval :=
  match x, y with
  | FNaN, _ | _, FNaN => FNaN
  | FNum a, FNum b => FNum (a + b)
  | FInf s, FNum _ | FNum _, FInf s => FInf s
  | FInf s, FInf t => if Bool.eqb s t then FInf s else FNaN
  end.

(** Round to the nearest integer, ties to the even one. *)
Definition rint (x : Q) : Z :=
  let f := Qfloor x in
  match (x - inject_Z f ?= 1 # 2)%Q with
  | Lt => f
  | Gt => f + 1
  | Eq => if Z.even f then f else f + 1
  end.

(** [xp.around(x, decimals)]: scale, round, scale back. *)
Definition around (decimals : nat) (x : fval) : fval :=
  match x with
  | FNum q =>
      let scale := inject_Z (10 ^ Z.of_nat decimals) in
      FNum (inject_Z (rint (q * scale)) / scale)
  | _ => x
  end.

(** [x == 1.0] *)
Definition feq_one (x : fval) : bool :=
  match x with FNum q => Qeq_bool q 1 | _ => false end.

(** [x >= 0.0] *)
Definition fge_zero (x : fval) : bool :=
  match x with
  | FNum q => Qle_bool 0 q
  | FInf negative => negb negative
  | FNaN => false
  end.

Inductive exn :=
| StateValidationException
| AccessError.   (* the accessor itself failed: IndexError / AttributeError *)

(** The entries of [xp.sum(self.N, axis=0)]. *)
Definition N_sums (s : buckyState fval) : option (list fval) :=
  n ← getattr s "N";
  Some (match n with
        | Stacked bins =>
            concat (sum_bins (FNum 0) fadd (n_age_grps s) (n_nodes s) bins)
        | Squeezed m => sum_rows (FNum 0) fadd (n_age_grps s) (n_nodes s) m
        end).

Definition entries (s : buckyState fval) : list fval :=
  concat (concat (state s)).

(** [validate_state]: the [logging.info] lines written and the exception
    raised, if any.  (The [logging.debug] lines with the offending
    indices are not modelled.) *)
Definition validate_state (s : buckyState fval) : list string * option exn :=
  if existsb (fun x => negb (isfinite x)) (entries s) then
    (["nonfinite values in the state vector, something is wrong with init"],
     Some StateValidationException)
  else
    match N_sums s with
    | None => ([], Some AccessError)
    | Some sums =>
        if existsb (fun x => negb (feq_one (around 2 x))) sums then
          (["N!=1 in the state vector, something is wrong with init"],
           Some StateValidationException)
        else if existsb (fun x => negb (fge_zero (around 4 x))) (entries s) then
          (["negative values in the state vector, something is wrong with init"],
           Some StateValidationException)
        else ([], None)
    end.

(** *** Vocabulary for stating the checks *)

Definition msg_nonfinite : string :=
  "nonfinite values in the state vector, something is wrong with init".
Definition msg_unbalanced : string :=
  "N!=1 in the state vector, something is wrong with init".
Definition msg_negative : string :=
  "negative values in the state vector, something is wrong with init".

(** An entry of the conserved sums passes the second check. *)
Definition balanced (x : fval) : Prop :=
  exists q, x = FNum q /\ (995 # 1000 <= q <= 1005 # 1000)%Q.

(** An entry fails the third check. *)
Definition too_negative (x : fval) : Prop :=
  exists q, x = FNum q /\ (q < - (5 # 100000))%Q.

End State.

(** ** bucky/config.py *)

Module Config.
Import Py.

(** What a YAML scalar or (nested) sequence holds, and what an array holds. *)
Inductive pyval :=
| PNum (q : Q)
| PStr (s : string)
| PList (items : list pyval).

(** A value stored at a key: a Python [str], another plain Python value,
    or a backend array ([xp.ndarray]) with the given content. *)
Inductive leaf :=
| LStr (s : string)
| LPy (v : pyval)
| LArr (a : pyval).

(** A [NestedDict]: an insertion-ordered mapping from keys to values or
    nested mappings. *)
Inductive tree :=
| Leaf (v : leaf)
| Node (kids : list (string * tree)).

(** *** Dotted-key access of [NestedDict] *)

(** [d[k1.k2...]]: KeyError when a key is missing or a non-mapping is
    indexed on the way. *)
Fixpoint path_get (path : list string) (t : tree) : res tree :=
  match path with
  | [] => Ok t
  | k :: path' =>
      match t with
      | Node kids =>
          match dict_get k kids with
          | Some t' => path_get path' t'
          | None => Raise (KeyError k)
          end
      | Leaf _ => Raise (KeyError k)
      end
  end.

(** [d[k1.k2...] = v]: missing intermediate mappings are created. *)
Fixpoint path_set (path : list string) (v : tree) (t : tree) : res tree :=
  match path with
  | [] => Ok v
  | k :: path' =>
      match t with
      | Node kids =>
          let sub := match dict_get k kids with
                     | Some t' => t'
                     | None => Node []
                     end in
          let* sub' := path_set path' v sub in
          Ok (Node (dict_set k sub' kids))
      | Leaf _ => Raise (KeyError k)
      end
  end.

(** *** [NestedDict.apply] *)

(** Modelled from the spec: [NestedDict.apply] lives in
    [bucky/util/nested_dict.py], which is not among the sources.  The
    spec describes each pass as visiting every node that matches a
    structural filter and replacing it by the transform's result.
    Without a filter the transform is applied to every stored value. *)
Fixpoint map_leaves (f : leaf -> leaf) (t : tree) : tree :=
  match t with
  | Leaf v => Leaf (f v)
  | Node kids => Node (map (fun kv => (kv.1, map_leaves f kv.2)) kids)
  end.

Section Walk.
Context {St : Type}.
(** [contains_filter]: the keys a mapping must hold to be visited. *)
Variable contains_filter : list string.
(** The transform: it sees the whole walked tree as it is at the time
    of the call (callbacks read [self]), the matching mapping, and the
    threaded state. *)
Variable func : tree -> list (string * tree) -> St -> res (tree * St).

Definition matches (kids : list (string * tree)) : bool :=
  forallb (fun k => dict_mem k kids) contains_filter.

(** Modelled from the spec: mappings are walked in key order, children
    before the mapping that holds them; a matching mapping below the
    root is replaced by the transform's result.  [ctx] rebuilds the
    whole tree around the current position, so that a transform reading
    the walked tree sees the replacements already made. *)
Fixpoint walk (top : bool) (ctx : tree -> tree) (t : tree) (s : St)
  : res (tree * St) :=
  match t with
  | Leaf _ => Ok (t, s)
  | Node kids =>
      let* (kids', s') :=
        (fix walk_items (done todo : list (string * tree)) (s : St)
           : res (list (string * tree) * St) :=
           match todo with
           | [] => Ok (done, s)
           | (k, v) :: rest =>
               let* (v', s') :=
                 walk false (fun x => ctx (Node (done ++ (k, x) :: rest))) v s in
               walk_items (done ++ [(k, v')]) rest s'
           end) [] kids s in
      if negb top && matches kids'
      then func (ctx (Node kids')) kids' s'
      else Ok (Node kids', s')
  end.

Definition apply_filtered (self : tree) (s : St) : res (tree * St) :=
  walk true (fun x => x) self s.
End Walk.

(** A transform that neither reads the walked tree nor threads state. *)
Definition pure_func (f : list (string * tree) -> res tree)
  : tree -> list (string * tree) -> unit -> res (tree * unit) :=
  fun _ d s => let* t := f d in Ok (t, s).

Definition apply_pure (contains_filter : list string)
    (f : tree -> list (string * tree) -> res tree) (self : tree) : res tree :=
  let* (t, _) :=
    apply_filtered contains_filter
      (fun whole d (s : unit) => let* t := f whole d in Ok (t, s)) self tt in
  Ok t.

(** *** The methods of [BuckyConfig] *)

(** [_cast_to_array]: strings stay, everything else becomes an array. *)
Definition _cast_to_array (v : leaf) : leaf :=
  match v with
  | LStr s => LStr s
  | LPy a => LArr a
  | LArr a => LArr a
  end.

Definition _to_arrays (self : tree) : tree := map_leaves _cast_to_array self.

(** No plain Python value is stored anywhere: every leaf is a string or
    already an array. *)
Fixpoint arrays_only (t : tree) : bool :=
  match t with
  | Leaf (LPy _) => false
  | Leaf _ => true
  | Node kids => forallb (fun kv => arrays_only kv.2) kids
  end.

(** The content [xp.array(v)] has. *)
Definition as_array (t : tree) : res pyval :=
  match t with
  | Leaf (LStr s) => Ok (PStr s)
  | Leaf (LPy a) | Leaf (LArr a) => Ok a
  | Node _ => Raise (BackendError "array of a mapping")
  end.

(** Same shape and same entries. *)
Fixpoint pyval_eqb (a b : pyval) : bool :=
  match a, b with
  | PNum x, PNum y => Qeq_bool x y
  | PStr x, PStr y => String.eqb x y
  | PList xs, PList ys =>
      (fix all2 (xs ys : list pyval) : bool :=
         match xs, ys with
         | [], [] => true
         | x :: xs', y :: ys' => pyval_eqb x y && all2 xs' ys'
         | _, _ => false
         end) xs ys
  | _, _ => false
  end.

Section Backend.
(** The numeric backend and the helper modules the sampler calls into:
    the random state, the two sampling namespaces ([distributions]
    first, then [xp.random]), [xp.abs(c * xp.array(loc))],
    [xp.mean(x, axis=1)] and [interp_extrap]. *)
Variable rng : Type.
Definition sampler := list (string * tree) -> rng -> res (tree * rng).
Variable distributions : string -> option sampler.
Variable xp_random : string -> option sampler.
Variable xp_abs_mul : tree -> tree -> res tree.
Variable xp_mean_axis1 : pyval -> res pyval.
Variable interp_extrap : pyval -> pyval -> tree -> res tree.

(** [_age_interp(x_bins_new, x_bins, y)] *)
Definition _age_interp (x_bins_new x_bins y : tree) : res tree :=
  let* x_bins_new := as_array x_bins_new in
  let* x_bins := as_array x_bins in
  if negb (pyval_eqb x_bins_new x_bins) then
    let* x_mean_new := xp_mean_axis1 x_bins_new in
    let* x_mean := xp_mean_axis1 x_bins in
    interp_extrap x_mean_new x_mean y
  else Ok y.

Definition pop (k : string) (d : list (string * tree))
  : res (tree * list (string * tree)) :=
  match dict_get k d with
  | Some v => Ok (v, dict_del k d)
  | None => Raise (KeyError k)
  end.

(** [interp_age_bins._interp_one]; [self] is the tree being walked. *)
Definition _interp_one (self : tree) (d : list (string * tree)) : res tree :=
  let* target := path_get ["model"; "structure"; "age_bins"] self in
  let* (bins, d) := pop "age_bins" d in
  let* y := path_get ["value"] (Node d) in
  let* v := _age_interp target bins y in
  Ok (Node (dict_set "value" v d)).

Definition interp_age_bins (self : tree) : res tree :=
  apply_pure ["age_bins"; "value"] _interp_one self.

(** [promote_sampled_values._promote_values] *)
Definition _promote_values (d : list (string * tree)) : res tree :=
  if (length d =? 1)%nat then path_get ["value"] (Node d) else Ok (Node d).

Definition promote_sampled_values (self : tree) : res tree :=
  apply_pure ["value"] (fun _ => _promote_values) self.

Definition is_str (s : string) (t : tree) : bool :=
  match t with
  | Leaf (LStr s') => String.eqb s' s
  | _ => false
  end.

(** [_set_default_variances._set_reroll_var]; [self] is the receiver of
    [_set_default_variances], [d] a mapping of its deep copy. *)
Definition _set_reroll_var (self : tree) (d : list (string * tree)) : res tree :=
  let* func := path_get ["distribution"; "func"] (Node d) in
  let* dist := path_get ["distribution"] (Node d) in
  let no_scale := match dist with
                  | Node kw => negb (dict_mem "scale" kw)
                  | Leaf _ => true
                  end in
  if is_str "truncnorm" func && no_scale then
    let* c := path_get ["model"; "monte_carlo"; "reroll_variance"] self in
    let* loc := path_get ["distribution"; "loc"] (Node d) in
    let* scale := xp_abs_mul c loc in
    path_set ["distribution"; "scale"] scale (Node d)
  else Ok (Node d).

(** [_set_default_variances(copy=True)]: walks a deep copy. *)
Definition _set_default_variances (self : tree) : res tree :=
  apply_pure ["distribution"] (fun _ => _set_reroll_var self) self.

(** [sample_distributions._sample_distribution] *)
Definition _sample_distribution (d : list (string * tree)) (g : rng)
  : res (tree * rng) :=
  let* (dist, d) := pop "distribution" d in
  match dist with
  | Leaf _ => Raise TypeError
  | Node dist =>
      let* (func, dist) := pop "func" dist in
      match func with
      | Leaf (LStr func) =>
          let* base_func :=
            match distributions func with
            | Some f => Ok f
            | None =>
                match xp_random func with
                | Some f => Ok f
                | None =>
                    Raise (ValueError ("Distribution " ++ func ++ " does not exist!")%string)
                end
            end in
          let* (v, g) := base_func dist g in
          Ok (Node (dict_set "value" v d), g)
      | _ => Raise TypeError
      end
  end.

(** The function a name resolves to: [distributions] first, [xp.random]
    second. *)
Definition resolve (func : string) : option sampler :=
  match distributions func with
  | Some f => Some f
  | None => xp_random func
  end.

(** [sample_distributions]: the receiver as the call leaves it, and what
    the call returns or raises.  [self._to_arrays()] runs with
    [copy=False], on the receiver itself ([load_cfg] relies on that: it
    calls [self._to_arrays()], drops the result and returns [self]);
    [_set_default_variances] is asked for a copy and every later pass
    walks that copy, which nothing else can reach when a pass raises. *)
Definition sample_distributions (self : tree) (g : rng)
  : tree * res (tree * rng) :=
  let self := _to_arrays self in
  (self,
   let* ret := _set_default_variances self in
   let* (ret, g) :=
     apply_filtered ["distribution"] (fun _ => _sample_distribution) ret g in
   let* ret := interp_age_bins ret in
   let* ret := promote_sampled_values ret in
   Ok (ret, g)).

(** The order of passes the specification words: fill, reconcile age
    bins, draw, promote. *)
Definition sample_distributions_as_specified (self : tree) (g : rng)
  : tree * res (tree * rng) :=
  let self := _to_arrays self in
  (self,
   let* ret := _set_default_variances self in
   let* ret := interp_age_bins ret in
   let* (ret, g) :=
     apply_filtered ["distribution"] (fun _ => _sample_distribution) ret g in
   let* ret := promote_sampled_values ret in
   Ok (ret, g)).

End Backend.

(** *** Trees used to state the properties *)

(** A configuration with the model's target age bins and one parameter
    [p] given by a distribution (with [loc] and [scale]) authored on the
    age bins [B]. *)
Definition one_parameter (T B loc scale : pyval) (func : string) : tree :=
  Node [("model", Node [("structure", Node [("age_bins", Leaf (LArr T))])]);
        ("p", Node [("distribution",
                     Node [("func", Leaf (LStr func));
                           ("loc", Leaf (LArr loc));
                           ("scale", Leaf (LArr scale))]);
                    ("age_bins", Leaf (LArr B))])].

Definition kwargs (loc scale : pyval) : list (string * tree) :=
  [("loc", Leaf (LArr loc)); ("scale", Leaf (LArr scale))].

Definition model_part (T : pyval) : string * tree :=
  ("model", Node [("structure", Node [("age_bins", Leaf (LArr T))])]).

Definition drawn_parameter (T B : pyval) (v : leaf) : tree :=
  Node [model_part T;
        ("p", Node [("age_bins", Leaf (LArr B)); ("value", Leaf v)])].

(** A configuration with one parameter whose distribution parameters are
    plain Python values. *)
Definition plain_parameter (loc scale : pyval) (func : string) : tree :=
  Node [("p", Node [("distribution",
                     Node [("func", Leaf (LStr func));
                           ("loc", Leaf (LPy loc));
                           ("scale", Leaf (LPy scale))])])].

Definition unknown_distribution (func : string) : exn :=
  ValueError ("Distribution " ++ func ++ " does not exist!")%string.

End Config.

(** ** bucky/graph.py: rolling means *)

Module Graph.
Import Py.

(** Arrays of rank one and two, the ranks the rolling means are applied
    to.  [Arr2 ncols rows] has shape (length rows, ncols). *)
Inductive ndarray (A : Type) :=
| Arr1 (data : list A)
| Arr2 (ncols : nat) (rows : list (list A)).
Arguments Arr1 {A}.
Arguments Arr2 {A}.

Definition wf {A : Type} (a : ndarray A) : Prop :=
  match a with
  | Arr1 _ => True
  | Arr2 n rows => Forall (fun row => length row = n) rows
  end.

Definition nd_map {A B : Type} (f : A -> B) (a : ndarray A) : ndarray B :=
  match a with
  | Arr1 data => Arr1 (map f data)
  | Arr2 n rows => Arr2 n (map (map f) rows)
  end.

Definition res_map {A B : Type} (f : A -> B) (r : res A) : res B :=
  match r with
  | Ok a => Ok (f a)
  | Raise e => Raise e
  end.

Definition transpose {A : Type} (ncols : nat) (rows : list (list A))
  : list (list A) :=
  tabulate ncols (fun j => omap (fun row => row !! j) rows).

(** [xp.swapaxes(arr, axis, -1)] *)
Definition swapaxes_last {A : Type} (arr : ndarray A) (axis : Z)
  : res (ndarray A) :=
  match arr with
  | Arr1 _ =>
      if (axis =? 0) || (axis =? -1) then Ok arr else Raise AxisError
  | Arr2 n rows =>
      if (axis =? 1) || (axis =? -1) then Ok arr
      else if (axis =? 0) || (axis =? -2)
           then Ok (Arr2 (length rows) (transpose n rows))
           else Raise AxisError
  end.

(** [arr.shape[-1]] *)
Definition last_dim {A : Type} (arr : ndarray A) : nat :=
  match arr with
  | Arr1 data => length data
  | Arr2 n _ => n
  end.

(** [xp.empty(arr.shape[:-1] + (last,))]; the uninitialised entries are
    shown as [fill]. *)
Definition empty {A B : Type} (fill : B) (arr : ndarray A) (last : Z)
  : res (ndarray B) :=
  if last <? 0 then Raise (ValueError "negative dimensions are not allowed")
  else
    let n := Z.to_nat last in
    Ok (match arr with
        | Arr1 _ => Arr1 (replicate n fill)
        | Arr2 _ rows => Arr2 n (replicate (length rows) (replicate n fill))
        end).

(** [xp.ones(n)] *)
Definition ones {A : Type} (one : A) (n : Z) : res (list A) :=
  if n <? 0 then Raise (ValueError "negative dimensions are not allowed")
  else Ok (replicate (Z.to_nat n) one).

(** [arr.reshape(-1, arr.shape[-1])]: the rows of the array.  The
    unknown dimension cannot be inferred when the last one is 0. *)
Definition reshape_rows {A : Type} (arr : ndarray A) : res (list (list A)) :=
  if (last_dim arr =? 0)%nat
  then Raise (ValueError "cannot reshape array of size 0")
  else Ok (match arr with
           | Arr1 data => [data]
           | Arr2 _ rows => rows
           end).

Definition getrow {A : Type} (rows : list (list A)) (i : nat) : res (list A) :=
  match rows !! i with
  | Some row => Ok row
  | None => Raise IndexError
  end.

(** [rolling_arr[i] = val] for a 1-d [val]: on a rank-one array [i]
    selects a single entry, which takes only a value of size one; on a
    rank-two array it selects a row, to which [val] is broadcast. *)
Definition setitem_row {A : Type} (rolling_arr : ndarray A) (i : nat)
    (val : list A) : res (ndarray A) :=
  match rolling_arr with
  | Arr1 data =>
      if (i <? length data)%nat then
        match val with
        | [x] => Ok (Arr1 (<[i := x]> data))
        | _ => Raise (ValueError "setting an array element with a sequence.")
        end
      else Raise IndexError
  | Arr2 n rows =>
      if (i <? length rows)%nat then
        if (length val =? n)%nat then Ok (Arr2 n (<[i := val]> rows))
        else match val with
             | [x] => Ok (Arr2 n (<[i := replicate n x]> rows))
             | _ => Raise (ValueError "could not broadcast input array")
             end
      else Raise IndexError
  end.

Section Convolve.
Context {A : Type}.
Variable zero : A.
Variable add mul : A -> A -> A.

Definition dot (xs ys : list A) : A :=
  foldl add zero (zip_with mul xs ys).

(** [xp.convolve(a, v, mode="valid")]: the shorter argument slides,
    reversed, over the longer one. *)
Definition convolve (a v : list A) : res (list A) :=
  let '(a, v) := if (length a <? length v)%nat then (v, a) else (a, v) in
  if (length a =? 0)%nat then Raise (ValueError "a cannot be empty")
  else if (length v =? 0)%nat then Raise (ValueError "v cannot be empty")
  else Ok (tabulate (length a - length v + 1)
             (fun k => dot (take (length v) (drop k a)) (rev v))).
End Convolve.

Definition Rsum (l : list R) : R := foldl Rplus 0%R l.

(** The window of [rolling_arithmetic_mean]. *)
Definition mean_window (window_size : Z) (weights : option (list R))
  : res (list R) :=
  match weights with
  | None =>
      let* o := ones 1%R window_size in
      Ok (map (fun x => x / IZR window_size)%R o)
  | Some ws => Ok (map (fun x => x / Rsum ws)%R ws)
  end.

(** [rolling_arithmetic_mean(arr, window_size, axis, weights)].  The
    [reshape(shp)] inside the loop leaves an array of shape [shp] as it
    is. *)
Definition rolling_arithmetic_mean (fill : R) (arr : ndarray R)
    (window_size : Z) (axis : Z) (weights : option (list R))
  : res (ndarray R) :=
  let* arr := swapaxes_last arr axis in
  let* rolling_arr :=
    empty fill arr (Z.of_nat (last_dim arr) - window_size + 1) in
  let* window := mean_window window_size weights in
  let* arr := reshape_rows arr in
  let* rolling_arr :=
    for_each (seq 0 (length arr))
      (fun i rolling_arr =>
         let* row := getrow arr i in
         let* c := convolve 0%R Rplus Rmult row window in
         setitem_row rolling_arr i c)
      rolling_arr in
  swapaxes_last rolling_arr axis.

(** [xp.log(xp.abs(x))], overwritten by [-1000.0] where [abs(x) < 1.0]. *)
Definition log_abs (x : R) : R :=
  if Rlt_dec (Rabs x) 1 then (-1000)%R else ln (Rabs x).

(** [x < 0.0], as the 0/1 count it contributes. *)
Definition neg_count (x : R) : nat :=
  if Rlt_dec x 0 then 1%nat else 0%nat.

(** [1.0 / window_size] *)
Definition inv_window (window_size : Z) : res R :=
  if window_size =? 0 then Raise ZeroDivisionError
  else Ok (1 / IZR window_size)%R.

(** [((-1.0) ** n_neg) ** (1.0 / window_size)] for a count [n_neg]: a
    negative base with a fractional exponent gives NaN ([None]). *)
Definition sign_factor (n_neg : nat) (window_size : Z) : option R :=
  if Nat.even n_neg then Some 1%R
  else if window_size =? 1 then Some (-1)%R
  else None.

(** [rolling_geometric_mean(arr, window_size, axis, weights)]; an entry
    of the result is [None] where the code computes NaN. *)
Definition rolling_geometric_mean (fill : option R) (arr : ndarray R)
    (window_size : Z) (axis : Z) (weights : option (list R))
  : res (ndarray (option R)) :=
  match weights with
  | Some _ => Raise NotImplementedError
  | None =>
      let* arr := swapaxes_last arr axis in
      let* rolling_arr :=
        empty fill arr (Z.of_nat (last_dim arr) - window_size + 1) in
      let* o := ones 1%R window_size in
      let window := map (fun x => x / IZR window_size)%R o in
      let* arr := reshape_rows arr in
      let log_abs_arr := map (map log_abs) arr in
      let neg_mask := map (map neg_count) arr in
      let* rolling_arr :=
        for_each (seq 0 (length arr))
          (fun i rolling_arr =>
             let* la := getrow log_abs_arr i in
             let* tmp := convolve 0%R Rplus Rmult la window in
             let* nm := getrow neg_mask i in
             let* o := ones 1%nat window_size in
             let* n_neg := convolve 0%nat Nat.add Nat.mul nm o in
             let* _ := inv_window window_size in
             setitem_row rolling_arr i
               (zip_with (fun k t =>
                            option_map (fun sgn => sgn * exp t)%R
                                       (sign_factor k window_size))
                         n_neg tmp))
          rolling_arr in
      swapaxes_last rolling_arr axis
  end.

(** [rolling_harmonic_mean] *)
Definition rolling_harmonic_mean (arr : ndarray R) (window_size : Z)
    (axis : Z) (weights : option (list R)) : res (ndarray (option R)) :=
  Raise NotImplementedError.

(** [rolling_mean(arr, window_size, axis, weights, mean_type)] *)
Definition rolling_mean (fill : R) (arr : ndarray R) (window_size : Z)
    (axis : Z) (weights : option (list R)) (mean_type : string)
  : res (ndarray (option R)) :=
  if String.eqb mean_type "arithmetic" then
    res_map (nd_map Some) (rolling_arithmetic_mean fill arr window_size axis weights)
  else if String.eqb mean_type "geometric" then
    rolling_geometric_mean (Some fill) arr window_size axis weights
  else if String.eqb mean_type "harmonic" then
    rolling_harmonic_mean arr window_size axis weights
  else Raise RuntimeError.

(** *** Vocabulary for stating the properties *)

Definition exp_entry (x : R) : option R := Some (exp x).

(** What one pass of the geometric loop writes for a row. *)
Definition geometric_row (w : Z) (window : list R) (row : list R)
  : res (list (option R)) :=
  let* tmp := convolve 0%R Rplus Rmult (map log_abs row) window in
  let* o := ones 1%nat w in
  let* n_neg := convolve 0%nat Nat.add Nat.mul (map neg_count row) o in
  let* _ := inv_window w in
  Ok (zip_with (fun k t => option_map (fun sgn => sgn * exp t)%R (sign_factor k w))
               n_neg tmp).

(** Every entry of the array satisfies [P]. *)
Definition all_entries {A : Type} (P : A -> Prop) (arr : ndarray A) : Prop :=
  match arr with
  | Arr1 data => Forall P data
  | Arr2 _ rows => Forall (Forall P) rows
  end.

End Graph.

(** ** bucky/model/data.py and bucky/graph.py: sums over adm1 *)

Module Data.
Import Py.

(** What [sum_adm1] reads of [AdminLevelMapping] (its class is not among
    the sources): the number of adm1 regions and, per adm2 region, the
    index of its adm1 region. *)
Record AdminLevelMapping := {
  n_adm1 : nat;
  adm1_ids : list Z
}.

(** A boolean mask or an integer index array. *)
Inductive mask :=
| BoolMask (bits : list bool)
| IndexMask (ids : list Z).

(** [ids[mask]] *)
Definition take_mask (ids : list Z) (m : mask) : res (list Z) :=
  match m with
  | BoolMask bits =>
      if (length bits =? length ids)%nat
      then Ok (map snd (List.filter fst (zip bits ids)))
      else Raise IndexError
  | IndexMask js =>
      match mapM (fun j => norm_index (length ids) j ≫= fun p => ids !! p) js with
      | Some l => Ok l
      | None => Raise IndexError
      end
  end.

Section Reduction.
(** An entry along the leading axis (a number, or a row of the
    remaining axes) with its zero and its addition. *)
Context {V : Type}.
Variable zero : V.
Variable add : V -> V -> V.

Fixpoint scatter_pairs (out : list V) (pairs : list (Z * V)) : res (list V) :=
  match pairs with
  | [] => Ok out
  | (i, v) :: rest =>
      match norm_index (length out) i with
      | Some p => scatter_pairs (alter (fun x => add x v) p out) rest
      | None => Raise IndexError
      end
  end.

(** [xp.scatter_add(out, ids, vals)]: [out[ids[j]] += vals[j]] for every
    [j], repeated indices accumulating; [vals] is broadcast against
    [ids] along the leading axis. *)
Definition scatter_add (out : list V) (ids : list Z) (vals : list V)
  : res (list V) :=
  let* vals :=
    if (length vals =? length ids)%nat then Ok vals
    else match vals with
         | [v] => Ok (replicate (length ids) v)
         | _ => Raise (ValueError "shape mismatch")
         end in
  scatter_pairs out (zip ids vals).

(** [cached_scatter_add(a, slices, value)]: the same on a copy. *)
Definition cached_scatter_add (a : list V) (slices : list Z) (value : list V)
  : res (list V) :=
  scatter_add a slices value.

(** [buckyData.sum_adm1(adm2_arr, mask, cache)] *)
Definition sum_adm1 (adm_mapping : AdminLevelMapping) (adm2_arr : list V)
    (mask : option mask) (cache : bool) : res (list V) :=
  let out := replicate (n_adm1 adm_mapping) zero in
  let* adm1_ids :=
    match mask with
    | None => Ok (adm1_ids adm_mapping)
    | Some m => take_mask (adm1_ids adm_mapping) m
    end in
  if cache then cached_scatter_add out adm1_ids adm2_arr
  else scatter_add out adm1_ids adm2_arr.

(** [buckyGraphData.sum_adm1(adm2_arr)], with the object's [adm1_id] and
    [max_adm1]. *)
Definition graph_sum_adm1 (adm1_id : list Z) (max_adm1 : Z)
    (adm2_arr : list V) : res (list V) :=
  if max_adm1 + 1 <? 0
  then Raise (ValueError "negative dimensions are not allowed")
  else scatter_add (replicate (Z.to_nat (max_adm1 + 1)) zero) adm1_id adm2_arr.

(** The entries paired with the adm1 index [c], in order. *)
Definition group_vals (c : Z) (ids : list Z) (vals : list V) : list V :=
  map snd (List.filter (fun p => p.1 =? c) (zip ids vals)).

Definition group_sum (c : Z) (ids : list Z) (vals : list V) : V :=
  foldl add zero (group_vals c ids vals).
End Reduction.

(** The adm1 indices a call pairs with the entries of its array. *)
Definition selected_ids (m : AdminLevelMapping) (mk : option mask)
  : res (list Z) :=
  match mk with
  | None => Ok (adm1_ids m)
  | Some mk => take_mask (adm1_ids m) mk
  end.

End Data.

(** ** Concrete inputs used by the examples below *)

Module Inputs.
Import Py State Config Graph Data.

(** A layout with one bin per compartment (ten bins), one age group and
    one region; [column xs] is the state whose bins hold [xs]. *)
Definition unit_consts : consts := Consts 1 1 1.

Definition column {A : Type} (xs : list A) : list (matrix A) :=
  map (fun x => [[x]]) xs.

Definition state_of (arr : list (matrix fval)) : buckyState fval :=
  default (BuckyState unit_consts [] 0 0 0 [])
          (init (FNum 0) unit_consts (1%nat, 1%nat) (Some arr)).

Definition tenths : list (matrix Q) := column (replicate 10 (1 # 10)%Q).


Definition st_nan : list (matrix fval) :=
  column (FNaN :: replicate 9 (FNum 0)).
Definition st_unbalanced : list (matrix fval) :=
  column (replicate 10 (FNum 0)).
(** S = 1.00007, R = -0.00007, everything else 0. *)
Definition st_slightly_negative : list (matrix fval) :=
  column (FNum (100007 # 100000) :: FNum (- (7 # 100000)) :: replicate 8 (FNum 0)).

(** A stand-in backend: [xp.random] knows only [uniform], which returns
    0.5 and advances the random state; no other backend operation is
    available. *)
Definition demo_uniform : sampler nat :=
  fun _ g => Ok (Leaf (LArr (PNum (1 # 2))), S g).
Definition demo_distributions (name : string) : option (sampler nat) := None.
Definition demo_random (name : string) : option (sampler nat) :=
  if String.eqb name "uniform" then Some demo_uniform else None.
Definition unavailable {A : Type} : res A := Raise (BackendError "not provided").
Definition demo_abs_mul (c loc : tree) : res tree := unavailable.
Definition demo_mean_axis1 (x : pyval) : res pyval := unavailable.
Definition demo_interp_extrap (x_new x : pyval) (y : tree) : res tree := unavailable.

Definition demo_sample : tree -> nat -> tree * res (tree * nat) :=
  sample_distributions nat demo_distributions demo_random
    demo_abs_mul demo_mean_axis1 demo_interp_extrap.
Definition demo_sample_as_specified : tree -> nat -> tree * res (tree * nat) :=
  sample_distributions_as_specified nat demo_distributions demo_random
    demo_abs_mul demo_mean_axis1 demo_interp_extrap.

Definition two_bins : pyval :=
  PList [PList [PNum 0; PNum 17]; PList [PNum 18; PNum 64]].

(** A parameter [p] drawn from [uniform], authored on the model's own
    age bins. *)
Definition uniform_on_age_bins : tree :=
  Node [("model", Node [("structure", Node [("age_bins", Leaf (LArr two_bins))])]);
        ("p", Node [("distribution",
                     Node [("func", Leaf (LStr "uniform"));
                           ("low", Leaf (LArr (PNum 0)));
                           ("high", Leaf (LArr (PNum 1)))]);
                    ("age_bins", Leaf (LArr two_bins))])].

(** A tree holding a plain Python number. *)
Definition plain_value : tree := Node [("a", Leaf (LPy (PNum 1)))].

(** The specification's failing example, with a plain Python [loc]. *)
Definition not_a_real_distribution : tree :=
  Node [("p", Node [("distribution",
                     Node [("func", Leaf (LStr "not-a-real-distribution"));
                           ("loc", Leaf (LPy (PNum 1)));
                           ("scale", Leaf (LPy (PNum 1)))])])].

(** Three adm2 regions, the first two in adm1 region 0, the third in 1. *)
Definition three_regions : AdminLevelMapping :=
  {| n_adm1 := 2; adm1_ids := [0; 0; 1] |}.
Definition first_and_third : mask := BoolMask [true; false; true].

(** A one-entry series holding 0.5. *)
Definition one_half : ndarray R := Arr2 1 [[1 / 2]%R].

End Inputs.

(** ** Further parts of the four files *)

(** *** bucky/model/state.py: the state as floating-point entries *)

Module FloatView.
Import Py State.

(** The exact state seen as a state of (finite) floating-point entries. *)
Definition as_floats (s : buckyState Q) : buckyState fval :=
  BuckyState (st_consts s) (indices s) (n_compartments s)
             (n_age_grps s) (n_nodes s)
             (map (map (map FNum)) (state s)).



End FloatView.

(** *** bucky/config.py: lists, YAML values and [load_cfg] *)

Module ConfigLists.
Import Py Config.

(** [k] is a key of some mapping of the tree. *)
Fixpoint mentions (k : string) (t : tree) : bool :=
  match t with
  | Leaf _ => false
  | Node kids => dict_mem k kids || existsb (fun kv => mentions k kv.2) kids
  end.

(** [xp.squeeze]: every axis of length one is removed. *)
Fixpoint squeeze (a : pyval) : pyval :=
  match a with
  | PList [x] => squeeze x
  | PList xs => PList (map squeeze xs)
  | _ => a
  end.

(** What [tolist()] hands back: a [str] or another plain value. *)
Definition tolist (a : pyval) : leaf :=
  match a with
  | PStr s => LStr s
  | _ => LPy a
  end.

(** [_cast_to_list] *)
Definition _cast_to_list (v : leaf) : leaf :=
  match v with
  | LArr a => tolist (squeeze a)
  | _ => v
  end.

Definition _to_lists (self : tree) : tree := map_leaves _cast_to_list self.

(** No axis of length one anywhere in a nested sequence. *)
Fixpoint no_unit_axis (a : pyval) : bool :=
  match a with
  | PList [x] => false
  | PList xs => forallb no_unit_axis xs
  | _ => true
  end.

(** The shape of the array a nested sequence of numbers is cast to;
    [None] when it holds a string or is ragged. *)
Fixpoint shape (a : pyval) : option (list nat) :=
  match a with
  | PNum _ => Some []
  | PStr _ => None
  | PList xs =>
      match map shape xs with
      | [] => Some [0%nat]
      | Some sh :: rest =>
          if forallb (fun o => bool_decide (o = Some sh)) rest
          then Some (length xs :: sh) else None
      | None :: _ => None
      end
  end.

(** A configuration as read from YAML: every stored value is a [str], a
    number or a rectangular nested sequence of numbers. *)
Fixpoint yaml_values (t : tree) : bool :=
  match t with
  | Leaf (LStr _) => true
  | Leaf (LPy v) => match shape v with Some _ => true | None => false end
  | Leaf (LArr _) => false
  | Node kids => forallb (fun kv => yaml_values kv.2) kids
  end.

(** No stored sequence has an axis of length one. *)
Fixpoint unit_axis_free (t : tree) : bool :=
  match t with
  | Leaf (LPy v) | Leaf (LArr v) => no_unit_axis v
  | Leaf (LStr _) => true
  | Node kids => forallb (fun kv => unit_axis_free kv.2) kids
  end.

(** [~b] on a Python [bool]: the bitwise complement of 0 or 1. *)
Definition invert (b : bool) : Z := - (if b then 1 else 0) - 1.
(** Truth value of an [int]. *)
Definition truthy (z : Z) : bool := negb (z =? 0).
(** The guard of [load_cfg]: [not ~par.exists()]. *)
Definition load_cfg_guard (par_exists : bool) : bool :=
  negb (truthy (invert par_exists)).

(** The nesting depth of a sequence. *)
Fixpoint depth (a : pyval) : nat :=
  match a with
  | PList xs => S (list_max (map depth xs))
  | _ => 0
  end.

End ConfigLists.

(** *** bucky/graph.py: node attributes and the rolling means of the class *)

Module GraphData.
Import Py Graph.

(** [rolling_mean_func] as [buckyGraphData.__init__] sets it up: the
    arithmetic mean over windows of 7 along axis 0. *)
Definition rolling_mean_func (fill : R) (arr : ndarray R)
  : res (ndarray (option R)) :=
  rolling_mean fill arr 7 0 None "arithmetic".

(** The means of the windows of [w] consecutive entries of a row. *)
Definition window_means (w : nat) (row : list R) : list R :=
  tabulate (length row - w + 1)
           (fun k => (Rsum (take w (drop k row)) / INR w)%R).

(** Column [j] of a list of rows. *)
Definition nth_column (j : nat) (rows : list (list R)) : list R :=
  map (fun row => default 0%R (row !! j)) rows.

(** [xp.vstack(node_list)] for a list of 1-d arrays: one row per node. *)
Definition vstack (node_list : list (list R)) : res (ndarray R) :=
  match node_list with
  | [] => Raise (ValueError "need at least one array to concatenate")
  | v :: _ =>
      if forallb (fun u => (length u =? length v)%nat) node_list
      then Ok (Arr2 (length v) node_list)
      else Raise (ValueError "all the input array dimensions except for the concatenation axis must match exactly")
  end.

(** [arr.T] *)
Definition transposed (arr : ndarray R) : ndarray R :=
  match arr with
  | Arr1 data => Arr1 data
  | Arr2 n rows => Arr2 (length rows) (transpose n rows)
  end.

(** [xp.clip(x, a_min, a_max)] on one entry. *)
Definition clip (a_min a_max : option R) (x : R) : R :=
  let x := match a_min with Some lo => Rmax x lo | None => x end in
  match a_max with Some hi => Rmin x hi | None => x end.

(** [xp.diff(arr, axis=0)] *)
Definition diff (arr : ndarray R) : ndarray R :=
  match arr with
  | Arr1 data => Arr1 (zip_with Rminus (tail data) data)
  | Arr2 n rows => Arr2 n (zip_with (zip_with Rminus) (tail rows) rows)
  end.

Definition is_given (a : option R) : bool :=
  match a with Some _ => true | None => false end.

(** [_read_node_attr(G, name, diff, float, a_min, a_max)];
    [node_list] is the list of the nodes' values for the attribute. *)
Definition _read_node_attr (node_list : list (list R)) (with_diff : bool)
    (a_min a_max : option R) : res (ndarray R * option (ndarray R)) :=
  let clipping := is_given a_min || is_given a_max in
  let* arr := vstack node_list in
  let arr := transposed arr in
  let arr := if clipping then nd_map (clip a_min a_max) arr else arr in
  if with_diff then
    let arr_diff := diff arr in
    let arr_diff :=
      if clipping then nd_map (clip a_min a_max) arr_diff else arr_diff in
    Ok (arr, Some arr_diff)
  else Ok (arr, None).

(** [rolling_inc_cases] of a [buckyGraphData] built from a graph whose
    nodes hold the given case histories. *)
Definition rolling_inc_cases (fill : R) (case_hist : list (list R))
  : res (ndarray (option R)) :=
  let* hists := _read_node_attr case_hist true (Some 0%R) None in
  match hists.2 with
  | Some inc_case_hist => rolling_mean_func fill inc_case_hist
  | None => Raise TypeError
  end.

(** The entry is a number and it is at least [lo]. *)
Definition at_least (lo : R) (x : option R) : Prop :=
  exists v, x = Some v /\ (lo <= v)%R.

(** The two arrays [_read_node_attr] builds with [diff=True] and a lower
    bound. *)
Definition clipped_hist (lo : R) (node_list : list (list R)) (T : nat)
  : list (list R) :=
  map (map (clip (Some lo) None)) (tabulate T (fun j => nth_column j node_list)).
Definition clipped_diff (lo : R) (node_list : list (list R)) (T : nat)
  : list (list R) :=
  map (map (clip (Some lo) None))
      (zip_with (zip_with Rminus) (tail (clipped_hist lo node_list T))
                (clipped_hist lo node_list T)).

(** What the specification of [_read_node_attr] says entry by entry, for
    nodes whose values have length [T]: entry (t, j) of the first array
    is the value of node [j] at [t], or the bound if that is larger;
    entry (t, j) of the second is the difference between entries
    (t+1, j) and (t, j) of the first, or the bound if that is larger. *)
Definition value_at (u : list R) (t : nat) : R := default 0%R (u !! t).
Definition clipped_values (lo : R) (node_list : list (list R)) (T : nat)
  : list (list R) :=
  tabulate T (fun t => map (fun u => Rmax (value_at u t) lo) node_list).
Definition clipped_increments (lo : R) (node_list : list (list R)) (T : nat)
  : list (list R) :=
  tabulate (T - 1) (fun t =>
    map (fun u => Rmax (Rmax (value_at u (S t)) lo - Rmax (value_at u t) lo) lo)
        node_list).

(** A history that never goes down. *)
Definition nondecreasing (v : list R) : Prop :=
  forall t x y, v !! t = Some x -> v !! S t = Some y -> (x <= y)%R.

(** The exceptions the array operations raise. *)
Definition array_error (e : exn) : bool :=
  match e with
  | IndexError | ValueError _ | AxisError | ZeroDivisionError => true
  | _ => false
  end.

(** Returning, or raising one of the array operations' exceptions. *)
Definition only_array_errors {A : Type} (r : res A) : Prop :=
  match r with
  | Ok _ => True
  | Raise e => array_error e = true
  end.

End GraphData.

(** *** bucky/model/data.py: the population tensor *)

Module Population.
Import Py Graph GraphData Data.

(** [read_population_tensor(file, min_pop_per_bin)], from the values of
    the census table (one row per adm2 region, sorted by its index, one
    column per age bin). *)
Definition read_population_tensor (n_bins : nat) (values : list (list R))
    (min_pop_per_bin : R) : ndarray R :=
  transposed (nd_map (clip (Some min_pop_per_bin) None) (Arr2 n_bins values)).

(** [xp.sum(arr, axis=0)]: a rank-two array is summed over its rows, a
    rank-one array to a single number. *)
Definition sum_axis0 (arr : ndarray R) : list R :=
  match arr with
  | Arr1 data => [Rsum data]
  | Arr2 n rows => tabulate n (fun j => Rsum (nth_column j rows))
  end.

(** [buckyData.Nj] *)
Definition Nj (Nij : ndarray R) : list R := sum_axis0 Nij.

End Population.

(** ** Further concrete inputs *)

Module MoreInputs.
Import Py State Config Graph Data Inputs FloatView ConfigLists GraphData Population.

(** The ten-bin state with 0.1 everywhere, and the same after [init_S]. *)
Definition tenths_state : buckyState Q :=
  default (BuckyState unit_consts [] 0 0 0 [])
          (init 0%Q unit_consts (1%nat, 1%nat) (Some tenths)).
Definition tenths_balanced : buckyState Q :=
  default tenths_state (init_S tenths_state).

(** A mapping with a distribution the stand-in backend knows. *)
Definition uniform_mapping : list (string * tree) :=
  [("distribution", Node [("func", Leaf (LStr "uniform"));
                          ("low", Leaf (LArr (PNum 0)));
                          ("high", Leaf (LArr (PNum 1)))]);
   ("age_bins", Leaf (LArr two_bins))].

(** A mapping whose truncnorm distribution gives its scale. *)
Definition scaled_kwargs : list (string * tree) :=
  [("func", Leaf (LStr "truncnorm")); ("loc", Leaf (LArr (PNum 1)));
   ("scale", Leaf (LArr (PNum 2)))].
Definition scaled_mapping : list (string * tree) :=
  [("distribution", Node scaled_kwargs)].

(** One node with a history of nine days: 0, 1, ..., 8. *)
Definition nine_days : list (list R) :=
  [[0; 1; 2; 3; 4; 5; 6; 7; 8]%R].

(** Seven days of two nodes. *)
Definition one_week : list (list R) :=
  replicate 7 [1; 2]%R.

End MoreInputs.

(** * Properties *)

Section LayoutFacts.
Import Py State.

Lemma arange_app (a b c : Z) :
  a <= b -> b <= c -> arange a b ++ arange b c = arange a c.
Proof.
  intros Hab Hbc. unfold arange.
  replace (c - a) with ((b - a) + (c - b)) by lia.
  rewrite seqZ_app by lia. do 2 f_equal; lia.
Qed.

Lemma arange_length (a b : Z) : a <= b -> Z.of_nat (length (arange a b)) = b - a.
Proof. intros H. unfold arange. rewrite length_seqZ. lia. Qed.

Lemma arange_bounds (a b z : Z) : In z (arange a b) -> a <= z < b.
Proof.
  unfold arange. intros Hz. apply list_elem_of_In, elem_of_seqZ in Hz. lia.
Qed.

(** The layout every constructed state carries: [S] is bin 0 and the
    conserved group lists bins 0, 1, 2 and everything from bin 5 on. *)
Lemma build_indices_groups (c : consts) :
  0 < E_gamma_k c -> 0 < I_gamma_k c -> 0 < Rh_gamma_k c ->
  exists ind,
    build_indices c = Some ind /\
    dict_get "S" ind = Some (Slice 0 1) /\
    dict_get "N" ind = Some (IdxArr (0 :: 1 :: 2 :: arange 5 (n_compartments_of c))).
Proof.
  destruct c as [e i r]; cbn [E_gamma_k I_gamma_k Rh_gamma_k]; intros He Hi Hr.
  eexists. split; [reflexivity|]. split; [reflexivity|].
  cbn. do 2 f_equal.
  rewrite app_nil_r. repeat rewrite arange_app by lia.
  reflexivity.
Qed.

End LayoutFacts.

Section StateFacts.
Import Py State.

Local Ltac reduce_default := cbn [default from_option]; unfold Datatypes.id.

Lemma tabulate_lookup {A : Type} (n : nat) (f : nat -> A) (i : nat) :
  (i < n)%nat -> tabulate n f !! i = Some (f i).
Proof.
  intros Hi. unfold tabulate.
  change (map f (seq 0 n)) with (f <$> seq 0 n).
  rewrite list_lookup_fmap, lookup_seq_lt by done. reflexivity.
Qed.

Lemma tabulate_length {A : Type} (n : nat) (f : nat -> A) :
  length (tabulate n f) = n.
Proof. unfold tabulate. rewrite length_map, length_seq. reflexivity. Qed.

Lemma get2_tabulate {A : Type} (d : A) (ages nodes : nat) (f : nat -> nat -> A) a r :
  (a < ages)%nat -> (r < nodes)%nat ->
  get2 d (tabulate ages (fun a => tabulate nodes (f a))) a r = f a r.
Proof.
  intros Ha Hr. unfold get2.
  rewrite tabulate_lookup by done. cbn [mbind option_bind].
  rewrite tabulate_lookup by done. reflexivity.
Qed.

Lemma foldl_Qplus (a : Q) (l : list Q) : (foldl Qplus a l == a + Qsum l)%Q.
Proof.
  unfold sum_list. revert a. induction l as [|x l IH]; intros a; cbn.
  - ring.
  - rewrite IH, (IH (0 + x)%Q). ring.
Qed.

Lemma Qsum_cons (x : Q) (l : list Q) : (Qsum (x :: l) == x + Qsum l)%Q.
Proof. unfold sum_list at 1. cbn. rewrite foldl_Qplus. ring. Qed.

Lemma mapM_total {A B : Type} (f : A -> option B) (g : A -> B) (l : list A) :
  Forall (fun x => f x = Some (g x)) l -> mapM f l = Some (map g l).
Proof.
  induction 1 as [|x l Hx _ IH]; [reflexivity|].
  cbn. rewrite Hx. cbn. rewrite IH. reflexivity.
Qed.

Lemma map_tabulate {A B : Type} (h : A -> B) (n : nat) (f : nat -> A) :
  map h (tabulate n f) = tabulate n (fun i => h (f i)).
Proof. unfold tabulate. rewrite map_map. reflexivity. Qed.

Lemma tabulate_ext {A : Type} (n : nat) (f g : nat -> A) :
  (forall i, (i < n)%nat -> f i = g i) -> tabulate n f = tabulate n g.
Proof.
  intros Hfg. unfold tabulate. apply map_ext_in.
  intros i Hi. apply in_seq in Hi. apply Hfg. lia.
Qed.

Lemma map_map_tabulate {A B : Type} (h : A -> B) ages nodes (f : nat -> nat -> A) :
  map (map h) (tabulate ages (fun a => tabulate nodes (f a)))
  = tabulate ages (fun a => tabulate nodes (fun r => h (f a r))).
Proof.
  rewrite map_tabulate. apply tabulate_ext. intros a _. apply map_tabulate.
Qed.

Lemma get2_full {A : Type} (d x : A) ages nodes a r :
  (a < ages)%nat -> (r < nodes)%nat -> get2 d (full ages nodes x) a r = x.
Proof.
  intros Ha Hr. unfold get2, full.
  rewrite lookup_replicate_2 by done. cbn [mbind option_bind].
  rewrite lookup_replicate_2 by done. reflexivity.
Qed.

Lemma broadcast_axis_same {B : Type} (n : nat) (l : list B) :
  length l = n -> broadcast_axis n l = Some l.
Proof. intros <-. unfold broadcast_axis. rewrite Nat.eqb_refl. reflexivity. Qed.

Lemma broadcast_tabulate {A : Type} (ages nodes : nat) (f : nat -> nat -> A) :
  broadcast ages nodes (RMatrix (tabulate ages (fun a => tabulate nodes (f a))))
  = Some (tabulate ages (fun a => tabulate nodes (f a))).
Proof.
  cbn [broadcast].
  rewrite (mapM_total _ (fun row => row)).
  - rewrite map_id. cbn [mbind option_bind].
    apply broadcast_axis_same, tabulate_length.
  - apply Forall_forall. intros row Hrow.
    apply broadcast_axis_same.
    unfold tabulate in Hrow. apply in_map_iff in Hrow as (a & <- & _).
    apply tabulate_length.
Qed.

Lemma positions_first_bin (len : nat) :
  (1 <= len)%nat -> positions len (Slice 0 1) = Some [0%nat].
Proof.
  intros Hlen. cbn [positions].
  replace (slice_bound len 0) with 0 by (unfold slice_bound; cbn; lia).
  replace (slice_bound len 1) with 1 by (unfold slice_bound; cbn; lia).
  reflexivity.
Qed.

Lemma positions_ids (len : nat) (ids : list Z) :
  Forall (fun z => 0 <= z < Z.of_nat len) ids ->
  positions len (IdxArr ids) = Some (map Z.to_nat ids).
Proof.
  intros Hids. cbn [positions]. apply mapM_total.
  eapply Forall_impl; [|exact Hids]. intros z Hz. cbn beta in Hz.
  unfold norm_index.
  destruct (Z.leb_spec 0 z), (Z.ltb_spec z (Z.of_nat len)); try lia.
  reflexivity.
Qed.

Lemma mapM_lookup {A : Type} (d : A) (arr : list A) (ps : list nat) :
  Forall (fun p => (p < length arr)%nat) ps ->
  mapM (fun p => arr !! p) ps = Some (map (fun p => default d (arr !! p)) ps).
Proof.
  intros Hps. apply mapM_total.
  eapply Forall_impl; [|exact Hps]. intros p Hp. cbn beta in Hp.
  destruct (lookup_lt_is_Some_2 arr p Hp) as [x Hx]. rewrite Hx. reflexivity.
Qed.

Lemma setattr_first_bin {A : Type} (c : consts) ind n ages nodes
    (arr : list (matrix A)) x m :
  dict_get "S" ind = Some (Slice 0 1) ->
  (1 <= length arr)%nat ->
  broadcast ages nodes x = Some m ->
  setattr (BuckyState c ind n ages nodes arr) "S" x
  = Some (BuckyState c ind n ages nodes (<[0%nat := m]> arr)).
Proof.
  intros HS Hlen Hm. unfold setattr, setitem.
  cbn [indices state n_age_grps n_nodes st_consts n_compartments].
  rewrite HS. cbn [mbind option_bind].
  rewrite positions_first_bin by done. cbn [mbind option_bind].
  rewrite Hm. reflexivity.
Qed.

Lemma getattr_group {A : Type} (c : consts) ind n ages nodes
    (arr : list (matrix A)) rest :
  dict_get "N" ind = Some (IdxArr (0 :: rest)) ->
  rest <> [] ->
  Forall (fun z => 1 <= z < Z.of_nat (length arr)) rest ->
  getattr (BuckyState c ind n ages nodes arr) "N"
  = Some (Stacked (map (fun p => default [] (arr !! p)) (0%nat :: map Z.to_nat rest))).
Proof.
  intros HN Hne Hrest. unfold getattr, getitem. cbn [indices state].
  rewrite HN. cbn [mbind option_bind].
  rewrite positions_ids.
  2:{ constructor.
      - destruct rest as [|z rest]; [done|]. inversion Hrest; subst. lia.
      - eapply Forall_impl; [|exact Hrest]. cbn beta. lia. }
  cbn [mbind option_bind].
  rewrite (mapM_lookup []).
  2:{ apply Forall_forall. intros p Hp. cbn [map] in Hp.
      destruct Hp as [<-|Hp].
      - destruct rest as [|z rest]; [done|]. inversion Hrest; subst. lia.
      - apply in_map_iff in Hp as (z & <- & Hz).
        rewrite Forall_forall in Hrest. specialize (Hrest z Hz). lia. }
  cbn [mbind option_bind map].
  destruct rest as [|z rest]; [done|]. reflexivity.
Qed.

(** [init_S] on any state whose layout puts [S] in bin 0 and lists bin 0
    first in the conserved group, in the array's own arithmetic: S
    becomes one minus the sum of the conserved bins with S zeroed, the
    sum running from [ar_zero] through the bins in the order of N. *)
Lemma init_S_run {A : Type} `{Arith A} (s : buckyState A) (rest : list Z) :
  dict_get "S" (indices s) = Some (Slice 0 1) ->
  dict_get "N" (indices s) = Some (IdxArr (0 :: rest)) ->
  rest <> [] ->
  Forall (fun z => 1 <= z < Z.of_nat (length (state s))) rest ->
  exists s' tot (f : nat -> nat -> A),
    init_S s = Some s' /\ sum_N s' = Some tot /\
    indices s' = indices s /\
    n_age_grps s' = n_age_grps s /\ n_nodes s' = n_nodes s /\
    state s' = <[0%nat := tabulate (n_age_grps s)
                            (fun a => tabulate (n_nodes s) (f a))]> (state s) /\
    tot = tabulate (n_age_grps s) (fun a => tabulate (n_nodes s) (fun r =>
            foldl ar_add (ar_add ar_zero (f a r))
              (map (fun z => get2 ar_zero (default [] (state s !! Z.to_nat z)) a r)
                   rest))) /\
    forall a r, (a < n_age_grps s)%nat -> (r < n_nodes s)%nat ->
      f a r = ar_sub ar_one
                (foldl ar_add (ar_add ar_zero ar_zero)
                   (map (fun z => get2 ar_zero (default [] (state s !! Z.to_nat z)) a r)
                        rest)).
Proof.
  destruct s as [c ind n ages nodes arr]. cbn [indices state n_age_grps n_nodes].
  intros HS HN Hne Hrest.
  assert (Hlen : (1 <= length arr)%nat).
  { destruct rest as [|z rest]; [done|]. inversion Hrest; subst. lia. }
  set (others := fun a r =>
         map (fun z => get2 ar_zero (default [] (arr !! Z.to_nat z)) a r) rest).
  set (f := fun a r =>
         ar_sub ar_one (foldl ar_add (ar_add ar_zero ar_zero) (others a r))).
  assert (Hothers : forall (m : matrix A) a r,
            map (fun b => get2 ar_zero b a r)
                (map (fun p => default [] (<[0%nat := m]> arr !! p))
                     (map Z.to_nat rest))
            = others a r).
  { intros m a r. rewrite !map_map. apply map_ext_in. intros z Hz.
    rewrite Forall_forall in Hrest. specialize (Hrest z Hz).
    rewrite list_lookup_insert_ne by lia. reflexivity. }
  unfold init_S.
  erewrite setattr_first_bin; [|done|done|reflexivity].
  cbn [mbind option_bind].
  rewrite (getattr_group _ _ _ _ _ _ rest); [|done|done|by rewrite length_insert].
  cbn [mbind option_bind n_age_grps n_nodes one_minus_sum].
  unfold sum_bins at 1. rewrite map_map_tabulate.
  assert (Hf : tabulate ages (fun a => tabulate nodes (fun r =>
                 ar_sub ar_one
                   (sum_list ar_zero ar_add
                      (map (fun m => get2 ar_zero m a r)
                           (map (fun p => default []
                                   (<[0%nat := full ages nodes ar_zero]> arr !! p))
                                (0%nat :: map Z.to_nat rest))))))
               = tabulate ages (fun a => tabulate nodes (f a))).
  { apply tabulate_ext. intros a Ha. apply tabulate_ext. intros r Hr.
    unfold f, sum_list. cbn [map foldl].
    rewrite list_lookup_insert_eq by done. reduce_default.
    rewrite get2_full by done. by rewrite Hothers. }
  rewrite Hf.
  erewrite setattr_first_bin;
    [|done|by rewrite length_insert|apply broadcast_tabulate].
  exists (BuckyState c ind n ages nodes
            (<[0%nat := tabulate ages (fun a => tabulate nodes (f a))]> arr)),
         (tabulate ages (fun a => tabulate nodes (fun r =>
            foldl ar_add (ar_add ar_zero (f a r)) (others a r)))),
         f.
  rewrite list_insert_insert_eq.
  split; [reflexivity|].
  split.
  { unfold sum_N.
    rewrite (getattr_group _ _ _ _ _ _ rest);
      [|done|done|by rewrite length_insert].
    cbn [mbind option_bind n_age_grps n_nodes]. f_equal.
    unfold sum_bins. apply tabulate_ext. intros a Ha.
    apply tabulate_ext. intros r Hr.
    unfold sum_list. cbn [map foldl].
    rewrite list_lookup_insert_eq by done. reduce_default.
    rewrite get2_tabulate by done. by rewrite Hothers. }
  repeat (split; [reflexivity|]).
  intros a r _ _. reflexivity.
Qed.

Lemma foldl_Qplus_acc (a b : Q) (l : list Q) :
  (a == b)%Q -> (foldl Qplus a l == foldl Qplus b l)%Q.
Proof. intros Hab. rewrite (foldl_Qplus a), (foldl_Qplus b), Hab. reflexivity. Qed.

(** The same in exact arithmetic: the conserved sum is one. *)
Lemma init_S_spec (s : buckyState Q) (rest : list Z) :
  dict_get "S" (indices s) = Some (Slice 0 1) ->
  dict_get "N" (indices s) = Some (IdxArr (0 :: rest)) ->
  rest <> [] ->
  Forall (fun z => 1 <= z < Z.of_nat (length (state s))) rest ->
  exists s' tot,
    init_S s = Some s' /\ sum_N s' = Some tot /\
    indices s' = indices s /\
    (forall p, p <> 0%nat -> state s' !! p = state s !! p) /\
    forall a r, (a < n_age_grps s)%nat -> (r < n_nodes s)%nat ->
      (get2 0 tot a r == 1)%Q /\
      (get2 0 (default [] (state s' !! 0%nat)) a r ==
         1 - Qsum (map (fun z => get2 0 (default [] (state s !! Z.to_nat z)) a r) rest))%Q.
Proof.
  intros HS HN Hne Hrest.
  assert (Hlen : (1 <= length (state s))%nat).
  { destruct rest as [|z rest]; [done|]. inversion Hrest; subst. lia. }
  destruct (init_S_run s rest HS HN Hne Hrest)
    as (s' & tot & f & Hrun & Htot & Hind & _ & _ & Hst & -> & Hf).
  eexists s', _. split; [exact Hrun|]. split; [exact Htot|].
  split; [exact Hind|]. split.
  { intros p Hp. rewrite Hst. by rewrite list_lookup_insert_ne. }
  intros a r Ha Hr.
  assert (HS' : (f a r ==
            1 - Qsum (map (fun z => get2 0 (default [] (state s !! Z.to_nat z)) a r)
                          rest))%Q).
  { rewrite (Hf a r Ha Hr). cbn [ar_sub ar_one ar_add ar_zero exact].
    unfold sum_list. rewrite (foldl_Qplus_acc (0 + 0) 0) by ring. reflexivity. }
  split.
  - rewrite get2_tabulate by done. cbn [ar_sub ar_one ar_add ar_zero exact].
    rewrite foldl_Qplus, HS'. ring.
  - rewrite Hst, list_lookup_insert_eq by lia. reduce_default.
    rewrite get2_tabulate by done. exact HS'.
Qed.


End StateFacts.

Section RoundingFacts.
Import State.

Lemma Qfloor_bounds (x : Q) :
  (inject_Z (Qfloor x) <= x < inject_Z (Qfloor x) + 1)%Q.
Proof.
  split; [apply Qfloor_le|].
  pose proof (Qlt_floor x) as H. rewrite inject_Z_plus in H. exact H.
Qed.

(** Integer inequalities read off rational ones. *)
Local Ltac z_of_q :=
  rewrite ?Zle_Qle, ?Zlt_Qlt, ?inject_Z_plus;
  change (inject_Z 1) with 1%Q; change (inject_Z 0) with 0%Q;
  change (inject_Z (-1)) with (-1 # 1)%Q; lra.

(** An even integer [n] is the rounding of exactly the closed interval
    [n - 1/2, n + 1/2]: both ties go to it. *)
Lemma rint_eq_even (x : Q) (n : Z) :
  Z.even n = true ->
  rint x = n <-> (inject_Z n - (1 # 2) <= x <= inject_Z n + (1 # 2))%Q.
Proof.
  intros Hn. unfold rint.
  pose proof (Qfloor_bounds x) as [Hlo Hhi].
  set (f := Qfloor x) in *.
  destruct (Qcompare_spec (x - inject_Z f) (1 # 2)) as [Heq|Hlt|Hgt].
  - destruct (Z.even f) eqn:Hf.
    + split.
      * intros <-. lra.
      * intros [H1 H2].
        assert (f <= n) by z_of_q.
        assert (n <= f + 1) by z_of_q.
        destruct (Z.eq_dec f n) as [|Hne]; [done|].
        replace f with (Z.pred n) in Hf by lia.
        rewrite Z.even_pred, <- Z.negb_even, Hn in Hf. done.
    + split.
      * intros <-. rewrite inject_Z_plus. change (inject_Z 1) with 1%Q. lra.
      * intros [H1 H2].
        assert (f <= n) by z_of_q.
        assert (n <= f + 1) by z_of_q.
        destruct (Z.eq_dec (f + 1) n) as [|Hne]; [done|].
        replace f with n in Hf by lia. congruence.
  - split.
    + intros <-. lra.
    + intros [H1 H2].
      assert (f < n + 1) by z_of_q.
      assert (n < f + 1) by z_of_q. lia.
  - split.
    + intros <-. rewrite inject_Z_plus. change (inject_Z 1) with 1%Q. lra.
    + intros [H1 H2].
      assert (f < n) by z_of_q.
      assert (n < f + 1 + 1) by z_of_q. lia.
Qed.

Lemma rint_nonneg (x : Q) : 0 <= rint x <-> (- (1 # 2) <= x)%Q.
Proof.
  split.
  - intros H. destruct (Qlt_le_dec x (- (1#2))) as [Hlt|]; [|done].
    exfalso. revert H. unfold rint.
    pose proof (Qfloor_bounds x) as [Hlo Hhi].
    set (f := Qfloor x) in *.
    assert (f < 0) by z_of_q.
    destruct (Qcompare_spec (x - inject_Z f) (1 # 2)) as [Heq|Hl|Hgt]; try lia.
    + assert (f < -1) by z_of_q. destruct (Z.even f); lia.
    + assert (f < -1) by z_of_q. lia.
  - intros H. destruct (Z_lt_le_dec (rint x) 0) as [Hneg|]; [|done].
    exfalso. revert Hneg. unfold rint.
    pose proof (Qfloor_bounds x) as [Hlo Hhi].
    set (f := Qfloor x) in *.
    assert (-1 < f + 1) by z_of_q.
    destruct (Qcompare_spec (x - inject_Z f) (1 # 2)) as [Heq|Hl|Hgt]; try lia.
    + destruct (Z.eq_dec f (-1)) as [->|]; [cbn; lia|].
      destruct (Z.even f); lia.
    + assert (-1 < f) by z_of_q. lia.
Qed.

(** Rounded to two decimals a value is 1 exactly on [0.995, 1.005]. *)
Lemma around2_is_one (q : Q) :
  feq_one (around 2 (FNum q)) = true <-> (995 # 1000 <= q <= 1005 # 1000)%Q.
Proof.
  cbn [around feq_one].
  change (inject_Z (10 ^ Z.of_nat 2)) with (100 # 1)%Q.
  rewrite Qeq_bool_iff.
  transitivity (rint (q * (100 # 1)) = 100).
  - rewrite <- inject_Z_injective. change (inject_Z 100) with (100 # 1)%Q.
    split; intros H.
    + apply (Qmult_inj_r _ _ (/ (100 # 1))); [done|].
      rewrite H. reflexivity.
    + unfold Qdiv. rewrite H. reflexivity.
  - rewrite (rint_eq_even _ 100) by reflexivity.
    change (inject_Z 100) with (100 # 1)%Q. split; intros [H1 H2]; split; lra.
Qed.

(** Rounded to four decimals a value is non-negative exactly from
    -0.00005 on. *)
Lemma around4_nonneg (q : Q) :
  fge_zero (around 4 (FNum q)) = true <-> (- (5 # 100000) <= q)%Q.
Proof.
  cbn [around fge_zero].
  change (inject_Z (10 ^ Z.of_nat 4)) with (10000 # 1)%Q.
  rewrite Qle_bool_iff.
  transitivity (0 <= rint (q * (10000 # 1))).
  - rewrite Zle_Qle. change (inject_Z 0) with 0%Q.
    set (z := inject_Z _). split; intros H.
    + apply (Qmult_le_r _ _ (/ (10000 # 1))); [reflexivity|].
      rewrite Qmult_0_l. exact H.
    + unfold Qdiv. apply Qmult_le_0_compat; [exact H|done].
  - rewrite rint_nonneg. split; intros H; lra.
Qed.

End RoundingFacts.

Section StateTheorems.
Import Py State.

(** C1. For positive [E_gamma_k], [I_gamma_k], [Rh_gamma_k] the layout
    gives S, R, D, incH, incC one bin each, I, Ic, Ia [I_gamma_k] bins each,
    E [E_gamma_k] bins and Rh [Rh_gamma_k] bins; every slice is as long as
    its bin count and the slices, in layout order, enumerate exactly
    0, 1, ..., total_bins - 1 (no gap, no overlap); the conserved group N
    is every bin but those of incH and incC.  With E_gamma_k = 2,
    I_gamma_k = 3, Rh_gamma_k = 1 there are 17 bins, 15 of them in N. *)
Theorem layout_is_partition (c : consts) :
  0 < E_gamma_k c -> 0 < I_gamma_k c -> 0 < Rh_gamma_k c ->
  bin_counts c =
    [("S", 1); ("R", 1); ("D", 1); ("incH", 1); ("incC", 1);
     ("I", I_gamma_k c); ("Ic", I_gamma_k c); ("Ia", I_gamma_k c);
     ("E", E_gamma_k c); ("Rh", Rh_gamma_k c)]
  /\ Forall2 (fun kn kv => kn.1 = kv.1 /\
                           (exists a b, kv.2 = Slice a b /\ 0 <= a <= b) /\
                           slice_len kv.2 = kn.2 /\
                           Z.of_nat (length (index_ids kv.2)) = kn.2)
             (bin_counts c) (calc_slices (bin_counts c)).1
  /\ concat (map (fun kv => index_ids kv.2) (calc_slices (bin_counts c)).1)
     = arange 0 (n_compartments_of c)
  /\ (exists ind,
        build_indices c = Some ind /\
        dict_get "N" ind
        = Some (IdxArr (arange 0 3 ++ arange 5 (n_compartments_of c))))
  /\ n_compartments_of (Consts 2 3 1) = 17
  /\ (build_indices (Consts 2 3 1) ≫= dict_get "N")
     = Some (IdxArr [0; 1; 2; 5; 6; 7; 8; 9; 10; 11; 12; 13; 14; 15; 16]).
Proof.
  intros He Hi Hr.
  destruct (build_indices_groups c He Hi Hr) as (ind & Hind & _ & HN).
  destruct c as [e i r]; cbn [E_gamma_k I_gamma_k Rh_gamma_k] in *.
  split; [reflexivity|]. split.
  { cbn. repeat constructor; cbn; rewrite ?arange_length by lia;
      try lia; do 2 eexists; (split; [reflexivity|lia]). }
  split.
  { cbn. rewrite app_nil_r. repeat rewrite arange_app by lia. reflexivity. }
  split; [|split; reflexivity].
  exists ind. split; [exact Hind|exact HN].
Qed.

Lemma layout_is_partition_witness :
  bin_counts (Consts 2 3 1) =
    [("S", 1); ("R", 1); ("D", 1); ("incH", 1); ("incC", 1);
     ("I", 3); ("Ic", 3); ("Ia", 3); ("E", 2); ("Rh", 1)]
  /\ concat (map (fun kv => index_ids kv.2) (calc_slices (bin_counts (Consts 2 3 1))).1)
     = arange 0 17.
Proof.
  destruct (layout_is_partition (Consts 2 3 1)) as (H1 & _ & H3 & _);
    [reflexivity|reflexivity|reflexivity|].
  split; [exact H1|exact H3].
Defined.




End StateTheorems.

Section ValidateTheorems.
Import Py State.

Lemma existsb_false_Forall {A : Type} (f : A -> bool) (l : list A) :
  existsb f l = false <-> Forall (fun x => f x = false) l.
Proof.
  induction l as [|x l IH]; cbn.
  - split; [constructor|reflexivity].
  - rewrite orb_false_iff, IH, Forall_cons_iff. reflexivity.
Qed.

Lemma existsb_true_Exists {A : Type} (f : A -> bool) (l : list A) :
  existsb f l = true <-> Exists (fun x => f x = true) l.
Proof.
  induction l as [|x l IH]; cbn.
  - split; [discriminate|intros H; inversion H].
  - rewrite orb_true_iff, IH, Exists_cons. reflexivity.
Qed.

Lemma balanced_iff (x : fval) :
  negb (feq_one (around 2 x)) = false <-> balanced x.
Proof.
  rewrite negb_false_iff. unfold balanced. destruct x as [q| |].
  - rewrite around2_is_one. split.
    + intros H. exists q. done.
    + intros (q' & [= <-] & H). exact H.
  - split; [discriminate|]. intros (q' & [=] & _).
  - split; [discriminate|]. intros (q' & [=] & _).
Qed.

Lemma too_negative_iff (x : fval) :
  isfinite x = true ->
  negb (fge_zero (around 4 x)) = true <-> too_negative x.
Proof.
  intros Hfin. rewrite negb_true_iff. unfold too_negative.
  destruct x as [q| |]; [|discriminate..].
  rewrite <- not_true_iff_false, around4_nonneg. split.
  - intros H. exists q. split; [done|]. apply Qnot_le_lt. exact H.
  - intros (q' & [= <-] & H) Hle. apply (Qlt_not_le _ _ H Hle).
Qed.

(** C6 (as the code has it). The three checks run in order and every
    failure raises the same [StateValidationException]; only the logged
    line tells them apart: a non-finite entry; otherwise a conserved sum
    that does not round to 1 at two decimals (one outside [0.995, 1.005]);
    otherwise an entry that rounds below zero at four decimals (one below
    -0.00005); otherwise nothing is raised. *)
Theorem validate_state_checks (s : buckyState fval) (sums : list fval) :
  N_sums s = Some sums ->
  let nonfinite := Exists (fun x => isfinite x = false) (entries s) in
  let unbalanced := Exists (fun x => ~ balanced x) sums in
  let negative := Exists too_negative (entries s) in
  (nonfinite ->
     validate_state s = ([msg_nonfinite], Some StateValidationException)) /\
  (~ nonfinite -> unbalanced ->
     validate_state s = ([msg_unbalanced], Some StateValidationException)) /\
  (~ nonfinite -> ~ unbalanced -> negative ->
     validate_state s = ([msg_negative], Some StateValidationException)) /\
  (~ nonfinite -> ~ unbalanced -> ~ negative ->
     validate_state s = ([], None)).
Proof.
  intros Hsums nonfinite unbalanced negative. unfold validate_state.
  rewrite Hsums.
  destruct (existsb (fun x => negb (isfinite x)) (entries s)) eqn:Hfin.
  { assert (Hnf : nonfinite).
    { apply existsb_true_Exists in Hfin. eapply Exists_impl; [|exact Hfin].
      intros x Hx. by apply negb_true_iff. }
    repeat split; [done|intros Hn; by destruct Hn..]. }
  assert (Hallfin : Forall (fun x => isfinite x = true) (entries s)).
  { apply existsb_false_Forall in Hfin. eapply Forall_impl; [|exact Hfin].
    intros x Hx. by apply negb_false_iff. }
  assert (Hnf : ~ nonfinite).
  { intros Hex. apply Exists_exists in Hex as (x & Hin & Hx).
    rewrite Forall_forall in Hallfin. specialize (Hallfin x Hin). congruence. }
  split; [done|].
  destruct (existsb (fun x => negb (feq_one (around 2 x))) sums) eqn:Hbal.
  { assert (Hub : unbalanced).
    { apply existsb_true_Exists in Hbal. eapply Exists_impl; [|exact Hbal].
      intros x Hx Hb. apply balanced_iff in Hb. congruence. }
    repeat split; [done|intros _ Hn; by destruct Hn..]. }
  assert (Hnub : ~ unbalanced).
  { intros Hex. apply Exists_exists in Hex as (x & Hin & Hx).
    apply existsb_false_Forall in Hbal. rewrite Forall_forall in Hbal.
    apply Hx, balanced_iff, Hbal, Hin. }
  split; [done|].
  destruct (existsb (fun x => negb (fge_zero (around 4 x))) (entries s)) eqn:Hneg.
  { assert (Hng : negative).
    { apply existsb_true_Exists, Exists_exists in Hneg as (x & Hin & Hx).
      apply Exists_exists. exists x. split; [done|].
      apply too_negative_iff; [|done].
      rewrite Forall_forall in Hallfin. by apply Hallfin. }
    split; [done|]. intros _ _ Hn. by destruct Hn. }
  split; [|done]. intros _ _ Hng. exfalso.
  apply Exists_exists in Hng as (x & Hin & Hx).
  apply existsb_false_Forall in Hneg. rewrite Forall_forall in Hneg.
  specialize (Hneg x Hin).
  apply too_negative_iff in Hx; [congruence|].
  rewrite Forall_forall in Hallfin. by apply Hallfin.
Qed.

End ValidateTheorems.

Section ConfigFacts.
Import Py Config.

(** Induction on trees that reaches the children of a mapping. *)
Lemma tree_rect_kids (P : tree -> Prop)
    (Hleaf : forall v, P (Leaf v))
    (Hnode : forall kids, Forall (fun kv => P kv.2) kids -> P (Node kids)) :
  forall t, P t.
Proof.
  fix IH 1. intros [v|kids]; [apply Hleaf|].
  apply Hnode. induction kids as [|[k t] kids IHkids]; constructor.
  - apply IH.
  - exact IHkids.
Qed.

Lemma _to_arrays_arrays_only (t : tree) : arrays_only (_to_arrays t) = true.
Proof.
  induction t as [[s|v|a]|kids IH] using tree_rect_kids; try reflexivity.
  cbn. rewrite forallb_forall. intros [k t'] Hin.
  apply in_map_iff in Hin as ([k0 t0] & [= <- <-] & Hin0).
  rewrite Forall_forall in IH. exact (IH _ Hin0).
Qed.

Lemma _to_arrays_fixed (t : tree) : arrays_only t = true -> _to_arrays t = t.
Proof.
  induction t as [[s|v|a]|kids IH] using tree_rect_kids;
    try reflexivity; try discriminate.
  cbn. intros Hall. f_equal.
  rewrite forallb_forall in Hall. rewrite Forall_forall in IH.
  rewrite <- (map_id kids) at 2. apply map_ext_in.
  intros [k t'] Hin. cbn. f_equal. apply (IH _ Hin), (Hall _ Hin).
Qed.

End ConfigFacts.

Section SamplerTheorems.
Import Py Config.

Variable rng : Type.
Variable distributions xp_random : string -> option (sampler rng).
Variable xp_abs_mul : tree -> tree -> res tree.
Variable xp_mean_axis1 : pyval -> res pyval.
Variable interp_extrap : pyval -> pyval -> tree -> res tree.

Let sample :=
  sample_distributions rng distributions xp_random
    xp_abs_mul xp_mean_axis1 interp_extrap.
Let sample_as_specified :=
  sample_distributions_as_specified rng distributions xp_random
    xp_abs_mul xp_mean_axis1 interp_extrap.

Lemma resolve_base_func (func : string) (f : sampler rng) :
  resolve rng distributions xp_random func = Some f ->
  match distributions func with
  | Some f0 => Ok f0
  | None => match xp_random func with
            | Some f0 => Ok f0
            | None => Raise (ValueError ("Distribution " ++ func ++ " does not exist!")%string)
            end
  end = Ok f.
Proof.
  unfold resolve. destruct (distributions func); [congruence|].
  destruct (xp_random func); congruence.
Qed.

Lemma fill_one_parameter (T B loc scale : pyval) (func : string) :
  _set_default_variances xp_abs_mul (one_parameter T B loc scale func)
  = Ok (one_parameter T B loc scale func).
Proof.
  unfold _set_default_variances, apply_pure, apply_filtered, one_parameter.
  cbn. rewrite andb_false_r. reflexivity.
Qed.

Lemma draw_one_parameter (T B loc scale : pyval) (func : string)
    (f : sampler rng) (g g' : rng) (v : leaf) :
  resolve rng distributions xp_random func = Some f ->
  f (kwargs loc scale) g = Ok (Leaf v, g') ->
  apply_filtered ["distribution"]
    (fun _ => _sample_distribution rng distributions xp_random)
    (one_parameter T B loc scale func) g
  = Ok (drawn_parameter T B v, g').
Proof.
  intros Hres Hdraw. apply resolve_base_func in Hres.
  unfold apply_filtered, one_parameter. cbn -[String.append].
  rewrite Hres. cbn. unfold kwargs in Hdraw. rewrite Hdraw. reflexivity.
Qed.

Lemma interp_drawn_parameter (T B : pyval) (v v' : leaf) :
  _age_interp xp_mean_axis1 interp_extrap (Leaf (LArr T)) (Leaf (LArr B)) (Leaf v)
    = Ok (Leaf v') ->
  interp_age_bins xp_mean_axis1 interp_extrap (drawn_parameter T B v)
  = Ok (Node [model_part T; ("p", Node [("value", Leaf v')])]).
Proof.
  intros Hinterp.
  unfold interp_age_bins, apply_pure, apply_filtered, drawn_parameter, model_part.
  cbn -[_age_interp]. rewrite Hinterp. reflexivity.
Qed.

Lemma interp_one_parameter (T B loc scale : pyval) (func : string) :
  interp_age_bins xp_mean_axis1 interp_extrap (one_parameter T B loc scale func)
  = Ok (one_parameter T B loc scale func).
Proof. reflexivity. Qed.

(** C3 (as the code has it). On every tree the passes run in the order
    fill, draw, reconcile age bins, promote; so for a parameter given by a
    distribution together with [age_bins], the value is drawn first and
    the drawn value is then reconciled to the target bins and promoted;
    in the order the specification words, the reconciliation pass would
    find no [value] yet and the node would keep its [age_bins] and stay
    a mapping. *)
Theorem draw_precedes_age_reconciliation
    (T B loc scale : pyval) (func : string) (f : sampler rng)
    (g g' : rng) (v v' : leaf) :
  resolve rng distributions xp_random func = Some f ->
  f (kwargs loc scale) g = Ok (Leaf v, g') ->
  _age_interp xp_mean_axis1 interp_extrap (Leaf (LArr T)) (Leaf (LArr B)) (Leaf v)
    = Ok (Leaf v') ->
  (forall self : tree,
     (sample self g).2
     = let* filled := _set_default_variances xp_abs_mul (_to_arrays self) in
       let* (drawn, g1) :=
         apply_filtered ["distribution"]
           (fun _ => _sample_distribution rng distributions xp_random) filled g in
       let* reconciled := interp_age_bins xp_mean_axis1 interp_extrap drawn in
       let* promoted := promote_sampled_values reconciled in
       Ok (promoted, g1))
  /\ (sample (one_parameter T B loc scale func) g).2
    = Ok (Node [model_part T; ("p", Leaf v')], g')
  /\ (sample_as_specified (one_parameter T B loc scale func) g).2
    = Ok (Node [model_part T;
                ("p", Node [("age_bins", Leaf (LArr B)); ("value", Leaf v)])], g').
Proof.
  intros Hres Hdraw Hinterp.
  split; [reflexivity|].
  subst sample sample_as_specified.
  unfold sample_distributions, sample_distributions_as_specified.
  cbn [snd].
  rewrite (_to_arrays_fixed (one_parameter T B loc scale func)) by reflexivity.
  rewrite fill_one_parameter. cbn [bind].
  rewrite interp_one_parameter. cbn [bind].
  rewrite (draw_one_parameter T B loc scale func f g g' v Hres Hdraw). cbn [bind].
  rewrite (interp_drawn_parameter T B v v' Hinterp). cbn [bind].
  split; reflexivity.
Qed.


(** C4 (as the code has it). Whatever the call returns or raises, it
    leaves its receiver as [_to_arrays] makes it: every stored value that
    is not a string is cast, in place, to a backend array, and nothing
    else of the input changes.  A tree that holds strings and arrays only
    (such as one read by [load_cfg]) is therefore left as it was. *)
Theorem sampler_casts_input_in_place (self : tree) (g : rng) :
  (sample self g).1 = _to_arrays self
  /\ arrays_only (sample self g).1 = true
  /\ (arrays_only self = true -> (sample self g).1 = self)
  /\ (sample (sample self g).1 g).1 = (sample self g).1.
Proof.
  subst sample. unfold sample_distributions. cbn [fst].
  split; [reflexivity|]. split; [apply _to_arrays_arrays_only|].
  split; [apply _to_arrays_fixed|].
  apply _to_arrays_fixed, _to_arrays_arrays_only.
Qed.

(** C8 (as the code has it). A node whose [func] is in neither namespace
    makes the draw raise a [ValueError] that names it; a name found in
    [distributions] is drawn with that function even if [xp.random] has
    it too, a name found only in [xp.random] with that one, and then the
    only failure is the one the function itself raises.  When sampling a
    tree fails this way the input is left as [_to_arrays] makes it (its
    plain values cast to arrays), not as it was passed. *)
Theorem unknown_distribution_is_raised
    (d dist : list (string * tree)) (func : string) (g : rng) :
  dict_get "distribution" d = Some (Node dist) ->
  dict_get "func" dist = Some (Leaf (LStr func)) ->
  let drawn_with (f : sampler rng) :=
    let* (v, g') := f (dict_del "func" dist) g in
    Ok (Node (dict_set "value" v (dict_del "distribution" d)), g') in
  (distributions func = None -> xp_random func = None ->
     _sample_distribution rng distributions xp_random d g
     = Raise (unknown_distribution func))
  /\ (forall f, distributions func = Some f ->
        _sample_distribution rng distributions xp_random d g = drawn_with f)
  /\ (forall f, distributions func = None -> xp_random func = Some f ->
        _sample_distribution rng distributions xp_random d g = drawn_with f)
  /\ (forall loc scale,
        distributions func = None -> xp_random func = None ->
        sample (plain_parameter loc scale func) g
        = (_to_arrays (plain_parameter loc scale func),
           Raise (unknown_distribution func))).
Proof.
  intros Hd Hdist drawn_with. unfold _sample_distribution, pop.
  rewrite Hd. cbn [bind]. rewrite Hdist. cbn [bind].
  repeat split.
  - intros -> ->. reflexivity.
  - intros f ->. reflexivity.
  - intros f -> ->. reflexivity.
  - intros loc scale Hn1 Hn2. subst sample.
    unfold sample_distributions, plain_parameter. f_equal.
    unfold _set_default_variances, apply_pure, apply_filtered.
    cbn -[String.append]. rewrite andb_false_r. cbn -[String.append].
    rewrite Hn1, Hn2. reflexivity.
Qed.

End SamplerTheorems.

Section RollingFacts.
Import Py Graph.

Lemma convolve_fits {A : Type} (zero : A) (add mul : A -> A -> A)
    (a v : list A) :
  (1 <= length v)%nat -> (length v <= length a)%nat ->
  convolve zero add mul a v
  = Ok (tabulate (length a - length v + 1)
          (fun k => dot zero add mul (take (length v) (drop k a)) (rev v))).
Proof.
  intros Hv Hav. unfold convolve.
  destruct (Nat.ltb_spec (length a) (length v)); [lia|].
  destruct (Nat.eqb_spec (length a) 0); [lia|].
  destruct (Nat.eqb_spec (length v) 0); [lia|].
  reflexivity.
Qed.

Lemma ones_length {A : Type} (one : A) (n : Z) (o : list A) :
  ones one n = Ok o -> 0 <= n /\ o = replicate (Z.to_nat n) one.
Proof.
  unfold ones. destruct (Z.ltb_spec n 0); [discriminate|].
  intros [= <-]. split; [lia|reflexivity].
Qed.

(** On a rank-one series the loop writes a whole convolution into one
    entry: with at least two output positions this fails. *)
Lemma rolling_arithmetic_rank_one (fill : R) (data : list R) (w : Z) :
  1 <= w -> w + 1 <= Z.of_nat (length data) ->
  rolling_arithmetic_mean fill (Arr1 data) w 0 None
  = Raise (ValueError "setting an array element with a sequence.").
Proof.
  intros Hw Hlen. unfold rolling_arithmetic_mean.
  cbn [swapaxes_last Z.eqb orb bind last_dim].
  unfold empty. destruct (Z.ltb_spec (Z.of_nat (length data) - w + 1) 0); [lia|].
  cbn [bind]. unfold mean_window, ones.
  destruct (Z.ltb_spec w 0); [lia|]. cbn [bind].
  unfold reshape_rows. cbn [last_dim].
  destruct (Nat.eqb_spec (length data) 0); [lia|].
  cbn [bind length seq for_each getrow lookup list_lookup].
  rewrite convolve_fits; rewrite ?length_map, ?length_replicate; [|lia..].
  cbn [bind setitem_row]. rewrite length_replicate.
  destruct (Nat.ltb_spec 0 (Z.to_nat (Z.of_nat (length data) - w + 1))); [|lia].
  remember (length data - Z.to_nat w + 1)%nat as m eqn:Hm.
  destruct m as [|[|m]]; [lia|lia|]. reflexivity.
Qed.


(** *** The two means on a series with every entry at least one *)

Lemma transpose_map {A B : Type} (f : A -> B) (n : nat) (rows : list (list A)) :
  transpose n (map (map f) rows) = map (map f) (transpose n rows).
Proof.
  unfold transpose, tabulate. rewrite map_map. apply map_ext. intros j.
  induction rows as [|row rows IH]; [reflexivity|].
  cbn [map omap list_omap].
  change (map f row) with (f <$> row). rewrite list_lookup_fmap.
  destruct (row !! j); cbn; rewrite IH; reflexivity.
Qed.

Lemma swapaxes_last_map {A B : Type} (f : A -> B) (arr : ndarray A) (axis : Z) :
  swapaxes_last (nd_map f arr) axis = res_map (nd_map f) (swapaxes_last arr axis).
Proof.
  destruct arr as [data|n rows]; cbn [nd_map swapaxes_last].
  - destruct ((axis =? 0) || (axis =? -1)); reflexivity.
  - destruct ((axis =? 1) || (axis =? -1)); [reflexivity|].
    destruct ((axis =? 0) || (axis =? -2)); [|reflexivity].
    cbn [res_map nd_map]. rewrite length_map, transpose_map. reflexivity.
Qed.

Lemma last_dim_map {A B : Type} (f : A -> B) (arr : ndarray A) :
  last_dim (nd_map f arr) = last_dim arr.
Proof. destruct arr; cbn; rewrite ?length_map; reflexivity. Qed.

Lemma convolve_nonempty {A : Type} (zero : A) (add mul : A -> A -> A)
    (a v c : list A) :
  convolve zero add mul a v = Ok c -> length a <> 0%nat /\ length v <> 0%nat.
Proof.
  unfold convolve. destruct (Nat.ltb_spec (length a) (length v)).
  - destruct (Nat.eqb_spec (length v) 0); [discriminate|].
    destruct (Nat.eqb_spec (length a) 0); [discriminate|]. done.
  - destruct (Nat.eqb_spec (length a) 0); [discriminate|].
    destruct (Nat.eqb_spec (length v) 0); [discriminate|]. done.
Qed.

Lemma dot_zero_l (xs ys : list nat) :
  Forall (fun x => x = 0%nat) xs -> dot 0%nat Nat.add Nat.mul xs ys = 0%nat.
Proof.
  unfold dot. intros Hxs. revert ys.
  induction Hxs as [|x xs -> _ IH]; intros [|y ys]; cbn; try reflexivity.
  apply IH.
Qed.

Lemma dot_zero_r (xs ys : list nat) :
  Forall (fun y => y = 0%nat) ys -> dot 0%nat Nat.add Nat.mul xs ys = 0%nat.
Proof.
  unfold dot. intros Hys. revert xs.
  induction Hys as [|y ys -> _ IH]; intros [|x xs]; cbn; try reflexivity.
  rewrite Nat.mul_0_r. apply IH.
Qed.

Lemma tabulate_const {A : Type} (n : nat) (f : nat -> A) (x : A) :
  (forall i, f i = x) -> tabulate n f = replicate n x.
Proof.
  intros Hf. unfold tabulate. generalize 0%nat.
  induction n as [|n IH]; intros k; cbn; [reflexivity|].
  rewrite Hf, IH. reflexivity.
Qed.

(** The count of negative entries per window, when there are none. *)
Lemma convolve_no_negatives (a v c : list R) (zs os : list nat) :
  convolve 0%R Rplus Rmult a v = Ok c ->
  length zs = length a -> length os = length v ->
  Forall (fun z => z = 0%nat) zs ->
  convolve 0%nat Nat.add Nat.mul zs os = Ok (replicate (length c) 0%nat).
Proof.
  intros Hc Hzs Hos Hzero. unfold convolve in *. rewrite Hzs, Hos.
  destruct (Nat.ltb (length a) (length v)).
  - rewrite Hos, Hzs.
    destruct (length v =? 0)%nat; [discriminate|].
    destruct (length a =? 0)%nat; [discriminate|].
    injection Hc as <-. rewrite tabulate_length. f_equal.
    apply tabulate_const. intros k. apply dot_zero_r.
    apply Forall_forall. intros z Hz. apply in_rev in Hz.
    rewrite Forall_forall in Hzero. by apply Hzero.
  - rewrite Hos, Hzs.
    destruct (length a =? 0)%nat; [discriminate|].
    destruct (length v =? 0)%nat; [discriminate|].
    injection Hc as <-. rewrite tabulate_length. f_equal.
    apply tabulate_const. intros k. apply dot_zero_l.
    apply Forall_forall. intros z Hz.
    apply list_elem_of_In, subseteq_take, subseteq_drop in Hz.
    rewrite Forall_forall in Hzero. apply Hzero, list_elem_of_In. exact Hz.
Qed.

Lemma log_abs_ge_one (x : R) : (1 <= x)%R -> log_abs x = ln x.
Proof.
  intros Hx. unfold log_abs.
  rewrite Rabs_pos_eq by lra.
  destruct (Rlt_dec x 1); [lra|reflexivity].
Qed.

Lemma neg_count_ge_one (x : R) : (1 <= x)%R -> neg_count x = 0%nat.
Proof. intros Hx. unfold neg_count. destruct (Rlt_dec x 0); [lra|reflexivity]. Qed.

Lemma zip_with_replicate_zero (w : Z) (c : list R) :
  zip_with (fun k t => option_map (fun sgn => sgn * exp t)%R (sign_factor k w))
           (replicate (length c) 0%nat) c
  = map exp_entry c.
Proof.
  induction c as [|t c IH]; [reflexivity|].
  cbn [length replicate zip_with map]. rewrite IH. f_equal.
  unfold sign_factor, exp_entry. cbn. f_equal. lra.
Qed.

Lemma geometric_row_ge_one (w : Z) (window row : list R) :
  Forall (fun x => 1 <= x)%R row ->
  0 <= w -> length window = Z.to_nat w ->
  geometric_row w window row
  = res_map (map exp_entry) (convolve 0%R Rplus Rmult (map ln row) window).
Proof.
  intros Hrow Hw Hwin. unfold geometric_row.
  assert (Hlog : map log_abs row = map ln row).
  { apply map_ext_in. intros x Hx. apply log_abs_ge_one.
    rewrite Forall_forall in Hrow. by apply Hrow. }
  rewrite Hlog.
  destruct (convolve 0%R Rplus Rmult (map ln row) window) as [c|e] eqn:Hc;
    [|reflexivity].
  cbn [bind res_map]. unfold ones.
  destruct (Z.ltb_spec w 0); [lia|]. cbn [bind].
  rewrite (convolve_no_negatives (map ln row) window c).
  - cbn [bind]. unfold inv_window.
    destruct (Z.eqb_spec w 0) as [->|_].
    + apply convolve_nonempty in Hc as [_ Hne]. rewrite Hwin in Hne. done.
    + cbn [bind]. rewrite zip_with_replicate_zero. reflexivity.
  - exact Hc.
  - rewrite !length_map. reflexivity.
  - rewrite length_replicate. symmetry. exact Hwin.
  - apply Forall_forall. intros z Hz. apply in_map_iff in Hz as (x & <- & Hx).
    apply neg_count_ge_one. rewrite Forall_forall in Hrow. by apply Hrow.
Qed.

Lemma getrow_map {A B : Type} (f : A -> B) (rows : list (list A)) (i : nat) :
  getrow (map (map f) rows) i = res_map (map f) (getrow rows i).
Proof.
  unfold getrow. change (map (map f) rows) with (map f <$> rows).
  rewrite list_lookup_fmap. destruct (rows !! i); reflexivity.
Qed.

Lemma getrow_lookup {A : Type} (rows : list (list A)) (i : nat) (row : list A) :
  rows !! i = Some row -> getrow rows i = Ok row.
Proof. unfold getrow. intros ->. reflexivity. Qed.

(** Writing related rows into arrays of the same shape. *)
Lemma setitem_row_related (n i : nat) (sg : list (list (option R)))
    (sa : list (list R)) (c : list R) :
  length sg = length sa ->
  match setitem_row (Arr2 n sa) i c with
  | Ok (Arr2 n' sa') =>
      exists vg va, n' = n /\ sa' = <[i := va]> sa /\ vg = map exp_entry va /\
        (i < length sa)%nat /\
        setitem_row (Arr2 n sg) i (map exp_entry c) = Ok (Arr2 n (<[i := vg]> sg))
  | Ok (Arr1 _) => False
  | Raise e => setitem_row (Arr2 n sg) i (map exp_entry c) = Raise e
  end.
Proof.
  intros Hlen. cbn [setitem_row]. rewrite Hlen, length_map.
  destruct (Nat.ltb_spec i (length sa)); [|reflexivity].
  destruct (Nat.eqb_spec (length c) n).
  - exists (map exp_entry c), c. done.
  - destruct c as [|x [|y c]]; try reflexivity.
    exists (replicate n (exp_entry x)), (replicate n x).
    repeat split; try done.
    change (map exp_entry (replicate n x)) with (exp_entry <$> replicate n x).
    by rewrite fmap_replicate.
Qed.

(** The two loops over the rows of a rank-two series, started from
    arrays whose first [i0] rows already correspond. *)
Lemma loops_related (rows : list (list R)) (w : Z) (window : list R) (n : nat) :
  Forall (Forall (fun x => 1 <= x)%R) rows ->
  0 <= w -> length window = Z.to_nat w ->
  forall m i0 sg sa,
    (i0 + m = length rows)%nat ->
    length sg = length rows -> length sa = length rows ->
    take i0 sg = map (map exp_entry) (take i0 sa) ->
    for_each (seq i0 m)
      (fun i rolling_arr =>
         let* la := getrow (map (map log_abs) rows) i in
         let* tmp := convolve 0%R Rplus Rmult la window in
         let* nm := getrow (map (map neg_count) rows) i in
         let* o := ones 1%nat w in
         let* n_neg := convolve 0%nat Nat.add Nat.mul nm o in
         let* _ := inv_window w in
         setitem_row rolling_arr i
           (zip_with (fun k t =>
                        option_map (fun sgn => sgn * exp t)%R (sign_factor k w))
                     n_neg tmp))
      (Arr2 n sg)
    = res_map (nd_map exp_entry)
        (for_each (seq i0 m)
           (fun i rolling_arr =>
              let* row := getrow (map (map ln) rows) i in
              let* c := convolve 0%R Rplus Rmult row window in
              setitem_row rolling_arr i c)
           (Arr2 n sa)).
Proof.
  intros Hrows Hw Hwin. induction m as [|m IH]; intros i0 sg sa Hi Hsg Hsa Hpre.
  - cbn [seq for_each res_map nd_map]. do 2 f_equal.
    rewrite <- (take_ge sg i0), <- (take_ge sa i0) by lia. exact Hpre.
  - cbn [seq for_each].
    destruct (lookup_lt_is_Some_2 rows i0) as [row Hrow]; [lia|].
    rewrite !getrow_map, (getrow_lookup _ _ _ Hrow).
    cbn [res_map bind].
    assert (Hge : Forall (fun x => 1 <= x)%R row).
    { rewrite Forall_forall in Hrows. apply Hrows.
      apply list_elem_of_In. eapply list_elem_of_lookup_2. exact Hrow. }
    match goal with
    | |- bind ?body _ = _ =>
        assert (Hbody : body = let* vals := geometric_row w window row in
                               setitem_row (Arr2 n sg) i0 vals)
    end.
    { unfold geometric_row.
      destruct (convolve 0%R Rplus Rmult (map log_abs row) window);
        [|reflexivity]. cbn [bind].
      destruct (ones 1%nat w) as [o|]; [|reflexivity]. cbn [bind].
      destruct (convolve 0%nat Nat.add Nat.mul (map neg_count row) o);
        [|reflexivity]. cbn [bind].
      destruct (inv_window w); reflexivity. }
    rewrite Hbody, (geometric_row_ge_one w window row Hge Hw Hwin).
    clear Hbody.
    destruct (convolve 0%R Rplus Rmult (map ln row) window) as [c|e];
      [|reflexivity].
    cbn [bind res_map].
    pose proof (setitem_row_related n i0 sg sa c ltac:(congruence)) as Hset.
    destruct (setitem_row (Arr2 n sa) i0 c) as [[d|n' sa']|e]; [done| |].
    + destruct Hset as (vg & va & -> & -> & -> & Hi0 & ->).
      cbn [bind]. apply IH.
      * lia.
      * by rewrite length_insert.
      * by rewrite length_insert.
      * rewrite (take_S_r _ _ (map exp_entry va)), (take_S_r _ _ va).
        -- rewrite !take_insert_ge by lia. rewrite map_app, Hpre. reflexivity.
        -- apply list_lookup_insert_eq. lia.
        -- apply list_lookup_insert_eq. lia.
    + rewrite Hset. reflexivity.
Qed.

Lemma convolve_length {A : Type} (zero : A) (add mul : A -> A -> A)
    (a v c : list A) :
  convolve zero add mul a v = Ok c ->
  length c = (Nat.max (length a) (length v) - Nat.min (length a) (length v) + 1)%nat.
Proof.
  unfold convolve. destruct (Nat.ltb_spec (length a) (length v)).
  - destruct (length v =? 0)%nat; [discriminate|].
    destruct (length a =? 0)%nat; [discriminate|].
    intros [= <-]. rewrite tabulate_length. lia.
  - destruct (length a =? 0)%nat; [discriminate|].
    destruct (length v =? 0)%nat; [discriminate|].
    intros [= <-]. rewrite tabulate_length. lia.
Qed.

Lemma transpose_all {A : Type} (P : A -> Prop) (n : nat) (rows : list (list A)) :
  Forall (Forall P) rows -> Forall (Forall P) (transpose n rows).
Proof.
  intros Hrows. unfold transpose, tabulate.
  apply Forall_forall. intros col Hcol.
  apply in_map_iff in Hcol as (j & <- & _).
  apply Forall_forall. intros x Hx.
  apply list_elem_of_In, list_elem_of_omap in Hx as (row & Hrow & Hx).
  rewrite Forall_forall in Hrows.
  specialize (Hrows row (proj1 (list_elem_of_In _ _) Hrow)).
  rewrite Forall_forall in Hrows. apply Hrows.
  apply list_elem_of_In. eapply list_elem_of_lookup_2. exact Hx.
Qed.

Lemma swapaxes_last_all {A : Type} (P : A -> Prop) (arr arr' : ndarray A) axis :
  all_entries P arr -> swapaxes_last arr axis = Ok arr' -> all_entries P arr'.
Proof.
  destruct arr as [data|n rows]; cbn [swapaxes_last all_entries]; intros Hall.
  - destruct ((axis =? 0) || (axis =? -1)); [|discriminate].
    intros [= <-]. exact Hall.
  - destruct ((axis =? 1) || (axis =? -1)); [intros [= <-]; exact Hall|].
    destruct ((axis =? 0) || (axis =? -2)); [|discriminate].
    intros [= <-]. cbn. by apply transpose_all.
Qed.

(** *** The arithmetic mean of a constant rank-two series *)

Lemma rev_replicate {A : Type} (n : nat) (x : A) :
  rev (replicate n x) = replicate n x.
Proof.
  induction n as [|n IH]; [reflexivity|].
  cbn [replicate rev]. rewrite IH.
  clear IH. induction n as [|n IH]; [reflexivity|].
  cbn [replicate app]. rewrite IH. reflexivity.
Qed.

Lemma foldl_Rplus_replicate (a x : R) (m : nat) :
  foldl Rplus a (replicate m x) = (a + INR m * x)%R.
Proof.
  revert a. induction m as [|m IH]; intros a.
  - cbn. lra.
  - cbn [replicate foldl]. rewrite IH, S_INR. lra.
Qed.

(** A full window of a constant series averages to the constant. *)
Lemma dot_constant_window (v : R) (m : nat) :
  (1 <= m)%nat ->
  dot 0%R Rplus Rmult (replicate m v) (replicate m (1 / INR m)%R) = v.
Proof.
  intros Hm. unfold dot. rewrite zip_with_replicate, foldl_Rplus_replicate.
  assert (INR m <> 0)%R by (apply not_0_INR; lia).
  field. assumption.
Qed.

Lemma convolve_constant (v : R) (len m : nat) :
  (1 <= m)%nat -> (m <= len)%nat ->
  convolve 0%R Rplus Rmult (replicate len v) (replicate m (1 / INR m)%R)
  = Ok (replicate (len - m + 1) v).
Proof.
  intros Hm Hlen.
  rewrite convolve_fits by (rewrite !length_replicate; lia).
  rewrite !length_replicate. f_equal.
  rewrite <- (tabulate_const (len - m + 1) (fun _ => v) v) by reflexivity.
  apply tabulate_ext. intros k Hk.
  rewrite drop_replicate, take_replicate, rev_replicate.
  replace (Nat.min m (len - k)) with m by lia.
  by apply dot_constant_window.
Qed.

Lemma uniform_window (w : Z) :
  1 <= w ->
  mean_window w None
  = Ok (replicate (Z.to_nat w) (1 / INR (Z.to_nat w))%R).
Proof.
  intros Hw. unfold mean_window, ones.
  destruct (Z.ltb_spec w 0); [lia|]. cbn [bind]. f_equal.
  change (map ?f ?l) with (f <$> l). rewrite fmap_replicate.
  rewrite INR_IZR_INZ, Z2Nat.id by lia. reflexivity.
Qed.

Lemma omap_replicate {A B : Type} (f : A -> option B) (x : A) (y : B) (k : nat) :
  f x = Some y -> omap f (replicate k x) = replicate k y.
Proof.
  intros Hf. induction k as [|k IH]; [reflexivity|].
  cbn [replicate omap list_omap]. rewrite Hf. f_equal. exact IH.
Qed.

Lemma transpose_replicate {A : Type} (v : A) (k n : nat) :
  transpose n (replicate k (replicate n v)) = replicate n (replicate k v).
Proof.
  unfold transpose.
  rewrite <- (tabulate_const n (fun _ => replicate k v) (replicate k v)) by reflexivity.
  apply tabulate_ext. intros j Hj.
  apply omap_replicate. by apply lookup_replicate_2.
Qed.

(** The loop over the rows of a constant series writes the constant row
    everywhere, whatever the output array held. *)
Lemma loop_constant_rows (v : R) (cnt len : nat) (window : list R) (n' : nat) :
  convolve 0%R Rplus Rmult (replicate len v) window = Ok (replicate n' v) ->
  forall m i0 (s : list (list R)),
    (i0 + m = cnt)%nat -> length s = cnt ->
    for_each (seq i0 m)
      (fun i rolling_arr =>
         let* row := getrow (replicate cnt (replicate len v)) i in
         let* c := convolve 0%R Rplus Rmult row window in
         setitem_row rolling_arr i c)
      (Arr2 n' s)
    = Ok (Arr2 n' (take i0 s ++ replicate m (replicate n' v))).
Proof.
  intros Hconv. induction m as [|m IH]; intros i0 s Hi Hs.
  - cbn [seq for_each replicate]. rewrite app_nil_r, take_ge by lia. reflexivity.
  - cbn [seq for_each].
    rewrite (getrow_lookup _ _ (replicate len v)) by (apply lookup_replicate_2; lia).
    cbn [bind]. rewrite Hconv. cbn [bind setitem_row].
    destruct (Nat.ltb_spec i0 (length s)); [|lia].
    rewrite length_replicate, Nat.eqb_refl. cbn [bind].
    rewrite IH; [|lia|by rewrite length_insert].
    rewrite (take_S_r _ _ (replicate n' v)) by (apply list_lookup_insert_eq; lia).
    rewrite take_insert_ge by lia.
    rewrite <- app_assoc. reflexivity.
Qed.

(** On a rank-two constant series the rolling arithmetic mean along the
    last axis is the constant, on the shortened axis. *)
Lemma rolling_constant_last_axis (fill v : R) (k n : nat) (w axis : Z) :
  1 <= w -> w <= Z.of_nat n -> axis = 1 \/ axis = -1 ->
  rolling_arithmetic_mean fill (Arr2 n (replicate k (replicate n v))) w axis None
  = Ok (Arr2 (n - Z.to_nat w + 1)
             (replicate k (replicate (n - Z.to_nat w + 1) v))).
Proof.
  intros Hw Hn Haxis. unfold rolling_arithmetic_mean.
  assert (Hswap : forall (B : Type) m (rows : list (list B)),
             swapaxes_last (Arr2 m rows) axis = Ok (Arr2 m rows)).
  { intros B m rows. cbn [swapaxes_last]. destruct Haxis as [-> | ->]; reflexivity. }
  rewrite Hswap. cbn [bind last_dim]. unfold empty.
  destruct (Z.ltb_spec (Z.of_nat n - w + 1) 0); [lia|]. cbn [bind].
  rewrite uniform_window by lia. cbn [bind].
  unfold reshape_rows. cbn [last_dim].
  destruct (Nat.eqb_spec n 0); [lia|]. cbn [bind].
  rewrite !length_replicate.
  replace (Z.to_nat (Z.of_nat n - w + 1)) with (n - Z.to_nat w + 1)%nat by lia.
  erewrite (loop_constant_rows v k n); [| |lia|by rewrite length_replicate].
  2:{ apply convolve_constant; lia. }
  cbn [bind]. rewrite take_0, app_nil_l. apply Hswap.
Qed.

(** Along the first axis likewise: the series is transposed, averaged row
    by row and transposed back. *)
Lemma rolling_constant_first_axis (fill v : R) (k n : nat) (w axis : Z) :
  1 <= w -> w <= Z.of_nat k -> axis = 0 \/ axis = -2 ->
  rolling_arithmetic_mean fill (Arr2 n (replicate k (replicate n v))) w axis None
  = Ok (Arr2 n (replicate (k - Z.to_nat w + 1) (replicate n v))).
Proof.
  intros Hw Hk Haxis. unfold rolling_arithmetic_mean.
  assert (Hswap : forall (B : Type) m (rows : list (list B)),
             swapaxes_last (Arr2 m rows) axis
             = Ok (Arr2 (length rows) (transpose m rows))).
  { intros B m rows. cbn [swapaxes_last]. destruct Haxis as [-> | ->]; reflexivity. }
  rewrite Hswap, length_replicate, transpose_replicate.
  cbn [bind last_dim]. unfold empty.
  destruct (Z.ltb_spec (Z.of_nat k - w + 1) 0); [lia|]. cbn [bind].
  rewrite uniform_window by lia. cbn [bind].
  unfold reshape_rows. cbn [last_dim].
  destruct (Nat.eqb_spec k 0); [lia|]. cbn [bind].
  rewrite !length_replicate.
  replace (Z.to_nat (Z.of_nat k - w + 1)) with (k - Z.to_nat w + 1)%nat by lia.
  erewrite (loop_constant_rows v n k); [| |lia|by rewrite length_replicate].
  2:{ apply convolve_constant; lia. }
  cbn [bind]. rewrite take_0, app_nil_l.
  rewrite Hswap, length_replicate, transpose_replicate. reflexivity.
Qed.

End RollingFacts.

Section RollingTheorems.
Import Py Graph.

(** C10. On every one-dimensional series that is at least one longer
    than the window (window of at least one element), [rolling_mean] of
    the arithmetic kind raises instead of returning the shortened
    series. *)
Theorem rolling_mean_rank_one_raises (fill : R) (data : list R) (w : Z) :
  1 <= w -> w + 1 <= Z.of_nat (length data) ->
  rolling_mean fill (Arr1 data) w 0 None "arithmetic"
  = Raise (ValueError "setting an array element with a sequence.").
Proof.
  intros Hw Hlen. unfold rolling_mean. cbn [String.eqb Ascii.eqb Bool.eqb].
  rewrite rolling_arithmetic_rank_one by done. reflexivity.
Qed.

Lemma rolling_mean_rank_one_raises_witness :
  rolling_mean 0%R (Arr1 [1; 2; 3]%R) 2 0 None "arithmetic"
  = Raise (ValueError "setting an array element with a sequence.").
Proof. apply rolling_mean_rank_one_raises; cbn; lia. Defined.

(** C9 at a failing input: the constant series [v, v, v] with window 2
    along axis 0 does not come back as [v, v]; the call raises. *)
Theorem rolling_constant_rank_one_raises (fill v : R) :
  rolling_arithmetic_mean fill (Arr1 [v; v; v]) 2 0 None
  = Raise (ValueError "setting an array element with a sequence.").
Proof. apply rolling_arithmetic_rank_one; cbn; lia. Qed.


(** C5 (as the code has it). On a series whose entries are all at least
    one, the rolling geometric mean is [exp] of the rolling arithmetic
    mean of the logarithms: the same array entry for entry, and the same
    exception where the window does not fit.  (Below one the code
    replaces the logarithm by -1000.) *)
Theorem geometric_mean_is_exp_mean_log
    (fill_g : option R) (fill_a : R) (arr : ndarray R) (w axis : Z) :
  all_entries (fun x => 1 <= x)%R arr ->
  rolling_geometric_mean fill_g arr w axis None
  = res_map (nd_map exp_entry)
      (rolling_arithmetic_mean fill_a (nd_map ln arr) w axis None).
Proof.
  intros Hall. unfold rolling_geometric_mean, rolling_arithmetic_mean.
  rewrite swapaxes_last_map.
  destruct (swapaxes_last arr axis) as [arr'|e] eqn:Hswap; [|reflexivity].
  apply (swapaxes_last_all _ _ _ _ Hall) in Hswap. clear Hall arr.
  cbn [res_map bind]. rewrite last_dim_map. unfold empty.
  destruct (Z.ltb_spec (Z.of_nat (last_dim arr') - w + 1) 0) as [|Hlast];
    [reflexivity|].
  cbn [bind]. unfold mean_window.
  destruct (ones 1%R w) as [o|e] eqn:Hones; [|reflexivity].
  apply ones_length in Hones as [Hw ->]. cbn [bind].
  unfold reshape_rows. rewrite last_dim_map.
  destruct (Nat.eqb_spec (last_dim arr') 0) as [|Hdim]; [reflexivity|].
  cbn [bind].
  set (window := map (fun x => (x / IZR w)%R) (replicate (Z.to_nat w) 1%R)).
  assert (Hwin : length window = Z.to_nat w).
  { subst window. by rewrite length_map, length_replicate. }
  destruct arr' as [data|n rows]; cbn [nd_map all_entries last_dim] in *.
  - (* rank one: a single pass of the loop *)
    cbn [length seq for_each map getrow lookup list_lookup bind].
    set (k := Z.to_nat (Z.of_nat (length data) - w + 1)).
    match goal with
    | |- bind (bind ?body _) _ = _ =>
        assert (Hbody : body = let* vals := geometric_row w window data in
                               setitem_row (Arr1 (replicate k fill_g)) 0 vals)
    end.
    { unfold geometric_row.
      destruct (convolve 0%R Rplus Rmult (map log_abs data) window);
        [|reflexivity]. cbn [bind].
      destruct (ones 1%nat w) as [o|]; [|reflexivity]. cbn [bind].
      destruct (convolve 0%nat Nat.add Nat.mul (map neg_count data) o);
        [|reflexivity]. cbn [bind].
      destruct (inv_window w); reflexivity. }
    rewrite Hbody, (geometric_row_ge_one w window data Hswap Hw Hwin).
    clear Hbody.
    destruct (convolve 0%R Rplus Rmult (map ln data) window) as [c|e] eqn:Hc;
      [|reflexivity].
    apply convolve_length in Hc. rewrite length_map, Hwin in Hc.
    cbn [res_map bind setitem_row]. rewrite !length_replicate.
    destruct (Nat.ltb_spec 0 k); [|reflexivity].
    destruct c as [|x [|y c]]; [reflexivity| |reflexivity].
    cbn [map bind]. cbn [length] in Hc.
    assert (k = 1%nat) as -> by lia.
    cbn [replicate]. change (<[0%nat := ?u]> [?v]) with [u].
    change (Arr1 [exp_entry x]) with (nd_map exp_entry (Arr1 [x])).
    apply swapaxes_last_map.
  - (* rank two: every row is written *)
    rewrite length_map.
    rewrite (loops_related rows w window _ Hswap Hw Hwin (length rows) 0
               _ (replicate (length rows)
                    (replicate (Z.to_nat (Z.of_nat n - w + 1)) fill_a)));
      [|lia|by rewrite length_replicate..|reflexivity].
    match goal with
    | |- context [res_map _ ?loop] => destruct loop as [ra|e]
    end; [|reflexivity].
    cbn [res_map bind]. apply swapaxes_last_map.
Qed.

Lemma geometric_mean_is_exp_mean_log_witness :
  rolling_geometric_mean (Some 0%R) (Arr2 2 [[1; 2]; [3; 4]]%R) 2 1 None
  = res_map (nd_map exp_entry)
      (rolling_arithmetic_mean 0%R (nd_map ln (Arr2 2 [[1; 2]; [3; 4]]%R)) 2 1 None).
Proof.
  apply geometric_mean_is_exp_mean_log. cbn.
  repeat constructor; lra.
Defined.

End RollingTheorems.

Section ReductionTheorems.
Import Py Data.

Context {V : Type}.
Variable zero : V.
Variable add : V -> V -> V.

Lemma norm_index_in_range (len : nat) (i : Z) :
  0 <= i < Z.of_nat len -> norm_index len i = Some (Z.to_nat i).
Proof.
  intros Hi. unfold norm_index.
  destruct (Z.leb_spec 0 i), (Z.ltb_spec i (Z.of_nat len)); try lia.
  reflexivity.
Qed.

(** Scatter-add entry by entry: each slot ends as its old content plus,
    in order, everything sent to it. *)
Lemma scatter_pairs_spec (pairs : list (Z * V)) :
  forall out : list V,
    Forall (fun p => 0 <= p.1 < Z.of_nat (length out)) pairs ->
    exists out',
      scatter_pairs add out pairs = Ok out' /\
      length out' = length out /\
      forall (c : nat) (x : V), out !! c = Some x ->
        out' !! c
        = Some (foldl add x
                  (map snd (List.filter (fun p => p.1 =? Z.of_nat c) pairs))).
Proof.
  induction pairs as [|[i v] pairs IH]; intros out Hin.
  - exists out. repeat split. intros c x Hc. exact Hc.
  - inversion Hin as [|? ? Hi Hrest]; subst. cbn [fst] in Hi.
    cbn [scatter_pairs]. rewrite norm_index_in_range by exact Hi.
    destruct (IH (alter (fun x => add x v) (Z.to_nat i) out))
      as (out' & Hrun & Hlen & Hget).
    { rewrite length_alter. exact Hrest. }
    exists out'. split; [exact Hrun|]. split; [by rewrite Hlen, length_alter|].
    intros c x Hc. cbn [List.filter fst].
    destruct (Z.eqb_spec i (Z.of_nat c)) as [->|Hne].
    + cbn [map snd foldl]. apply Hget.
      rewrite Nat2Z.id, list_lookup_alter_eq, Hc. reflexivity.
    + apply Hget. rewrite list_lookup_alter_ne by lia. exact Hc.
Qed.

Lemma zip_in_range (n : nat) (ids : list Z) (vals : list V) :
  Forall (fun i => 0 <= i < Z.of_nat n) ids ->
  Forall (fun p => 0 <= p.1 < Z.of_nat n) (zip ids vals).
Proof.
  intros Hids. revert vals.
  induction Hids as [|i ids Hi _ IH]; intros [|v vals]; cbn; constructor; auto.
Qed.

Lemma scatter_add_zeros (n : nat) (ids : list Z) (vals : list V) :
  Forall (fun i => 0 <= i < Z.of_nat n) ids ->
  length vals = length ids ->
  exists out,
    scatter_add add (replicate n zero) ids vals = Ok out /\
    length out = n /\
    forall c, (c < n)%nat ->
      out !! c = Some (group_sum zero add (Z.of_nat c) ids vals).
Proof.
  intros Hids Hlen. unfold scatter_add. rewrite Hlen, Nat.eqb_refl. cbn [bind].
  destruct (scatter_pairs_spec (zip ids vals) (replicate n zero))
    as (out & Hrun & Hlen' & Hget).
  { rewrite length_replicate. by apply zip_in_range. }
  exists out. split; [exact Hrun|]. split; [by rewrite Hlen', length_replicate|].
  intros c Hc. apply Hget. by apply lookup_replicate_2.
Qed.

(** C7 (as the code has it). The result has one entry per adm1 index;
    each is the sum of the array entries paired with that index, zero
    when there is none.  Without a mask entry [j] of the array is paired
    with the adm1 index of adm2 region [j]; with a mask the array is not
    masked by the call: its entry [j] is paired with the [j]-th selected
    adm1 index, so the caller passes the already restricted array. *)
Theorem sum_adm1_is_group_sum (m : AdminLevelMapping) (adm2_arr : list V)
    (mk : option mask) (cache : bool) (ids : list Z) :
  selected_ids m mk = Ok ids ->
  Forall (fun i => 0 <= i < Z.of_nat (n_adm1 m)) ids ->
  length adm2_arr = length ids ->
  exists out,
    sum_adm1 zero add m adm2_arr mk cache = Ok out /\
    length out = n_adm1 m /\
    (forall c, (c < n_adm1 m)%nat ->
       out !! c = Some (group_sum zero add (Z.of_nat c) ids adm2_arr)) /\
    (mk = None ->
       graph_sum_adm1 zero add (adm1_ids m) (Z.of_nat (n_adm1 m) - 1) adm2_arr
       = Ok out).
Proof.
  intros Hsel Hids Hlen.
  destruct (scatter_add_zeros (n_adm1 m) ids adm2_arr Hids Hlen)
    as (out & Hrun & Hlen' & Hget).
  exists out. unfold sum_adm1. fold (selected_ids m mk). rewrite Hsel.
  cbn [bind]. unfold cached_scatter_add.
  split; [by destruct cache|]. split; [exact Hlen'|]. split; [exact Hget|].
  intros ->. cbn in Hsel. injection Hsel as <-.
  unfold graph_sum_adm1.
  destruct (Z.ltb_spec (Z.of_nat (n_adm1 m) - 1 + 1) 0); [lia|].
  replace (Z.to_nat (Z.of_nat (n_adm1 m) - 1 + 1)) with (n_adm1 m) by lia.
  exact Hrun.
Qed.

End ReductionTheorems.

(** * Further properties *)

Section MoreLayout.
Import Py State.

(** X1. The combined groups of the layout.  For non-negative shape
    parameters the layout is built, its keys come in the order S, R, D,
    incH, incC, I, Ic, Ia, E, Rh, N, Itot, H, the I, Ic and Ia groups are
    consecutive slices of [I_gamma_k] bins starting at bin 5, Itot holds
    exactly the bins of I, Ic and Ia, and H holds the bins of Ic followed
    by the bins of Rh. *)
Theorem composite_groups (c : consts) :
  0 <= E_gamma_k c -> 0 <= I_gamma_k c -> 0 <= Rh_gamma_k c ->
  exists ind,
    build_indices c = Some ind /\
    dict_get "I" ind = Some (Slice 5 (5 + I_gamma_k c)) /\
    dict_get "Ic" ind = Some (Slice (5 + I_gamma_k c) (5 + 2 * I_gamma_k c)) /\
    dict_get "Ia" ind = Some (Slice (5 + 2 * I_gamma_k c) (5 + 3 * I_gamma_k c)) /\
    dict_get "Rh" ind
      = Some (Slice (5 + 3 * I_gamma_k c + E_gamma_k c) (n_compartments_of c)) /\
    dict_get "Itot" ind = Some (IdxArr (arange 5 (5 + 3 * I_gamma_k c))) /\
    dict_get "H" ind
      = Some (IdxArr (arange (5 + I_gamma_k c) (5 + 2 * I_gamma_k c)
                      ++ arange (5 + 3 * I_gamma_k c + E_gamma_k c)
                                (n_compartments_of c))) /\
    map fst ind = ["S"; "R"; "D"; "incH"; "incC"; "I"; "Ic"; "Ia"; "E"; "Rh";
                   "N"; "Itot"; "H"].
Proof.
  destruct c as [e i r]; cbn [E_gamma_k I_gamma_k Rh_gamma_k]; intros He Hi Hr.
  eexists. split; [reflexivity|].
  cbn.
  repeat split; try (do 2 f_equal; lia).
  - do 2 f_equal. rewrite app_nil_r. repeat rewrite arange_app by lia.
    f_equal; lia.
  - do 2 f_equal. rewrite app_nil_r. f_equal; f_equal; lia.
Qed.
End MoreLayout.

Section NamedAccess.
Import Py State.
Context {A : Type}.

Lemma slice_bound_in_range (len : nat) (i : Z) :
  0 <= i <= Z.of_nat len -> slice_bound len i = i.
Proof. intros Hi. unfold slice_bound. destruct (Z.ltb_spec i 0); lia. Qed.

Lemma positions_slice (len : nat) (a b : Z) :
  0 <= a -> a <= b -> b <= Z.of_nat len ->
  positions len (Slice a b) = Some (map Z.to_nat (arange a b)).
Proof.
  intros Ha Hab Hb. cbn [positions].
  rewrite !slice_bound_in_range by lia. reflexivity.
Qed.

(** Writing one value at a list of positions. *)
Lemma lookup_foldl_insert (m : list (list A)) (ps : list nat) :
  forall (arr : list (list (list A))) (p : nat),
    foldl (fun arr p => <[p := m]> arr) arr ps !! p
    = if bool_decide (p ∈ ps) && bool_decide (p < length arr)%nat
      then Some m else arr !! p.
Proof.
  induction ps as [|q ps IH]; intros arr p; cbn [foldl].
  - rewrite bool_decide_eq_false_2 by apply not_elem_of_nil. reflexivity.
  - rewrite IH, length_insert.
    destruct (decide (p < length arr)%nat) as [Hlt|Hge].
    + rewrite !(bool_decide_eq_true_2 (p < length arr)%nat) by done.
      rewrite !andb_true_r.
      destruct (decide (p ∈ ps)) as [Hin|Hnin].
      * rewrite !bool_decide_eq_true_2; [done| |done]. by right.
      * rewrite (bool_decide_eq_false_2 (p ∈ ps)) by done.
        destruct (decide (p = q)) as [->|Hne].
        -- rewrite bool_decide_eq_true_2 by left.
           by apply list_lookup_insert_eq.
        -- rewrite bool_decide_eq_false_2.
           ++ by apply list_lookup_insert_ne.
           ++ intros Hin. apply elem_of_cons in Hin as [?|?]; done.
    + rewrite !(bool_decide_eq_false_2 (p < length arr)%nat) by done.
      rewrite !andb_false_r.
      destruct (decide (q = p)) as [->|Hne].
      * rewrite list_insert_ge by lia. reflexivity.
      * by rewrite list_lookup_insert_ne.
Qed.

Lemma length_foldl_insert (m : list (list A)) (ps : list nat) :
  forall arr : list (list (list A)),
    length (foldl (fun arr p => <[p := m]> arr) arr ps) = length arr.
Proof.
  induction ps as [|q ps IH]; intros arr; cbn [foldl]; [done|].
  by rewrite IH, length_insert.
Qed.

Lemma elem_of_positions (a b : Z) (p : nat) :
  0 <= a -> p ∈ map Z.to_nat (arange a b) <-> a <= Z.of_nat p < b.
Proof.
  intros Ha. rewrite list_elem_of_In, in_map_iff. split.
  - intros (z & <- & Hz). apply arange_bounds in Hz. lia.
  - intros Hp. exists (Z.of_nat p). split; [lia|].
    unfold arange. apply list_elem_of_In, elem_of_seqZ. lia.
Qed.

(** Reading a slice back: every selected bin holds [m]. *)
Lemma getitem_slice_written (arr : list (list (list A))) (a b : Z) (m : list (list A)) :
  0 <= a -> a <= b -> b <= Z.of_nat (length arr) ->
  getitem (foldl (fun arr p => <[p := m]> arr) arr (map Z.to_nat (arange a b)))
          (Slice a b)
  = Some (replicate (Z.to_nat (b - a)) m).
Proof.
  intros Ha Hab Hb. unfold getitem.
  rewrite length_foldl_insert, positions_slice by lia. cbn [mbind option_bind].
  rewrite (mapM_total _ (fun _ => m)).
  - f_equal. unfold arange. rewrite map_map.
    assert (Hconst : forall l : list Z,
               map (fun _ => m) l = replicate (length l) m).
    { induction l as [|z l IH]; [reflexivity|]. cbn. by rewrite IH. }
    rewrite Hconst, length_seqZ. reflexivity.
  - apply Forall_forall. intros p Hp. apply list_elem_of_In in Hp.
    rewrite lookup_foldl_insert.
    rewrite bool_decide_eq_true_2 by done.
    apply elem_of_positions in Hp; [|done].
    rewrite bool_decide_eq_true_2 by lia. reflexivity.
Qed.

(** Reading a disjoint slice: nothing changed. *)
Lemma getitem_slice_other (arr : list (list (list A))) (a b c d : Z) (m : list (list A)) :
  0 <= a -> 0 <= c -> 0 <= d -> d <= a \/ b <= c ->
  getitem (foldl (fun arr p => <[p := m]> arr) arr (map Z.to_nat (arange a b)))
          (Slice c d)
  = getitem arr (Slice c d).
Proof.
  intros Ha Hc Hd Hdisj. unfold getitem. rewrite length_foldl_insert.
  destruct (positions (length arr) (Slice c d)) as [ps|] eqn:Hps; [|reflexivity].
  cbn [mbind option_bind].
  assert (Hin : forall p, p ∈ ps -> c <= Z.of_nat p < d).
  { cbn [positions] in Hps. injection Hps as <-. intros p Hp.
    apply list_elem_of_In, in_map_iff in Hp as (z & <- & Hz).
    apply arange_bounds in Hz. unfold slice_bound in Hz.
    destruct (Z.ltb_spec c 0), (Z.ltb_spec d 0); lia. }
  clear Hps. induction ps as [|p ps IH]; [reflexivity|].
  cbn. rewrite lookup_foldl_insert.
  rewrite (bool_decide_eq_false_2 (p ∈ _)).
  - cbn [andb]. destruct (arr !! p); [|reflexivity]. cbn.
    rewrite IH; [reflexivity|]. intros q Hq. apply Hin. by right.
  - intros Hp. apply elem_of_positions in Hp; [|done].
    specialize (Hin p ltac:(left)). lia.
Qed.

(** X2. Writing a compartment and reading it back.  For a name that the
    layout maps to a non-empty slice inside the array, assigning a value
    that broadcasts to the (ages, nodes) shape succeeds; reading the name
    afterwards gives the broadcast value in every bin of the slice
    (squeezed when the slice has one bin); the array keeps its length;
    and every name whose slice is disjoint from the written one reads
    as before. *)
Theorem setattr_getattr_round_trip (s : buckyState A) (name : string)
    (a b : Z) (x : rhs A) (m : list (list A)) :
  dict_get name (indices s) = Some (Slice a b) ->
  0 <= a -> a < b -> b <= Z.of_nat (length (state s)) ->
  broadcast (n_age_grps s) (n_nodes s) x = Some m ->
  exists s',
    setattr s name x = Some s' /\
    getattr s' name
      = Some (if b - a =? 1 then Squeezed m
              else Stacked (replicate (Z.to_nat (b - a)) m)) /\
    length (state s') = length (state s) /\
    forall name' c d,
      dict_get name' (indices s) = Some (Slice c d) ->
      0 <= c -> c <= d -> d <= a \/ b <= c ->
      getattr s' name' = getattr s name'.
Proof.
  intros Hname Ha Hab Hb Hm. destruct s as [cs ind n ages nodes arr].
  cbn [indices state n_age_grps n_nodes] in *.
  unfold setattr, setitem. cbn [indices state n_age_grps n_nodes st_consts n_compartments].
  rewrite Hname. cbn [mbind option_bind].
  rewrite positions_slice by lia. cbn [mbind option_bind]. rewrite Hm.
  cbn [mbind option_bind]. eexists. split; [reflexivity|].
  unfold getattr. cbn [indices state]. rewrite Hname. cbn [mbind option_bind].
  split; [|split].
  - rewrite getitem_slice_written by lia. cbn [mbind option_bind].
    destruct (Z.eqb_spec (b - a) 1) as [H1|H1].
    + rewrite H1. reflexivity.
    + destruct (Z.to_nat (b - a)) as [|[|k]] eqn:Hk; [lia|lia|]. reflexivity.
  - apply length_foldl_insert.
  - intros name' c d Hname' Hc Hcd Hdisj. rewrite Hname'. cbn [mbind option_bind].
    rewrite getitem_slice_other by lia. reflexivity.
Qed.

End NamedAccess.

Section FreshStates.
Import Py State.

Lemma map_const_replicate {A B : Type} (y : B) (l : list A) :
  map (fun _ => y) l = replicate (length l) y.
Proof. induction l as [|x l IH]; [reflexivity|]. cbn. by rewrite IH. Qed.

Lemma map_replicate_ext {A B : Type} (f : A -> B) (y : B) (l : list A) :
  Forall (fun x => f x = y) l -> map f l = replicate (length l) y.
Proof. induction 1 as [|x l Hx _ IH]; [reflexivity|]. cbn. by rewrite Hx, IH. Qed.

(** X3. [zeros_like] of a state built from an array of the layout's shape
    is the state [__init__] builds when no array is given: same layout,
    all entries zero. *)
Theorem zeros_like_is_fresh_state {A : Type} (zero : A) (c : consts)
    (ages nodes : nat) (arr : list (matrix A)) (s : buckyState A) :
  has_shape (n_compartments_of c) ages nodes arr ->
  init zero c (ages, nodes) (Some arr) = Some s ->
  init zero c (ages, nodes) None = Some (zeros_like zero s).
Proof.
  intros [Hlen Hshape]. unfold init.
  destruct (build_indices c) as [ind|]; [|discriminate].
  cbn [mbind option_bind]. intros [= <-]. unfold zeros_like.
  cbn [st_consts indices n_compartments n_age_grps n_nodes state]. do 2 f_equal.
  rewrite <- Hlen, Nat2Z.id. symmetry. apply map_replicate_ext.
  eapply Forall_impl; [|exact Hshape]. intros m [Hm Hrows]. cbn beta.
  unfold full. rewrite <- Hm. apply map_replicate_ext.
  eapply Forall_impl; [|exact Hrows]. intros row Hrow. cbn beta in *.
  rewrite <- Hrow. apply map_const_replicate.
Qed.

Lemma setattr_keeps_layout {A : Type} (s s' : buckyState A) name x :
  setattr s name x = Some s' ->
  st_consts s' = st_consts s /\ indices s' = indices s /\
  n_compartments s' = n_compartments s /\
  n_age_grps s' = n_age_grps s /\ n_nodes s' = n_nodes s /\
  length (state s') = length (state s).
Proof.
  unfold setattr, setitem.
  destruct (dict_get name (indices s)) as [v|]; [|discriminate].
  cbn [mbind option_bind].
  destruct (positions (length (state s)) v) as [ps|]; [|discriminate].
  cbn [mbind option_bind].
  destruct (broadcast _ _ x) as [m|]; [|discriminate].
  cbn [mbind option_bind]. intros [= <-]. cbn.
  repeat split. apply length_foldl_insert.
Qed.

Lemma init_S_keeps_layout {A : Type} `{Arith A} (s s' : buckyState A) :
  init_S s = Some s' ->
  st_consts s' = st_consts s /\ indices s' = indices s /\
  n_compartments s' = n_compartments s /\
  n_age_grps s' = n_age_grps s /\ n_nodes s' = n_nodes s /\
  length (state s') = length (state s).
Proof.
  unfold init_S.
  destruct (setattr s "S" (RScalar ar_zero)) as [s1|] eqn:H1; [|discriminate].
  cbn [mbind option_bind].
  destruct (getattr s1 "N") as [n|]; [|discriminate]. cbn [mbind option_bind].
  intros H2. apply setattr_keeps_layout in H1, H2.
  destruct H1 as (? & ? & ? & ? & ? & ?), H2 as (? & ? & ? & ? & ? & ?).
  repeat split; congruence.
Qed.

(** [init_S] does not look at what S held. *)
Lemma init_S_ignores_S {A : Type} `{Arith A} (s s' : buckyState A) :
  st_consts s' = st_consts s -> indices s' = indices s ->
  n_compartments s' = n_compartments s ->
  n_age_grps s' = n_age_grps s -> n_nodes s' = n_nodes s ->
  length (state s') = length (state s) ->
  dict_get "S" (indices s) = Some (Slice 0 1) ->
  (1 <= length (state s))%nat ->
  (forall p, p <> 0%nat -> state s' !! p = state s !! p) ->
  init_S s' = init_S s.
Proof.
  destruct s as [c ind n ages nodes arr], s' as [c' ind' n' ages' nodes' arr'].
  cbn [st_consts indices n_compartments n_age_grps n_nodes state].
  intros -> -> -> -> -> Hlen HS Hpos Hsame.
  unfold init_S.
  rewrite !(setattr_first_bin _ _ _ _ _ _ _ (full ages nodes ar_zero));
    try done; try lia.
  replace (<[0%nat := full ages nodes ar_zero]> arr')
    with (<[0%nat := full ages nodes ar_zero]> arr); [reflexivity|].
  apply list_eq. intros p. destruct (decide (p = 0%nat)) as [->|Hp].
  - rewrite !list_lookup_insert_eq by lia. reflexivity.
  - rewrite !list_lookup_insert_ne by done. symmetry. by apply Hsame.
Qed.

(** X5. [init_S] is idempotent, in exact arithmetic as in floating point:
    on a state of the standard layout a second call returns the state
    the first call left. *)
Theorem init_S_idempotent {A : Type} `{Arith A} (c : consts) (ages nodes : nat)
    (arr : list (matrix A)) (s s1 : buckyState A) :
  0 < E_gamma_k c -> 0 < I_gamma_k c -> 0 < Rh_gamma_k c ->
  Z.of_nat (length arr) = n_compartments_of c ->
  init ar_zero c (ages, nodes) (Some arr) = Some s ->
  init_S s = Some s1 ->
  init_S s1 = Some s1.
Proof.
  intros He Hi Hr Hlen Hinit Hs1.
  destruct (build_indices_groups c He Hi Hr) as (ind & Hind & HS & HN).
  unfold init in Hinit. rewrite Hind in Hinit. cbn [mbind option_bind] in Hinit.
  injection Hinit as <-.
  set (s := BuckyState c ind (n_compartments_of c) ages nodes arr) in *.
  assert (H8 : 8 <= n_compartments_of c).
  { destruct c as [e i r]; cbn in *. lia. }
  assert (Hrest : Forall (fun z => 1 <= z < Z.of_nat (length (state s)))
                         (1 :: 2 :: arange 5 (n_compartments_of c))).
  { subst s. cbn [state]. rewrite Hlen.
    repeat (constructor; [lia|]).
    apply Forall_forall. intros z Hz. apply arange_bounds in Hz. lia. }
  destruct (init_S_run s _ HS HN ltac:(done) Hrest)
    as (s' & tot & f & Hrun & _ & _ & _ & _ & Hst & _).
  rewrite Hs1 in Hrun. injection Hrun as <-.
  pose proof (init_S_keeps_layout _ _ Hs1) as (H1 & H2 & H3 & H4 & H5 & H6).
  rewrite <- Hs1. apply init_S_ignores_S; try done.
  - subst s. cbn [state] in *. lia.
  - intros p Hp. rewrite Hst. by rewrite list_lookup_insert_ne.
Qed.

End FreshStates.


Section InitThenValidate.
Import Py State FloatView.

Lemma init_S_first_bin (s : buckyState Q) (rest : list Z) :
  dict_get "S" (indices s) = Some (Slice 0 1) ->
  dict_get "N" (indices s) = Some (IdxArr (0 :: rest)) ->
  rest <> [] ->
  Forall (fun z => 1 <= z < Z.of_nat (length (state s))) rest ->
  exists s' f,
    init_S s = Some s' /\
    state s' = <[0%nat := tabulate (n_age_grps s)
                            (fun a => tabulate (n_nodes s) (f a))]> (state s).
Proof.
  intros HS HN Hne Hrest.
  destruct (init_S_run s rest HS HN Hne Hrest)
    as (s' & tot & f & Hrun & _ & _ & _ & _ & Hst & _).
  exists s', f. split; [exact Hrun|exact Hst].
Qed.

Lemma get2_fmap {A B : Type} (f : A -> B) (d : A) (m : list (list A)) a r :
  get2 (f d) (map (map f) m) a r = f (get2 d m a r).
Proof.
  unfold get2. change (map (map f) m) with (map f <$> m).
  rewrite list_lookup_fmap. destruct (m !! a) as [row|]; [|reflexivity].
  cbn. change (map f row) with (f <$> row). rewrite list_lookup_fmap.
  destruct (row !! r); reflexivity.
Qed.

Lemma fsum_finite (l : list Q) (a : Q) :
  foldl fadd (FNum a) (map FNum l) = FNum (foldl Qplus a l).
Proof. revert a. induction l as [|x l IH]; intros a; [reflexivity|]. cbn. apply IH. Qed.

Lemma sum_bins_finite (ages nodes : nat) (bins : list (matrix Q)) :
  sum_bins (FNum 0) fadd ages nodes (map (map (map FNum)) bins)
  = map (map FNum) (sum_bins 0%Q Qplus ages nodes bins).
Proof.
  unfold sum_bins. rewrite map_map_tabulate.
  apply tabulate_ext. intros a _. apply tabulate_ext. intros r _.
  unfold sum_list. rewrite map_map.
  rewrite <- fsum_finite, map_map. f_equal.
  apply map_ext. intros m. apply (get2_fmap FNum).
Qed.

Lemma mapM_fmap_lookup {A B : Type} (f : A -> B) (arr : list A) (ps : list nat) :
  mapM (fun p => (map f arr) !! p) ps = map f <$> mapM (fun p => arr !! p) ps.
Proof.
  induction ps as [|p ps IH]; [reflexivity|]. cbn.
  change (map f arr) with (f <$> arr). rewrite list_lookup_fmap.
  destruct (arr !! p); [|reflexivity]. cbn.
  change (f <$> arr) with (map f arr). rewrite IH.
  destruct (mapM (fun p => arr !! p) ps); reflexivity.
Qed.

Lemma getitem_fmap {A B : Type} (f : list (list A) -> list (list B))
    (arr : list (matrix A)) (v : index) :
  getitem (map f arr) v = map f <$> getitem arr v.
Proof.
  unfold getitem. rewrite length_map.
  destruct (positions (length arr) v) as [ps|]; [|reflexivity].
  cbn [mbind option_bind]. apply mapM_fmap_lookup.
Qed.

(** The conserved sums of the float view are those of the exact state. *)
Lemma N_sums_as_floats (s : buckyState Q) (tot : matrix Q) :
  sum_N s = Some tot ->
  N_sums (as_floats s) = Some (map FNum (concat tot)).
Proof.
  unfold sum_N, N_sums, getattr, as_floats. cbn [indices state n_age_grps n_nodes].
  destruct (dict_get "N" (indices s)) as [v|]; [|discriminate].
  cbn [mbind option_bind]. rewrite getitem_fmap.
  destruct (getitem (state s) v) as [out|]; [|discriminate].
  cbn [mbind option_bind fmap option_fmap option_map].
  destruct out as [|m [|m' out]]; cbn [map mbind option_bind]; try discriminate.
  - intros [= <-]. f_equal.
    rewrite (sum_bins_finite _ _ []).
    symmetry. apply concat_map.
  - intros [= <-]. f_equal.
    rewrite (sum_bins_finite _ _ (m :: m' :: out)).
    symmetry. apply concat_map.
Qed.

Lemma entries_as_floats (s : buckyState Q) :
  entries (as_floats s) = map FNum (concat (concat (state s))).
Proof.
  unfold entries, as_floats. cbn [state].
  rewrite <- (concat_map (map FNum)). rewrite <- (concat_map FNum). reflexivity.
Qed.

Lemma existsb_fmap {A B : Type} (f : A -> B) (p : B -> bool) (l : list A) :
  existsb p (map f l) = existsb (fun x => p (f x)) l.
Proof. induction l as [|x l IH]; [reflexivity|]. cbn. by rewrite IH. Qed.

Lemma in_concat_tabulate {A : Type} (n m : nat) (f : nat -> nat -> A) (x : A) :
  In x (concat (tabulate n (fun a => tabulate m (f a)))) ->
  exists a r, (a < n)%nat /\ (r < m)%nat /\ x = f a r.
Proof.
  intros Hx. apply in_concat in Hx as (row & Hrow & Hx).
  unfold tabulate in *.
  apply in_map_iff in Hrow as (a & <- & Ha). apply in_seq in Ha.
  apply in_map_iff in Hx as (r & <- & Hr). apply in_seq in Hr.
  exists a, r. repeat split; lia.
Qed.

(** A state of finite entries whose membership sums are all one passes the
    first two checks of [validate_state]; the third decides. *)
Lemma validate_balanced (s : buckyState Q) (tot : matrix Q) :
  sum_N s = Some tot ->
  Forall (fun q => q == 1)%Q (concat tot) ->
  (Forall (fun q => - (5 # 100000) <= q)%Q (concat (concat (state s))) ->
     validate_state (as_floats s) = ([], None)) /\
  (Exists (fun q => q < - (5 # 100000))%Q (concat (concat (state s))) ->
     validate_state (as_floats s)
     = ([msg_negative], Some StateValidationException)).
Proof.
  intros Htot Hone.
  assert (Hbal : existsb (fun x => negb (feq_one (around 2 x)))
                         (map FNum (concat tot)) = false).
  { rewrite existsb_fmap. apply existsb_false_Forall.
    eapply Forall_impl; [|exact Hone]. intros q Hq1. cbn beta in *.
    apply negb_false_iff, around2_is_one. rewrite Hq1.
    split; unfold Qle; cbn; lia. }
  assert (Hfin : existsb (fun x => negb (isfinite x)) (entries (as_floats s))
                 = false).
  { rewrite entries_as_floats, existsb_fmap.
    apply existsb_false_Forall, Forall_forall. reflexivity. }
  unfold validate_state. rewrite Hfin, (N_sums_as_floats _ _ Htot), Hbal.
  rewrite entries_as_floats, existsb_fmap.
  split; intros H.
  - replace (existsb _ _) with false; [reflexivity|].
    symmetry. apply existsb_false_Forall.
    eapply Forall_impl; [|exact H]. intros q Hq. cbn beta.
    apply negb_false_iff, around4_nonneg, Hq.
  - replace (existsb _ _) with true; [reflexivity|].
    symmetry. apply existsb_true_Exists.
    eapply Exists_impl; [|exact H]. intros q Hq. cbn beta.
    apply negb_true_iff. apply not_true_is_false. intros Hge.
    apply around4_nonneg in Hge. apply Qle_not_lt in Hge. contradiction.
Qed.

(** What [init_S] leaves behind on a state of the standard layout. *)
Lemma init_S_result (c : consts) (ages nodes : nat) (arr : list (matrix Q)) :
  0 < E_gamma_k c -> 0 < I_gamma_k c -> 0 < Rh_gamma_k c ->
  Z.of_nat (length arr) = n_compartments_of c ->
  exists ind s1 tot f,
    let s := BuckyState c ind (n_compartments_of c) ages nodes arr in
    build_indices c = Some ind /\
    init_S s = Some s1 /\
    sum_N s1 = Some tot /\
    Forall (fun q => q == 1)%Q (concat tot) /\
    state s1 = <[0%nat := tabulate ages (fun a => tabulate nodes (f a))]> arr /\
    forall a r, (a < ages)%nat -> (r < nodes)%nat ->
      (f a r == 1 - Qsum (map (fun z => get2 0 (default [] (arr !! Z.to_nat z)) a r)
                              (1 :: 2 :: arange 5 (n_compartments_of c))%Z))%Q.
Proof.
  intros He Hi Hr Hlen.
  destruct (build_indices_groups c He Hi Hr) as (ind & Hind & HS & HN).
  set (s := BuckyState c ind (n_compartments_of c) ages nodes arr) in *.
  assert (H8 : 8 <= n_compartments_of c).
  { destruct c as [e i r]; cbn in *. lia. }
  assert (Hrest : Forall (fun z => 1 <= z < Z.of_nat (length (state s)))
                         (1 :: 2 :: arange 5 (n_compartments_of c))).
  { subst s. cbn [state]. rewrite Hlen.
    repeat (constructor; [lia|]).
    apply Forall_forall. intros z Hz. apply arange_bounds in Hz. lia. }
  destruct (init_S_spec s _ HS HN ltac:(done) Hrest)
    as (s1 & tot & Hrun & Htot & _ & _ & Hone).
  destruct (init_S_first_bin s _ HS HN ltac:(done) Hrest)
    as (s1' & f & Hrun' & Hst).
  rewrite Hrun in Hrun'. injection Hrun' as <-.
  pose proof (init_S_keeps_layout _ _ Hrun) as (_ & _ & _ & Hages & Hnodes & _).
  cbn [n_age_grps n_nodes state s] in Hages, Hnodes, Hone, Hst.
  exists ind, s1, tot, f. cbn zeta. repeat split; try done.
  - apply Forall_forall. intros q Hq.
    unfold sum_N in Htot.
    destruct (getattr s1 "N") as [[m|bins]|]; try discriminate.
    cbn [mbind option_bind] in Htot. injection Htot as <-.
    rewrite Hages, Hnodes in *.
    apply in_concat_tabulate in Hq as (a & r & Ha & Hr' & ->).
    destruct (Hone a r Ha Hr') as [H1 _].
    unfold sum_bins in H1. rewrite get2_tabulate in H1 by done. exact H1.
  - intros a r Ha Hr'. destruct (Hone a r Ha Hr') as [_ H2].
    rewrite Hst in H2. rewrite list_lookup_insert_eq in H2 by lia.
    cbn [default from_option] in H2. unfold Datatypes.id in H2.
    rewrite get2_tabulate in H2 by done. exact H2.
Qed.

(** X4. A state built without an array and passed through [init_S] holds
    1 in S at every age group and region, zeros in every other bin, and
    passes [validate_state]. *)
Theorem fresh_state_is_all_susceptible (c : consts) (ages nodes : nat) :
  0 < E_gamma_k c -> 0 < I_gamma_k c -> 0 < Rh_gamma_k c ->
  exists s s1,
    init 0%Q c (ages, nodes) None = Some s /\
    init_S s = Some s1 /\
    (forall a r, (a < ages)%nat -> (r < nodes)%nat ->
       get2 0 (default [] (state s1 !! 0%nat)) a r == 1)%Q /\
    (forall p, p <> 0%nat -> (Z.of_nat p < n_compartments_of c) ->
       state s1 !! p = Some (full ages nodes 0%Q)) /\
    validate_state (as_floats s1) = ([], None).
Proof.
  intros He Hi Hr.
  assert (H8 : 8 <= n_compartments_of c).
  { destruct c as [e i r]; cbn in *. lia. }
  set (arr := replicate (Z.to_nat (n_compartments_of c)) (full ages nodes 0%Q)).
  assert (Hlen : Z.of_nat (length arr) = n_compartments_of c).
  { subst arr. rewrite length_replicate. lia. }
  destruct (init_S_result c ages nodes arr He Hi Hr Hlen)
    as (ind & s1 & tot & f & Hind & Hrun & Htot & Hone & Hst & Hf).
  cbn zeta in Hrun.
  assert (Hf1 : forall a r, (a < ages)%nat -> (r < nodes)%nat -> (f a r == 1)%Q).
  { intros a r Ha Hr'. rewrite (Hf a r Ha Hr').
    assert (Hz : forall l, Forall (fun z => 0 <= z < n_compartments_of c) l ->
      (Qsum (map (fun z => get2 0 (default [] (arr !! Z.to_nat z)) a r) l) == 0)%Q).
    { induction 1 as [|z l Hz _ IH]; [reflexivity|].
      cbn [map]. rewrite Qsum_cons, IH.
      subst arr. rewrite lookup_replicate_2 by lia.
      cbn [default from_option]. unfold Datatypes.id.
      rewrite get2_full by done. reflexivity. }
    rewrite Hz; [reflexivity|].
    repeat (constructor; [lia|]).
    apply Forall_forall. intros z Hz'. apply arange_bounds in Hz'. lia. }
  exists (BuckyState c ind (n_compartments_of c) ages nodes arr), s1.
  split; [unfold init; rewrite Hind; reflexivity|].
  split; [exact Hrun|].
  split; [|split].
  - intros a r Ha Hr'. rewrite Hst, list_lookup_insert_eq by lia.
    cbn [default from_option]. unfold Datatypes.id.
    rewrite get2_tabulate by done. by apply Hf1.
  - intros p Hp Hlt. rewrite Hst, list_lookup_insert_ne by done.
    subst arr. apply lookup_replicate_2. lia.
  - apply (validate_balanced s1 tot Htot Hone).
    rewrite Hst. apply Forall_concat, Forall_concat.
    apply Forall_insert.
    + subst arr. apply Forall_replicate. unfold full.
      apply Forall_replicate, Forall_replicate. unfold Qle; cbn; lia.
    + apply Forall_forall. intros row Hrow. apply Forall_forall. intros q Hq.
      assert (Hin : In q (concat (tabulate ages (fun a => tabulate nodes (f a))))).
      { apply in_concat. exists row. split; assumption. }
      apply in_concat_tabulate in Hin as (a & r & Ha & Hr' & ->).
      rewrite (Hf1 a r Ha Hr'). unfold Qle; cbn; lia.
Qed.
End InitThenValidate.


Section DictFacts.
Import Py.
Context {V : Type}.
Implicit Types (d : list (string * V)) (k : string).

Lemma dict_get_set_eq k (v : V) d : dict_get k (dict_set k v d) = Some v.
Proof.
  induction d as [|[k' v'] d IH]; cbn.
  - by rewrite String.eqb_refl.
  - destruct (String.eqb k' k) eqn:E; cbn; rewrite E; [reflexivity|exact IH].
Qed.

Lemma dict_get_set_ne k k' (v : V) d :
  k <> k' -> dict_get k (dict_set k' v d) = dict_get k d.
Proof.
  intros Hne. induction d as [|[k0 v0] d IH]; cbn.
  - destruct (String.eqb_spec k' k); [congruence|reflexivity].
  - destruct (String.eqb_spec k0 k') as [->|H0]; cbn.
    + destruct (String.eqb_spec k' k); [congruence|reflexivity].
    + destruct (String.eqb_spec k0 k); [reflexivity|exact IH].
Qed.

Lemma dict_get_del_ne k k' d :
  k <> k' -> dict_get k (dict_del k' d) = dict_get k d.
Proof.
  intros Hne. induction d as [|[k0 v0] d IH]; cbn; [reflexivity|].
  destruct (String.eqb_spec k0 k') as [->|H0]; cbn.
  - destruct (String.eqb_spec k' k); [congruence|reflexivity].
  - destruct (String.eqb_spec k0 k); [reflexivity|exact IH].
Qed.

Lemma dict_get_None k d : ~ In k (map fst d) -> dict_get k d = None.
Proof.
  induction d as [|[k0 v0] d IH]; cbn; [reflexivity|]. intros Hn.
  destruct (String.eqb_spec k0 k) as [->|H0]; [tauto|]. apply IH. tauto.
Qed.

Lemma dict_get_del_eq k d :
  List.NoDup (map fst d) -> dict_get k (dict_del k d) = None.
Proof.
  induction d as [|[k0 v0] d IH]; cbn; [reflexivity|]. intros Hnd.
  inversion Hnd as [|? ? Hnotin Hnd']; subst.
  destruct (String.eqb_spec k0 k) as [->|H0]; cbn.
  - by apply dict_get_None.
  - destruct (String.eqb_spec k0 k); [congruence|]. by apply IH.
Qed.
End DictFacts.

Section SamplerFacts.
Import Py Config ConfigLists.

Variable rng : Type.
Variable distributions xp_random : string -> option (sampler rng).
Variable xp_abs_mul : tree -> tree -> res tree.
Variable xp_mean_axis1 : pyval -> res pyval.
Variable interp_extrap : pyval -> pyval -> tree -> res tree.

(** X7. What a successful draw leaves in a mapping.  When
    [_sample_distribution] returns, the mapping held a [distribution]
    mapping naming a function that resolves (in [distributions] first,
    then in [xp.random]); the function was called with the distribution's
    entries without [func]; the result holds what it returned under
    [value], no [distribution] key, and every other key as before. *)
Theorem sample_distribution_result (d : list (string * tree)) (g g' : rng) (t : tree) :
  List.NoDup (map fst d) ->
  _sample_distribution rng distributions xp_random d g = Ok (t, g') ->
  exists d' dist name f v,
    t = Node d' /\
    dict_get "distribution" d = Some (Node dist) /\
    dict_get "func" dist = Some (Leaf (LStr name)) /\
    resolve rng distributions xp_random name = Some f /\
    f (dict_del "func" dist) g = Ok (v, g') /\
    dict_get "value" d' = Some v /\
    dict_get "distribution" d' = None /\
    forall k, k <> "distribution" -> k <> "value" ->
      dict_get k d' = dict_get k d.
Proof.
  intros Hnd. unfold _sample_distribution, pop.
  destruct (dict_get "distribution" d) as [[v0|dist]|] eqn:Hd; cbn [bind];
    try discriminate.
  destruct (dict_get "func" dist) as [[[name|?|?]|?]|] eqn:Hf; cbn [bind];
    try discriminate.
  assert (Hres : match distributions name with
                 | Some f => Ok f
                 | None => match xp_random name with
                           | Some f => Ok f
                           | None => Raise (ValueError ("Distribution " ++ name ++ " does not exist!")%string)
                           end
                 end = match resolve rng distributions xp_random name with
                       | Some f => Ok f
                       | None => Raise (ValueError ("Distribution " ++ name ++ " does not exist!")%string)
                       end).
  { unfold resolve. destruct (distributions name); reflexivity. }
  rewrite Hres. clear Hres.
  destruct (resolve rng distributions xp_random name) as [f|] eqn:Hr;
    cbn [bind]; [|discriminate].
  destruct (f (dict_del "func" dist) g) as [[v g1]|e] eqn:Hrun; cbn [bind];
    [|discriminate].
  intros [= <- <-].
  exists (dict_set "value" v (dict_del "distribution" d)), dist, name, f, v.
  repeat split; try done.
  - apply dict_get_set_eq.
  - rewrite dict_get_set_ne by discriminate. by apply dict_get_del_eq.
  - intros k H1 H2. rewrite dict_get_set_ne, dict_get_del_ne by done. reflexivity.
Qed.


(** A pass leaves a tree alone when one of the keys its filter asks for
    is nowhere in the tree. *)
Lemma walk_without_key {St : Type} (filter : list string)
    (func : tree -> list (string * tree) -> St -> res (tree * St))
    (k : string) (t : tree) :
  In k filter -> mentions k t = false ->
  forall top ctx s, walk filter func top ctx t s = Ok (t, s).
Proof.
  intros Hk. induction t as [v|kids IH] using tree_rect_kids;
    intros Hm top ctx s; [reflexivity|].
  cbn [mentions] in Hm. apply orb_false_iff in Hm as [Hmem Hsub].
  cbn [walk].
  match goal with
  | |- bind (?F [] kids s) _ = _ =>
      assert (Hitems : forall todo done s,
                Forall (fun kv => mentions k kv.2 = false ->
                          forall top ctx s,
                            walk filter func top ctx kv.2 s = Ok (kv.2, s)) todo ->
                existsb (fun kv => mentions k kv.2) todo = false ->
                F done todo s = Ok (done ++ todo, s))
  end.
  { clear. induction todo as [|[k0 v0] todo IHt]; intros done s HF Hex.
    - by rewrite app_nil_r.
    - inversion HF as [|? ? H0 HF']; subst. cbn in Hex.
      apply orb_false_iff in Hex as [Hv Hex].
      cbn in H0. rewrite (H0 Hv). cbn [bind].
      rewrite (IHt _ _ HF' Hex). by rewrite <- app_assoc. }
  rewrite (Hitems kids [] s IH Hsub). cbn [bind app].
  replace (matches filter kids) with false; [by rewrite andb_false_r|].
  symmetry. unfold matches. apply not_true_is_false. intros Hall.
  rewrite forallb_forall in Hall. specialize (Hall k Hk). congruence.
Qed.

Lemma mentions_to_arrays (k : string) (t : tree) :
  mentions k (_to_arrays t) = mentions k t.
Proof.
  induction t as [v|kids IH] using tree_rect_kids; [reflexivity|].
  cbn. f_equal.
  - unfold dict_mem. f_equal.
    clear IH. induction kids as [|[k0 v0] kids IHk]; [reflexivity|]. cbn.
    destruct (String.eqb k0 k); [reflexivity|]. 
    destruct (dict_get k kids), (dict_get k (map _ kids)); done.
  - induction IH as [|[k0 v0] kids H0 _ IHk]; [reflexivity|]. cbn in *.
    by rewrite H0, IHk.
Qed.

(** X8. A configuration in which no mapping has a [distribution] or a
    [value] key is sampled to its array-cast self, whatever the backend
    provides, and the random state is not touched. *)
Theorem sample_without_parameters (self : tree) (g : rng) :
  mentions "distribution" self = false ->
  mentions "value" self = false ->
  sample_distributions rng distributions xp_random
    xp_abs_mul xp_mean_axis1 interp_extrap self g
  = (_to_arrays self, Ok (_to_arrays self, g)).
Proof.
  intros Hd Hv. unfold sample_distributions. f_equal.
  rewrite <- (mentions_to_arrays "distribution") in Hd.
  rewrite <- (mentions_to_arrays "value") in Hv.
  set (t := _to_arrays self) in *.
  unfold _set_default_variances, interp_age_bins, promote_sampled_values,
    apply_pure, apply_filtered.
  rewrite (walk_without_key _ _ "distribution" t) by (cbn; tauto || done).
  cbn [bind].
  rewrite (walk_without_key _ _ "distribution" t) by (cbn; tauto || done).
  cbn [bind].
  rewrite (walk_without_key _ _ "value" t) by (cbn; tauto || done).
  cbn [bind].
  rewrite (walk_without_key _ _ "value" t) by (cbn; tauto || done).
  reflexivity.
Qed.

Lemma pyval_rect_items (P : pyval -> Prop)
    (Hnum : forall q, P (PNum q)) (Hstr : forall s, P (PStr s))
    (Hlist : forall items, Forall P items -> P (PList items)) :
  forall a, P a.
Proof.
  fix IH 1. intros [q|s|items]; [apply Hnum|apply Hstr|].
  apply Hlist. induction items as [|x items IHitems]; constructor.
  - apply IH.
  - exact IHitems.
Qed.

Lemma pyval_eqb_refl (a : pyval) : pyval_eqb a a = true.
Proof.
  induction a as [q|s|items IH] using pyval_rect_items; cbn.
  - apply Qeq_bool_refl.
  - apply String.eqb_refl.
  - induction IH as [|x items Hx _ IHitems]; [reflexivity|].
    by rewrite Hx, IHitems.
Qed.

(** X9. [_age_interp] returns [y] as it is when the two sets of age bins
    have the same content, without calling [xp.mean] or
    [interp_extrap]. *)
Theorem age_interp_same_bins (x_bins_new x_bins y : tree) (a : pyval) :
  as_array x_bins_new = Ok a -> as_array x_bins = Ok a ->
  _age_interp xp_mean_axis1 interp_extrap x_bins_new x_bins y = Ok y.
Proof.
  intros H1 H2. unfold _age_interp. rewrite H1, H2. cbn [bind].
  by rewrite pyval_eqb_refl.
Qed.


(** X11. [_set_reroll_var] returns the mapping as it is when the
    distribution's function is not truncnorm or the distribution gives
    its scale; [model.monte_carlo.reroll_variance] is not looked up, so
    its absence raises nothing. *)
Theorem set_reroll_var_keeps (self : tree) (d kw : list (string * tree))
    (func : tree) :
  dict_get "distribution" d = Some (Node kw) ->
  dict_get "func" kw = Some func ->
  is_str "truncnorm" func = false \/ dict_mem "scale" kw = true ->
  _set_reroll_var xp_abs_mul self d = Ok (Node d).
Proof.
  intros Hd Hf Hkeep. unfold _set_reroll_var.
  cbn [path_get]. rewrite Hd, Hf. cbn [bind].
  destruct Hkeep as [-> | ->]; [reflexivity|].
  cbn [negb]. by rewrite andb_false_r.
Qed.

End SamplerFacts.

Section ListFacts.
Import Py Config ConfigLists.


Lemma squeeze_depth (a : pyval) : (depth (squeeze a) <= depth a)%nat.
Proof.
  induction a as [q|s|items IH] using pyval_rect_items; [cbn; lia|cbn; lia|].
  destruct items as [|x [|y items]].
  - cbn. lia.
  - inversion IH as [|? ? Hx _]; subst.
    change (depth (squeeze x) <= S (Nat.max (depth x) 0))%nat. lia.
  - change (squeeze (PList (x :: y :: items)))
      with (PList (map squeeze (x :: y :: items))).
    set (l := x :: y :: items) in *. clearbody l.
    cbn [depth]. apply le_n_S.
    induction IH as [|z zs Hz _ IHz]; [cbn; lia|].
    change (Nat.max (depth (squeeze z)) (list_max (map depth (map squeeze zs)))
            <= Nat.max (depth z) (list_max (map depth zs)))%nat.
    lia.
Qed.

Lemma squeeze_fixed (a : pyval) : squeeze a = a <-> no_unit_axis a = true.
Proof.
  induction a as [q|s|items IH] using pyval_rect_items; cbn; try done.
  destruct items as [|x [|y items]].
  - done.
  - split; [|discriminate]. intros Heq.
    pose proof (squeeze_depth x) as Hd. rewrite Heq in Hd. cbn in Hd. lia.
  - set (l := x :: y :: items) in *. clearbody l.
    split.
    + intros [= Heq]. apply forallb_forall. intros z Hz.
      rewrite Forall_forall in IH. apply (IH z Hz).
      assert (Hall : forall l, map squeeze l = l -> forall z, In z l -> squeeze z = z).
      { clear. induction l as [|u l IHl]; [done|]. cbn. intros [= H1 H2] z [->|Hz]; auto. }
      exact (Hall l Heq z Hz).
    + intros Hall. f_equal. rewrite forallb_forall in Hall.
      rewrite Forall_forall in IH.
      rewrite <- (map_id l) at 2. apply map_ext_in. intros z Hz.
      apply (IH z Hz), Hall, Hz.
Qed.

Lemma map_fixed {A : Type} (f : A -> A) (l : list A) :
  map f l = l <-> forall x, In x l -> f x = x.
Proof.
  induction l as [|u l IHl]; cbn; [done|]. split.
  - intros [= H1 H2] z [->|Hz]; [done|]. by apply IHl.
  - intros H. f_equal; [auto|]. apply IHl. auto.
Qed.

(** X10. Casting a configuration read from YAML (strings, numbers,
    rectangular sequences of numbers) to arrays and back to lists gives
    the configuration back exactly when no stored sequence has an axis
    of length one: [xp.squeeze] drops such axes. *)
Theorem to_lists_round_trip (t : tree) :
  yaml_values t = true ->
  (_to_lists (_to_arrays t) = t <-> unit_axis_free t = true).
Proof.
  induction t as [[s|v|a]|kids IH] using tree_rect_kids.
  - done.
  - destruct v as [q|s|items]; [done|discriminate|]. intros _.
    change (Leaf (tolist (squeeze (PList items))) = Leaf (LPy (PList items))
            <-> no_unit_axis (PList items) = true).
    rewrite <- squeeze_fixed. split.
    + generalize (squeeze (PList items)). intros [q|s|xs]; cbn; congruence.
    + intros ->. reflexivity.
  - discriminate.
  - change (_to_lists (_to_arrays (Node kids)))
      with (Node (map (fun kv => (kv.1, _to_lists kv.2))
                      (map (fun kv => (kv.1, _to_arrays kv.2)) kids))).
    rewrite map_map. cbn [yaml_values unit_axis_free fst snd].
    rewrite !forallb_forall. rewrite Forall_forall in IH. intros Hy.
    split.
    + intros [= Heq] [k0 t0] Hin. apply (IH _ Hin (Hy _ Hin)).
      pose proof (proj1 (map_fixed _ _) Heq _ Hin) as H0.
      cbn [fst snd] in *. by injection H0.
    + intros Hall. f_equal. apply map_fixed. intros [k0 t0] Hin.
      cbn [fst snd]. f_equal. apply (IH _ Hin (Hy _ Hin)), (Hall _ Hin).
Qed.

(** X12. The guard [not ~par.exists()] of [load_cfg] is false whether the
    path exists or not ([~True] is -2 and [~False] is -1, both truthy):
    that line never raises FileNotFoundError. *)
Theorem load_cfg_guard_never_fires (par_exists : bool) :
  load_cfg_guard par_exists = false.
Proof. destruct par_exists; reflexivity. Qed.

End ListFacts.


Section WindowFacts.
Import Py Graph GraphData.

Lemma foldl_Rplus_shift (a : R) (xs : list R) :
  foldl Rplus a xs = (a + foldl Rplus 0 xs)%R.
Proof.
  revert a. induction xs as [|x xs IH]; intros a; cbn.
  - lra.
  - rewrite IH, (IH (0 + x)%R). lra.
Qed.

Lemma foldl_Rplus_scaled (c a : R) (xs : list R) :
  foldl Rplus a (zip_with Rmult xs (replicate (length xs) c))
  = (a + foldl Rplus 0 xs * c)%R.
Proof.
  revert a. induction xs as [|x xs IH]; intros a; cbn.
  - lra.
  - rewrite IH, (foldl_Rplus_shift (0 + x)%R). lra.
Qed.

Lemma dot_uniform_window (xs : list R) (m : nat) :
  length xs = m ->
  dot 0%R Rplus Rmult xs (replicate m (1 / INR m)%R) = (Rsum xs / INR m)%R.
Proof.
  intros <-. unfold dot, Rsum. rewrite foldl_Rplus_scaled. lra.
Qed.

Lemma convolve_uniform (row : list R) (m : nat) :
  (1 <= m)%nat -> (m <= length row)%nat ->
  convolve 0%R Rplus Rmult row (replicate m (1 / INR m)%R)
  = Ok (window_means m row).
Proof.
  intros Hm Hlen.
  rewrite convolve_fits by (rewrite ?length_replicate; lia).
  rewrite !length_replicate. f_equal. unfold window_means.
  apply tabulate_ext. intros k Hk. rewrite rev_replicate.
  apply dot_uniform_window. rewrite length_take, length_drop. lia.
Qed.

Lemma window_means_length (w : nat) (row : list R) :
  length (window_means w row) = (length row - w + 1)%nat.
Proof. apply tabulate_length. Qed.

(** The loop over the rows writes the window means of every row,
    whatever the output array held. *)
Lemma loop_window_means (rows : list (list R)) (len m : nat) :
  (1 <= m)%nat -> (m <= len)%nat ->
  Forall (fun row => length row = len) rows ->
  forall cnt i0 (s : list (list R)),
    (i0 + cnt = length rows)%nat -> length s = length rows ->
    for_each (seq i0 cnt)
      (fun i rolling_arr =>
         let* row := getrow rows i in
         let* c := convolve 0%R Rplus Rmult row (replicate m (1 / INR m)%R) in
         setitem_row rolling_arr i c)
      (Arr2 (len - m + 1) s)
    = Ok (Arr2 (len - m + 1)
               (take i0 s ++ map (window_means m) (drop i0 rows))).
Proof.
  intros Hm Hlen Hrows. induction cnt as [|cnt IH]; intros i0 s Hi Hs.
  - cbn [seq for_each]. rewrite drop_ge by lia.
    cbn [map]. rewrite app_nil_r, take_ge by lia. reflexivity.
  - cbn [seq for_each].
    destruct (lookup_lt_is_Some_2 rows i0) as [row Hrow]; [lia|].
    assert (Hrl : length row = len).
    { rewrite Forall_forall in Hrows. apply Hrows.
      apply list_elem_of_In. eapply list_elem_of_lookup_2. exact Hrow. }
    rewrite (getrow_lookup _ _ _ Hrow). cbn [bind].
    rewrite convolve_uniform by lia. cbn [bind setitem_row].
    destruct (Nat.ltb_spec i0 (length s)); [|lia].
    rewrite window_means_length, Hrl, Nat.eqb_refl. cbn [bind].
    rewrite IH; [|lia|by rewrite length_insert].
    rewrite (take_S_r _ _ (window_means m row))
      by (apply list_lookup_insert_eq; lia).
    rewrite take_insert_ge by lia.
    rewrite (drop_S _ _ _ Hrow). cbn [map].
    rewrite <- app_assoc. reflexivity.
Qed.

(** X13. The rolling arithmetic mean of a rank-two array along its last
    axis, for a window that fits (1 <= w <= n) and no weights: every row
    is replaced by the means of its windows of [w] consecutive entries;
    nothing of the uninitialised output survives. *)
Theorem rolling_arithmetic_last_axis (fill : R) (n : nat)
    (rows : list (list R)) (w axis : Z) :
  wf (Arr2 n rows) ->
  1 <= w -> w <= Z.of_nat n -> axis = 1 \/ axis = -1 ->
  rolling_arithmetic_mean fill (Arr2 n rows) w axis None
  = Ok (Arr2 (n - Z.to_nat w + 1) (map (window_means (Z.to_nat w)) rows)).
Proof.
  intros Hwf Hw Hn Haxis. unfold rolling_arithmetic_mean.
  assert (Hswap : forall (B : Type) m (rs : list (list B)),
             swapaxes_last (Arr2 m rs) axis = Ok (Arr2 m rs)).
  { intros B m rs. cbn [swapaxes_last]. destruct Haxis as [-> | ->]; reflexivity. }
  rewrite Hswap. cbn [bind last_dim]. unfold empty.
  destruct (Z.ltb_spec (Z.of_nat n - w + 1) 0); [lia|]. cbn [bind].
  rewrite uniform_window by lia. cbn [bind].
  unfold reshape_rows. cbn [last_dim].
  destruct (Nat.eqb_spec n 0); [lia|]. cbn [bind].
  replace (Z.to_nat (Z.of_nat n - w + 1)) with (n - Z.to_nat w + 1)%nat by lia.
  rewrite (loop_window_means rows n (Z.to_nat w));
    [|lia|lia|exact Hwf|lia|by rewrite length_replicate].
  cbn [bind]. rewrite take_0, app_nil_l, drop_0. apply Hswap.
Qed.

Lemma omap_total {A B : Type} (f : A -> option B) (g : A -> B) (l : list A) :
  Forall (fun x => f x = Some (g x)) l -> omap f l = map g l.
Proof.
  induction 1 as [|x l Hx _ IH]; [reflexivity|].
  cbn [omap list_omap map]. rewrite Hx. cbn. f_equal. exact IH.
Qed.

Lemma omap_tabulate {A B : Type} (f : A -> option B) (n : nat)
    (F : nat -> A) (G : nat -> B) :
  (forall i, (i < n)%nat -> f (F i) = Some (G i)) ->
  omap f (tabulate n F) = tabulate n G.
Proof.
  intros H. unfold tabulate.
  rewrite (omap_total f (fun x => default (G 0%nat) (f x))).
  - rewrite map_map. apply map_ext_in. intros i Hi. apply in_seq in Hi.
    rewrite H by lia. reflexivity.
  - apply Forall_forall. intros o Ho. apply in_map_iff in Ho as (i & <- & Hi).
    apply in_seq in Hi. rewrite H by lia. reflexivity.
Qed.

Lemma transpose_columns (n : nat) (rows : list (list R)) :
  Forall (fun row => length row = n) rows ->
  transpose n rows = tabulate n (fun j => nth_column j rows).
Proof.
  intros Hwf. unfold transpose. apply tabulate_ext. intros j Hj.
  apply omap_total. eapply Forall_impl; [|exact Hwf].
  intros row Hrow. cbn beta in *.
  destruct (lookup_lt_is_Some_2 row j) as [x Hx]; [lia|]. by rewrite Hx.
Qed.

(** Along the first axis, entry by entry: the mean over [w] consecutive
    rows. *)
Lemma arithmetic_first_axis (fill : R) (n : nat)
    (rows : list (list R)) (w axis : Z) :
  wf (Arr2 n rows) ->
  1 <= w -> w <= Z.of_nat (length rows) -> axis = 0 \/ axis = -2 ->
  rolling_arithmetic_mean fill (Arr2 n rows) w axis None
  = Ok (Arr2 n
         (tabulate (length rows - Z.to_nat w + 1) (fun t =>
            tabulate n (fun j =>
              (Rsum (nth_column j (take (Z.to_nat w) (drop t rows)))
               / INR (Z.to_nat w))%R)))).
Proof.
  intros Hwf Hw Hk Haxis. unfold rolling_arithmetic_mean.
  assert (Hswap : forall (B : Type) m (rs : list (list B)),
             swapaxes_last (Arr2 m rs) axis
             = Ok (Arr2 (length rs) (transpose m rs))).
  { intros B m rs. cbn [swapaxes_last]. destruct Haxis as [-> | ->]; reflexivity. }
  rewrite Hswap. cbn [bind last_dim]. unfold empty.
  set (k := length rows) in *. set (m := Z.to_nat w).
  destruct (Z.ltb_spec (Z.of_nat k - w + 1) 0); [lia|]. cbn [bind].
  rewrite uniform_window by lia. cbn [bind]. fold m.
  unfold reshape_rows. cbn [last_dim].
  destruct (Nat.eqb_spec k 0); [lia|]. cbn [bind].
  replace (Z.to_nat (Z.of_nat k - w + 1)) with (k - m + 1)%nat by lia.
  cbn in Hwf. rewrite (transpose_columns n rows Hwf).
  rewrite (loop_window_means _ k m);
    [|lia|lia| |by rewrite tabulate_length
     |by rewrite length_replicate, !tabulate_length].
  2:{ apply Forall_forall. intros col Hcol. unfold tabulate in Hcol.
      apply in_map_iff in Hcol as (j & <- & _). unfold nth_column.
      by rewrite length_map. }
  cbn [bind]. rewrite take_0, app_nil_l, drop_0.
  rewrite Hswap. rewrite length_map, tabulate_length. do 2 f_equal.
  rewrite map_tabulate. unfold transpose.
  apply tabulate_ext. intros t Ht.
  apply omap_tabulate. intros j Hj.
  unfold window_means. rewrite tabulate_lookup.
  - unfold nth_column. change (map ?f ?l) with (f <$> l).
    by rewrite fmap_take, fmap_drop.
  - unfold nth_column. rewrite length_map. fold k. lia.
Qed.


(** X14. [rolling_mean_func] as [buckyGraphData.__init__] sets it up
    (arithmetic, window 7, axis 0), on a history of at least seven rows:
    the result has six rows fewer and its entry (t, j) is the mean of
    column [j] over rows t, ..., t+6. *)
Theorem rolling_mean_func_weekly (fill : R) (n : nat) (rows : list (list R)) :
  wf (Arr2 n rows) -> (7 <= length rows)%nat ->
  rolling_mean_func fill (Arr2 n rows)
  = Ok (Arr2 n
         (tabulate (length rows - 6) (fun t =>
            tabulate n (fun j =>
              Some (Rsum (nth_column j (take 7 (drop t rows))) / 7)%R)))).
Proof.
  intros Hwf Hlen. unfold rolling_mean_func, rolling_mean.
  cbn [String.eqb Ascii.eqb Bool.eqb].
  rewrite arithmetic_first_axis; [|done|lia|lia|by left].
  cbn [res_map nd_map]. do 2 f_equal.
  replace (length rows - Z.to_nat 7 + 1)%nat with (length rows - 6)%nat by lia.
  rewrite map_tabulate. apply tabulate_ext. intros t _.
  rewrite map_tabulate. apply tabulate_ext. intros j _.
  change (Z.to_nat 7) with 7%nat. do 2 f_equal.
  change (INR 7) with (1 + 1 + 1 + 1 + 1 + 1 + 1)%R. lra.
Qed.

Lemma clip_lower (lo x : R) : (lo <= clip (Some lo) None x)%R.
Proof. unfold clip. apply Rmax_r. Qed.

Lemma clip_lower_id (lo x : R) : (lo <= x)%R -> clip (Some lo) None x = x.
Proof. intros H. unfold clip. by apply Rmax_left. Qed.

Lemma vstack_ok (node_list : list (list R)) (v : list R) :
  node_list !! 0%nat = Some v ->
  Forall (fun u => length u = length v) node_list ->
  vstack node_list = Ok (Arr2 (length v) node_list).
Proof.
  destruct node_list as [|v0 rest]; [discriminate|]. intros [= ->] Hall.
  unfold vstack. replace (forallb _ _) with true; [reflexivity|].
  symmetry. apply forallb_forall. intros u Hu.
  rewrite Forall_forall in Hall. apply Nat.eqb_eq, Hall, Hu.
Qed.

Lemma zip_with_length_tail {A B : Type} (f : A -> A -> B) (l : list A) :
  length (zip_with f (tail l) l) = (length l - 1)%nat.
Proof.
  rewrite length_zip_with. destruct l; cbn; lia.
Qed.


Lemma read_node_attr_eq (node_list : list (list R)) (v : list R) (lo : R) :
  node_list !! 0%nat = Some v ->
  Forall (fun u => length u = length v) node_list ->
  _read_node_attr node_list true (Some lo) None
  = Ok (Arr2 (length node_list) (clipped_hist lo node_list (length v)),
        Some (Arr2 (length node_list) (clipped_diff lo node_list (length v)))).
Proof.
  intros Hv Hall. unfold _read_node_attr.
  rewrite (vstack_ok _ _ Hv Hall).
  cbn [bind is_given orb transposed nd_map diff].
  rewrite (transpose_columns _ _ Hall). reflexivity.
Qed.

Lemma clipped_rows_bound (lo : R) (rows : list (list R)) :
  Forall (Forall (fun x => lo <= x)%R) (map (map (clip (Some lo) None)) rows).
Proof.
  apply Forall_forall. intros row Hrow.
  apply in_map_iff in Hrow as (r & <- & _).
  apply Forall_forall. intros x Hx. apply in_map_iff in Hx as (y & <- & _).
  apply clip_lower.
Qed.

Lemma clipped_hist_wf (lo : R) (node_list : list (list R)) (T : nat) :
  Forall (fun row => length row = length node_list) (clipped_hist lo node_list T).
Proof.
  apply Forall_forall. intros row Hrow.
  apply in_map_iff in Hrow as (r & <- & Hr). rewrite length_map.
  unfold tabulate in Hr. apply in_map_iff in Hr as (j & <- & _).
  unfold nth_column. by rewrite length_map.
Qed.

Lemma clipped_diff_wf (lo : R) (node_list : list (list R)) (T : nat) :
  Forall (fun row => length row = length node_list) (clipped_diff lo node_list T).
Proof.
  pose proof (clipped_hist_wf lo node_list T) as Hcum.
  unfold clipped_diff. set (cum := clipped_hist lo node_list T) in *.
  apply Forall_forall. intros row Hrow.
  apply in_map_iff in Hrow as (r & <- & Hr). rewrite length_map.
  apply list_elem_of_In, elem_of_zip_with in Hr as (a & b & -> & Ha & Hb).
  rewrite length_zip_with.
  rewrite Forall_forall in Hcum.
  rewrite (Hcum a), (Hcum b); [lia| |];
    [apply list_elem_of_In, Hb
    |apply list_elem_of_In; destruct cum; [done|by right]].
Qed.

Lemma clipped_diff_length (lo : R) (node_list : list (list R)) (T : nat) :
  length (clipped_diff lo node_list T) = (T - 1)%nat.
Proof.
  unfold clipped_diff. rewrite length_map, zip_with_length_tail.
  unfold clipped_hist. by rewrite length_map, tabulate_length.
Qed.

Lemma zip_with_tail_tabulate {A B : Type} (g : A -> A -> B) (n : nat)
    (f : nat -> A) :
  zip_with g (tail (tabulate n f)) (tabulate n f)
  = tabulate (n - 1) (fun t => g (f (S t)) (f t)).
Proof.
  apply list_eq. intros t. rewrite lookup_zip_with, lookup_tail.
  destruct (decide (S t < n)%nat) as [Ht|Ht].
  - rewrite !tabulate_lookup by lia. reflexivity.
  - rewrite (lookup_ge_None_2 (tabulate n f) (S t))
      by (rewrite tabulate_length; lia).
    cbn. symmetry. apply lookup_ge_None_2. rewrite tabulate_length. lia.
Qed.

Lemma zip_with_map_same {A B C D : Type} (g : B -> C -> D) (h : A -> B)
    (k : A -> C) (l : list A) :
  zip_with g (map h l) (map k l) = map (fun x => g (h x) (k x)) l.
Proof. induction l as [|x l IH]; [reflexivity|]. cbn. by rewrite IH. Qed.

Lemma clipped_hist_entries (lo : R) (node_list : list (list R)) (T : nat) :
  clipped_hist lo node_list T = clipped_values lo node_list T.
Proof.
  unfold clipped_hist, clipped_values. rewrite map_tabulate.
  apply tabulate_ext. intros t _. unfold nth_column. rewrite map_map.
  reflexivity.
Qed.

Lemma clipped_diff_entries (lo : R) (node_list : list (list R)) (T : nat) :
  clipped_diff lo node_list T = clipped_increments lo node_list T.
Proof.
  unfold clipped_diff, clipped_increments.
  rewrite clipped_hist_entries. unfold clipped_values.
  rewrite zip_with_tail_tabulate, map_tabulate.
  apply tabulate_ext. intros t _.
  rewrite zip_with_map_same, map_map. reflexivity.
Qed.

(** X18. [_read_node_attr] with [diff=True] and a lower bound, on nodes
    whose values all have the same length T.  It returns two arrays:
    the (T, nodes) array whose entry (t, j) is the value of node [j] at
    [t], raised to the bound where it is below it; and the (T-1, nodes)
    array whose entry (t, j) is the difference of the first array's
    entries (t+1, j) and (t, j), raised to the bound likewise.  Every
    entry of both is at least the bound. *)
Theorem read_node_attr_clipped (node_list : list (list R)) (v : list R) (lo : R) :
  node_list !! 0%nat = Some v ->
  Forall (fun u => length u = length v) node_list ->
  _read_node_attr node_list true (Some lo) None
  = Ok (Arr2 (length node_list) (clipped_values lo node_list (length v)),
        Some (Arr2 (length node_list)
                   (clipped_increments lo node_list (length v)))) /\
  all_entries (fun x => lo <= x)%R
    (Arr2 (length node_list) (clipped_values lo node_list (length v))) /\
  all_entries (fun x => lo <= x)%R
    (Arr2 (length node_list) (clipped_increments lo node_list (length v))).
Proof.
  intros Hv Hall.
  rewrite <- clipped_hist_entries, <- clipped_diff_entries.
  split; [by apply read_node_attr_eq|].
  split; apply clipped_rows_bound.
Qed.

Lemma Rsum_nonneg (l : list R) : Forall (fun x => 0 <= x)%R l -> (0 <= Rsum l)%R.
Proof.
  unfold Rsum. intros H.
  assert (Hgen : forall a, (0 <= a)%R -> (0 <= foldl Rplus a l)%R).
  { induction H as [|x l Hx _ IH]; intros a Ha; [exact Ha|].
    cbn. apply IH. lra. }
  apply Hgen. lra.
Qed.

Lemma column_nonneg (j : nat) (rows : list (list R)) :
  Forall (Forall (fun x => 0 <= x)%R) rows ->
  Forall (fun x => 0 <= x)%R (nth_column j rows).
Proof.
  intros H. unfold nth_column. apply Forall_forall. intros x Hx.
  apply in_map_iff in Hx as (row & <- & Hrow).
  rewrite Forall_forall in H. specialize (H row Hrow).
  destruct (row !! j) as [y|] eqn:Hy; cbn; [|lra].
  rewrite Forall_forall in H. apply H.
  apply list_elem_of_In. eapply list_elem_of_lookup_2. exact Hy.
Qed.

(** X20. [rolling_inc_cases] of a graph whose nodes hold case histories
    of the same length T >= 8: it is a (T-7, nodes) array of numbers,
    none negative. *)
Theorem rolling_inc_cases_nonneg (fill : R) (case_hist : list (list R))
    (v : list R) :
  case_hist !! 0%nat = Some v ->
  Forall (fun u => length u = length v) case_hist ->
  (8 <= length v)%nat ->
  exists out,
    rolling_inc_cases fill case_hist = Ok (Arr2 (length case_hist) out) /\
    length out = (length v - 7)%nat /\
    wf (Arr2 (length case_hist) out) /\
    all_entries (at_least 0) (Arr2 (length case_hist) out).
Proof.
  intros Hv Hall Hlen. unfold rolling_inc_cases.
  rewrite (read_node_attr_eq _ _ 0%R Hv Hall). cbn [bind snd].
  unfold rolling_mean_func, rolling_mean.
  cbn [String.eqb Ascii.eqb Bool.eqb].
  pose proof (clipped_diff_length 0 case_hist (length v)) as Hdl.
  rewrite arithmetic_first_axis;
    [|apply clipped_diff_wf|lia|rewrite Hdl; lia|by left].
  cbn [res_map nd_map]. eexists. split; [reflexivity|].
  rewrite length_map, tabulate_length, Hdl.
  split; [lia|]. split.
  - cbn. apply Forall_forall. intros row Hrow.
    apply in_map_iff in Hrow as (r & <- & Hr). rewrite length_map.
    unfold tabulate in Hr. apply in_map_iff in Hr as (t & <- & _).
    by rewrite length_map, length_seq.
  - cbn. apply Forall_forall. intros row Hrow.
    apply in_map_iff in Hrow as (r & <- & Hr).
    unfold tabulate in Hr. apply in_map_iff in Hr as (t & <- & _).
    apply Forall_forall. intros x Hx.
    apply in_map_iff in Hx as (y & <- & Hy).
    apply in_map_iff in Hy as (j & <- & _).
    eexists. split; [reflexivity|].
    apply Rmult_le_pos;
      [|apply Rlt_le, Rinv_0_lt_compat, lt_0_INR;
        change (Z.to_nat 7) with 7%nat; lia].
    apply Rsum_nonneg, column_nonneg.
    assert (Hsub : forall (l : list (list R)) a b,
               Forall (Forall (fun x => 0 <= x)%R) l ->
               Forall (Forall (fun x => 0 <= x)%R) (take a (drop b l))).
    { intros l a b Hl. apply Forall_take, Forall_drop, Hl. }
    apply Hsub, clipped_rows_bound.
Qed.


Lemma map_fixed_rows (f : R -> R) (rows : list (list R)) :
  Forall (Forall (fun x => f x = x)) rows -> map (map f) rows = rows.
Proof.
  induction 1 as [|row rows Hrow _ IH]; [reflexivity|].
  cbn [map]. rewrite IH. f_equal.
  induction Hrow as [|x row Hx _ IHrow]; [reflexivity|].
  cbn [map]. by rewrite Hx, IHrow.
Qed.

(** X19. For histories that are non-negative and never go down, clipping
    at zero changes nothing: [_read_node_attr] returns the same arrays
    with [a_min=0.0] as without bounds. *)
Theorem read_node_attr_monotone (node_list : list (list R)) :
  Forall (Forall (fun x => 0 <= x)%R) node_list ->
  Forall nondecreasing node_list ->
  _read_node_attr node_list true (Some 0%R) None
  = _read_node_attr node_list true None None.
Proof.
  intros Hpos Hmono. unfold _read_node_attr.
  destruct (vstack node_list) as [arr|e] eqn:Hst; [|reflexivity].
  cbn [bind is_given orb].
  assert (Harr : exists n, arr = Arr2 n node_list
                           /\ Forall (fun u => length u = n) node_list).
  { unfold vstack in Hst. destruct node_list as [|v rest]; [discriminate|].
    destruct (forallb _ _) eqn:Hall; [|discriminate].
    injection Hst as <-. exists (length v). split; [reflexivity|].
    rewrite forallb_forall in Hall. apply Forall_forall. intros u Hu.
    apply Nat.eqb_eq, Hall, Hu. }
  destruct Harr as (n & -> & Hwf).
  cbn [transposed nd_map diff].
  rewrite (transpose_columns _ _ Hwf).
  set (cum := tabulate n (fun j => nth_column j node_list)).
  assert (Hcum : map (map (clip (Some 0%R) None)) cum = cum).
  { apply map_fixed_rows. apply Forall_forall. intros row Hrow.
    unfold cum, tabulate in Hrow. apply in_map_iff in Hrow as (j & <- & _).
    eapply Forall_impl; [|apply column_nonneg, Hpos].
    intros x Hx. by apply clip_lower_id. }
  rewrite Hcum. do 4 f_equal.
  apply map_fixed_rows. apply Forall_lookup_2. intros t row Hrow.
  rewrite lookup_zip_with in Hrow.
  destruct (tail cum !! t) as [hi|] eqn:Hhi; [|discriminate].
  destruct (cum !! t) as [lo|] eqn:Hlo; [|discriminate].
  cbn in Hrow. injection Hrow as <-.
  rewrite lookup_tail in Hhi.
  assert (Ht : (S t < n)%nat).
  { apply lookup_lt_Some in Hhi. unfold cum in Hhi.
    by rewrite tabulate_length in Hhi. }
  unfold cum in Hhi, Hlo. rewrite tabulate_lookup in Hhi, Hlo by lia.
  injection Hhi as <-. injection Hlo as <-.
  apply Forall_lookup_2. intros i d Hd.
  rewrite lookup_zip_with in Hd. unfold nth_column in Hd.
  change (map ?f ?l) with (f <$> l) in Hd. rewrite !list_lookup_fmap in Hd.
  destruct (node_list !! i) as [u|] eqn:Hu; [|discriminate].
  cbn in Hd. injection Hd as <-.
  apply clip_lower_id.
  rewrite Forall_lookup in Hwf, Hmono.
  pose proof (Hwf _ _ Hu) as Hul. pose proof (Hmono _ _ Hu) as Hum.
  destruct (lookup_lt_is_Some_2 u t) as [x Hx]; [lia|].
  destruct (lookup_lt_is_Some_2 u (S t)) as [y Hy]; [lia|].
  rewrite Hx, Hy. cbn. specialize (Hum t x y Hx Hy). lra.
Qed.

End WindowFacts.

Section WindowFits.
Import Py Graph GraphData.

(** X15. On a non-empty rank-two array, along the last axis and without
    weights, a window size outside 1..n makes [rolling_arithmetic_mean]
    raise ValueError. *)
Theorem rolling_arithmetic_window_misfit (fill : R) (n : nat)
    (rows : list (list R)) (w axis : Z) :
  wf (Arr2 n rows) -> rows <> [] -> (1 <= n)%nat ->
  axis = 1 \/ axis = -1 ->
  ~ (1 <= w <= Z.of_nat n) ->
  exists msg,
    rolling_arithmetic_mean fill (Arr2 n rows) w axis None
    = Raise (ValueError msg).
Proof.
  intros Hwf Hrows Hn Haxis Hw. unfold rolling_arithmetic_mean.
  assert (Hswap : forall (B : Type) m (rs : list (list B)),
             swapaxes_last (Arr2 m rs) axis = Ok (Arr2 m rs)).
  { intros B m rs. cbn [swapaxes_last]. destruct Haxis as [-> | ->]; reflexivity. }
  rewrite Hswap. cbn [bind last_dim]. unfold empty.
  destruct (Z.ltb_spec (Z.of_nat n - w + 1) 0) as [Hneg|Hfit];
    [eexists; reflexivity|].
  cbn [bind]. unfold mean_window, ones.
  destruct (Z.ltb_spec w 0) as [Hlt|Hge]; [eexists; reflexivity|].
  cbn [bind]. unfold reshape_rows. cbn [last_dim].
  destruct (Nat.eqb_spec n 0); [lia|]. cbn [bind].
  destruct rows as [|row rows]; [done|].
  inversion Hwf as [|? ? Hrow _]; subst.
  cbn [length seq for_each getrow lookup list_lookup bind].
  unfold convolve. rewrite length_map, length_replicate.
  destruct (Z.eq_dec w 0) as [->|Hw0].
  - destruct (Nat.ltb_spec (length row) (Z.to_nat 0)); [lia|].
    destruct (Nat.eqb_spec (length row) 0); [lia|].
    rewrite length_map, length_replicate. cbn. eexists. reflexivity.
  - assert (Hw1 : w = Z.of_nat (length row) + 1) by lia.
    destruct (Nat.ltb_spec (length row) (Z.to_nat w)); [|lia].
    rewrite length_map, length_replicate.
    destruct (Nat.eqb_spec (Z.to_nat w) 0); [lia|].
    destruct (Nat.eqb_spec (length row) 0); [lia|].
    cbn [bind setitem_row]. rewrite length_replicate.
    cbn [length Nat.ltb Nat.leb]. rewrite tabulate_length.
    replace (Z.to_nat w - length row + 1)%nat with 2%nat by lia.
    replace (Z.to_nat (Z.of_nat (length row) - w + 1)) with 0%nat by lia.
    cbn. eexists. reflexivity.
Qed.

End WindowFits.

Section DispatchFacts.
Import Py Graph GraphData.


Lemma bind_only_array_errors {A B : Type} (m : res A) (k : A -> res B) :
  only_array_errors m -> (forall a, only_array_errors (k a)) ->
  only_array_errors (bind m k).
Proof. destruct m as [a|e]; cbn; auto. Qed.

Lemma for_each_only_array_errors {S : Type} (l : list nat)
    (body : nat -> S -> res S) (s : S) :
  (forall i s, only_array_errors (body i s)) ->
  only_array_errors (for_each l body s).
Proof.
  intros Hbody. revert s. induction l as [|i l IH]; intros s; cbn.
  - exact I.
  - apply bind_only_array_errors; [apply Hbody|apply IH].
Qed.

Ltac array_errors :=
  repeat match goal with
         | |- context [if ?b then _ else _] => destruct b
         end;
  cbn; auto.

Lemma swapaxes_only_array_errors {A : Type} (arr : ndarray A) axis :
  only_array_errors (swapaxes_last arr axis).
Proof. destruct arr; cbn; array_errors. Qed.

Lemma empty_only_array_errors {A B : Type} (fill : B) (arr : ndarray A) last :
  only_array_errors (empty fill arr last).
Proof. unfold empty. array_errors. Qed.

Lemma ones_only_array_errors {A : Type} (one : A) n :
  only_array_errors (ones one n).
Proof. unfold ones. array_errors. Qed.

Lemma reshape_only_array_errors {A : Type} (arr : ndarray A) :
  only_array_errors (reshape_rows arr).
Proof. unfold reshape_rows. array_errors. Qed.

Lemma getrow_only_array_errors {A : Type} (rows : list (list A)) i :
  only_array_errors (getrow rows i).
Proof. unfold getrow. destruct (rows !! i); cbn; auto. Qed.

Lemma convolve_only_array_errors {A : Type} (zero : A) add mul a v :
  only_array_errors (convolve zero add mul a v).
Proof. unfold convolve. destruct (length a <? length v)%nat; array_errors. Qed.

Lemma setitem_only_array_errors {A : Type} (arr : ndarray A) i val :
  only_array_errors (setitem_row arr i val).
Proof.
  unfold setitem_row. destruct arr as [data|n rows].
  - destruct (i <? length data)%nat; [|reflexivity].
    destruct val as [|x [|y val]]; cbn; auto.
  - destruct (i <? length rows)%nat; [|reflexivity].
    destruct (length val =? n)%nat; [exact I|].
    destruct val as [|x [|y val]]; cbn; auto.
Qed.

Lemma inv_window_only_array_errors w : only_array_errors (inv_window w).
Proof. unfold inv_window. array_errors. Qed.

Lemma mean_window_only_array_errors w weights :
  only_array_errors (mean_window w weights).
Proof.
  unfold mean_window. destruct weights; [exact I|].
  apply bind_only_array_errors; [apply ones_only_array_errors|intros; exact I].
Qed.

Lemma arithmetic_only_array_errors fill arr w axis weights :
  only_array_errors (rolling_arithmetic_mean fill arr w axis weights).
Proof.
  unfold rolling_arithmetic_mean.
  apply bind_only_array_errors; [apply swapaxes_only_array_errors|intros a1].
  apply bind_only_array_errors; [apply empty_only_array_errors|intros r1].
  apply bind_only_array_errors; [apply mean_window_only_array_errors|intros win].
  apply bind_only_array_errors; [apply reshape_only_array_errors|intros rows].
  apply bind_only_array_errors; [|intros r2; apply swapaxes_only_array_errors].
  apply for_each_only_array_errors. intros i s.
  apply bind_only_array_errors; [apply getrow_only_array_errors|intros row].
  apply bind_only_array_errors; [apply convolve_only_array_errors|intros c].
  apply setitem_only_array_errors.
Qed.

Lemma geometric_only_array_errors fill arr w axis :
  only_array_errors (rolling_geometric_mean fill arr w axis None).
Proof.
  unfold rolling_geometric_mean.
  apply bind_only_array_errors; [apply swapaxes_only_array_errors|intros a1].
  apply bind_only_array_errors; [apply empty_only_array_errors|intros r1].
  apply bind_only_array_errors; [apply ones_only_array_errors|intros o].
  apply bind_only_array_errors; [apply reshape_only_array_errors|intros rows].
  apply bind_only_array_errors; [|intros r2; apply swapaxes_only_array_errors].
  apply for_each_only_array_errors. intros i s.
  apply bind_only_array_errors; [apply getrow_only_array_errors|intros la].
  apply bind_only_array_errors; [apply convolve_only_array_errors|intros tmp].
  apply bind_only_array_errors; [apply getrow_only_array_errors|intros nm].
  apply bind_only_array_errors; [apply ones_only_array_errors|intros o'].
  apply bind_only_array_errors; [apply convolve_only_array_errors|intros nn].
  apply bind_only_array_errors; [apply inv_window_only_array_errors|intros iw].
  apply setitem_only_array_errors.
Qed.

Lemma raise_not_array_error {A : Type} (r : res A) (e : exn) :
  only_array_errors r -> array_error e = false -> r <> Raise e.
Proof. intros Hr He ->. cbn in Hr. congruence. Qed.

Lemma res_map_raise {A B : Type} (f : A -> B) (r : res A) (e : exn) :
  res_map f r = Raise e <-> r = Raise e.
Proof. destruct r; cbn; split; congruence. Qed.


(** X17. [rolling_mean] raises NotImplementedError exactly for the
    harmonic mean and for a geometric mean with weights. *)
Theorem rolling_mean_not_implemented (fill : R) (arr : ndarray R)
    (w axis : Z) (weights : option (list R)) (mean_type : string) :
  rolling_mean fill arr w axis weights mean_type = Raise NotImplementedError
  <-> mean_type = "harmonic"
      \/ (mean_type = "geometric" /\ weights <> None).
Proof.
  unfold rolling_mean.
  destruct (String.eqb_spec mean_type "arithmetic") as [->|Ha].
  { split; [|intros [H|[H _]]; discriminate].
    rewrite res_map_raise. intros H. exfalso.
    revert H. apply raise_not_array_error;
      [apply arithmetic_only_array_errors|reflexivity]. }
  destruct (String.eqb_spec mean_type "geometric") as [->|Hg].
  { destruct weights as [ws|].
    - split; [intros _; by right|reflexivity].
    - split; [|intros [H|[_ H]]; [discriminate|done]].
      intros H. exfalso. revert H. apply raise_not_array_error;
        [apply geometric_only_array_errors|reflexivity]. }
  destruct (String.eqb_spec mean_type "harmonic") as [->|Hh].
  { split; [by left|reflexivity]. }
  split; [discriminate|]. intros [H|[H _]]; congruence.
Qed.

End DispatchFacts.


Section ReductionFacts.
Import Py Data.

Context {V : Type}.
Variable zero : V.
Variable add : V -> V -> V.
Hypothesis add_assoc : forall x y z, add x (add y z) = add (add x y) z.
Hypothesis add_comm : forall x y, add x y = add y x.
Hypothesis add_zero : forall x, add zero x = x.

Let total (l : list V) : V := foldl add zero l.

Lemma foldl_add_shift (a : V) (l : list V) :
  foldl add a l = add a (foldl add zero l).
Proof.
  revert a. induction l as [|x l IH]; intros a; cbn.
  - by rewrite add_comm, add_zero.
  - rewrite IH, (IH (add zero x)), add_zero, add_assoc. reflexivity.
Qed.

Lemma total_cons (x : V) (l : list V) : total (x :: l) = add x (total l).
Proof. unfold total. cbn. by rewrite foldl_add_shift, add_zero. Qed.

Lemma total_alter (p : nat) (v : V) (out : list V) :
  (p < length out)%nat ->
  total (alter (fun x => add x v) p out) = add (total out) v.
Proof.
  revert p. induction out as [|x out IH]; intros p Hp; cbn in Hp; [lia|].
  destruct p as [|p].
  - cbn [alter list_alter]. rewrite !total_cons.
    by rewrite <- !add_assoc, (add_comm v).
  - cbn [alter list_alter]. rewrite !total_cons.
    change (list_alter ?f p out) with (alter f p out).
    rewrite IH by lia. by rewrite add_assoc.
Qed.

Lemma norm_index_lt (len : nat) (i : Z) (p : nat) :
  norm_index len i = Some p -> (p < len)%nat.
Proof.
  unfold norm_index.
  destruct (Z.leb_spec 0 i), (Z.ltb_spec i (Z.of_nat len)); cbn;
    try (intros [= <-]; lia).
  all: destruct (Z.leb_spec (- Z.of_nat len) i), (Z.ltb_spec i 0); cbn;
    try discriminate; intros [= <-]; lia.
Qed.

Lemma scatter_pairs_total (pairs : list (Z * V)) :
  forall out out',
    scatter_pairs add out pairs = Ok out' ->
    length out' = length out /\
    total out' = add (total out) (total (map snd pairs)).
Proof.
  induction pairs as [|[i v] pairs IH]; intros out out'; cbn [scatter_pairs].
  - intros [= <-]. split; [reflexivity|].
    unfold total at 3. cbn. by rewrite add_comm, add_zero.
  - destruct (norm_index (length out) i) as [p|] eqn:Hp; [|discriminate].
    intros Hrun. apply IH in Hrun as [Hlen Htot].
    rewrite length_alter in Hlen. split; [exact Hlen|].
    rewrite Htot, total_alter by (eapply norm_index_lt; exact Hp).
    cbn [map snd]. rewrite total_cons, add_assoc. reflexivity.
Qed.

Lemma total_replicate_zero (n : nat) : total (replicate n zero) = zero.
Proof.
  induction n as [|n IH]; [reflexivity|].
  cbn [replicate]. by rewrite total_cons, IH, add_zero.
Qed.

Lemma snd_zip_same_length {A B : Type} (l : list A) (k : list B) :
  length k = length l -> map snd (zip l k) = k.
Proof.
  revert k. induction l as [|x l IH]; intros [|y k]; cbn; try done.
  intros [= H]. by rewrite IH.
Qed.

End ReductionFacts.

Section ReductionLaws.
Import Py Data.

(** X21. Rolling up to adm1 keeps the grand total.  When the addition is
    associative and commutative with [zero] as unit, the selected adm1
    indices are in range and the array has one entry per selected index,
    [sum_adm1] returns one entry per adm1 region and the sum of the
    result equals the sum of the array. *)
Theorem sum_adm1_conserves_total {V : Type} (zero : V) (add : V -> V -> V)
    (m : AdminLevelMapping) (adm2_arr : list V) (mk : option mask)
    (cache : bool) (ids : list Z) :
  (forall x y z, add x (add y z) = add (add x y) z) ->
  (forall x y, add x y = add y x) ->
  (forall x, add zero x = x) ->
  selected_ids m mk = Ok ids ->
  Forall (fun i => 0 <= i < Z.of_nat (n_adm1 m)) ids ->
  length adm2_arr = length ids ->
  exists out,
    sum_adm1 zero add m adm2_arr mk cache = Ok out /\
    length out = n_adm1 m /\
    foldl add zero out = foldl add zero adm2_arr.
Proof.
  intros Hassoc Hcomm Hzero Hsel Hids Hlen.
  destruct (scatter_add_zeros zero add (n_adm1 m) ids adm2_arr Hids Hlen)
    as (out & Hrun & Hl & _).
  exists out. unfold sum_adm1. fold (selected_ids m mk). rewrite Hsel.
  cbn [bind]. unfold cached_scatter_add.
  split; [by destruct cache|]. split; [exact Hl|].
  unfold scatter_add in Hrun. rewrite Hlen, Nat.eqb_refl in Hrun.
  cbn [bind] in Hrun.
  apply (scatter_pairs_total zero add Hassoc Hcomm Hzero) in Hrun as [_ Ht].
  rewrite Ht, (total_replicate_zero zero add Hassoc Hcomm Hzero), Hzero.
  by rewrite snd_zip_same_length.
Qed.

Lemma scatter_pairs_fmap {V W : Type} (add : V -> V -> V) (add' : W -> W -> W)
    (h : V -> W) (pairs : list (Z * V)) :
  (forall x y, h (add x y) = add' (h x) (h y)) ->
  forall out,
    scatter_pairs add' (map h out) (map (fun p => (p.1, h p.2)) pairs)
    = Graph.res_map (map h) (scatter_pairs add out pairs).
Proof.
  intros Hh. induction pairs as [|[i v] pairs IH]; intros out;
    cbn [scatter_pairs map fst snd]; [reflexivity|].
  rewrite length_map.
  destruct (norm_index (length out) i) as [p|]; [|reflexivity].
  rewrite <- IH. f_equal.
  change (map h ?l) with (h <$> l).
  rewrite (list_fmap_alter h (fun x => add x v) (fun y => add' y (h v)));
    [reflexivity|]. apply Forall_forall. intros x _. apply Hh.
Qed.

Lemma zip_fmap_r_pairs {V W : Type} (h : V -> W) (ids : list Z) (vals : list V) :
  zip ids (map h vals) = map (fun p => (p.1, h p.2)) (zip ids vals).
Proof.
  revert vals. induction ids as [|i ids IH]; intros [|v vals]; cbn; try done.
  by rewrite IH.
Qed.

(** X22. [sum_adm1] commutes with additive maps: applying a map that
    preserves zero and addition to every entry of the array and rolling
    up gives the map applied to the rolled-up entries, errors
    included. *)
Theorem sum_adm1_additive {V W : Type} (zero : V) (add : V -> V -> V)
    (zero' : W) (add' : W -> W -> W) (h : V -> W)
    (m : AdminLevelMapping) (adm2_arr : list V) (mk : option mask)
    (cache : bool) :
  h zero = zero' ->
  (forall x y, h (add x y) = add' (h x) (h y)) ->
  sum_adm1 zero' add' m (map h adm2_arr) mk cache
  = Graph.res_map (map h) (sum_adm1 zero add m adm2_arr mk cache).
Proof.
  intros Hz Hh. unfold sum_adm1.
  destruct (match mk with
            | Some m0 => take_mask (adm1_ids m) m0
            | None => Ok (adm1_ids m)
            end) as [ids|e]; [|reflexivity].
  cbn [bind].
  assert (Hrun : scatter_add add' (replicate (n_adm1 m) zero') ids (map h adm2_arr)
                 = Graph.res_map (map h)
                     (scatter_add add (replicate (n_adm1 m) zero) ids adm2_arr)).
  { unfold scatter_add. rewrite length_map.
    assert (Hrep : replicate (n_adm1 m) zero' = map h (replicate (n_adm1 m) zero)).
    { change (map h ?l) with (h <$> l). by rewrite fmap_replicate, Hz. }
    destruct (Nat.eqb_spec (length adm2_arr) (length ids)) as [Hl|Hl].
    - cbn [bind]. rewrite zip_fmap_r_pairs, Hrep. by apply scatter_pairs_fmap.
    - destruct adm2_arr as [|v [|v' rest]]; cbn [map bind]; try reflexivity.
      replace (replicate (length ids) (h v)) with (map h (replicate (length ids) v))
        by (change (map h ?l) with (h <$> l); by rewrite fmap_replicate).
      rewrite zip_fmap_r_pairs, Hrep. by apply scatter_pairs_fmap. }
  destruct cache; exact Hrun.
Qed.

Lemma filter_all_true {A : Type} (l : list A) :
  map snd (List.filter fst (zip (replicate (length l) true) l)) = l.
Proof. induction l as [|x l IH]; [reflexivity|]. cbn. by rewrite IH. Qed.

(** X23. A boolean mask that selects every adm2 region gives what no mask
    gives. *)
Theorem sum_adm1_full_mask {V : Type} (zero : V) (add : V -> V -> V)
    (m : AdminLevelMapping) (adm2_arr : list V) (cache : bool) :
  sum_adm1 zero add m adm2_arr
    (Some (BoolMask (replicate (length (adm1_ids m)) true))) cache
  = sum_adm1 zero add m adm2_arr None cache.
Proof.
  unfold sum_adm1, take_mask.
  rewrite length_replicate, Nat.eqb_refl, filter_all_true. reflexivity.
Qed.

End ReductionLaws.

Section PopulationFacts.
Import Py Graph GraphData Data Population.

Lemma Rsum_lower (lo : R) (l : list R) :
  Forall (fun x => lo <= x)%R l -> (INR (length l) * lo <= Rsum l)%R.
Proof.
  unfold Rsum. intros H.
  assert (Hgen : forall a, (a + INR (length l) * lo <= foldl Rplus a l)%R).
  { induction H as [|x l Hx _ IH]; intros a.
    - cbn. lra.
    - cbn [foldl length]. rewrite S_INR.
      eapply Rle_trans; [|apply IH]. lra. }
  specialize (Hgen 0%R). lra.
Qed.

(** X24. [Nj] of the tensor [read_population_tensor] returns: the entry
    of adm2 region [j] is the sum of row [j] of the census table clipped
    from below at [min_pop_per_bin], hence at least the number of age
    bins times that floor. *)
Theorem Nj_floor (n_bins : nat) (values : list (list R)) (lo : R) :
  wf (Arr2 n_bins values) ->
  Nj (read_population_tensor n_bins values lo)
  = map (fun row => Rsum (map (clip (Some lo) None) row)) values
  /\ Forall (fun x => INR n_bins * lo <= x)%R
            (Nj (read_population_tensor n_bins values lo)).
Proof.
  intros Hwf. cbn in Hwf.
  assert (Heq : Nj (read_population_tensor n_bins values lo)
                = map (fun row => Rsum (map (clip (Some lo) None) row)) values).
  { unfold Nj, read_population_tensor. cbn [nd_map transposed sum_axis0].
    rewrite length_map, <- (map_map (map (clip (Some lo) None)) Rsum).
    set (cl := map (map (clip (Some lo) None)) values).
    assert (Hcl : Forall (fun row => length row = n_bins) cl).
    { subst cl. apply Forall_forall. intros row Hrow.
      apply in_map_iff in Hrow as (r & <- & Hr). rewrite length_map.
      rewrite Forall_forall in Hwf. by apply Hwf. }
    replace (length values) with (length cl) by (subst cl; apply length_map).
    clearbody cl. rewrite (transpose_columns _ _ Hcl).
    apply list_eq. intros j.
    change (map Rsum cl) with (Rsum <$> cl). rewrite list_lookup_fmap.
    destruct (cl !! j) as [row|] eqn:Hrow.
    - rewrite tabulate_lookup by (eapply lookup_lt_Some; exact Hrow).
      cbn. do 2 f_equal. unfold nth_column. rewrite map_tabulate.
      rewrite Forall_lookup in Hcl. specialize (Hcl _ _ Hrow).
      apply list_eq. intros a.
      destruct (decide (a < n_bins)%nat) as [Ha|Ha].
      + rewrite tabulate_lookup by done.
        change (map ?f cl) with (f <$> cl). rewrite list_lookup_fmap, Hrow.
        cbn. destruct (lookup_lt_is_Some_2 row a) as [x Hx]; [lia|].
        by rewrite Hx.
      + rewrite !lookup_ge_None_2; [reflexivity|lia|].
        rewrite tabulate_length. lia.
    - cbn. apply lookup_ge_None_2. rewrite tabulate_length.
      by apply lookup_ge_None_1. }
  split; [exact Heq|]. rewrite Heq.
  apply Forall_forall. intros x Hx. apply in_map_iff in Hx as (row & <- & Hrow).
  rewrite Forall_forall in Hwf. rewrite <- (Hwf row Hrow).
  rewrite <- (length_map (clip (Some lo) None)).
  apply Rsum_lower. apply Forall_forall. intros y Hy.
  apply in_map_iff in Hy as (z & <- & _). apply clip_lower.
Qed.

End PopulationFacts.


(** * Worked inputs: witnesses and counterexamples *)

Section Examples.
Import Py State Config Graph Data Inputs FloatView.



(** C6, against the claim as worded: a NaN entry, an unbalanced state
    and a negative entry all raise the same exception, and the negative
    entry that does so, -0.00007, is not below -1e-4. *)
Lemma validate_raises_one_kind :
  validate_state (state_of st_nan)
    = ([msg_nonfinite], Some StateValidationException)
  /\ validate_state (state_of st_unbalanced)
    = ([msg_unbalanced], Some StateValidationException)
  /\ validate_state (state_of st_slightly_negative)
    = ([msg_negative], Some StateValidationException)
  /\ Forall (fun x => exists q, x = FNum q /\ (- (1 # 10000) <= q)%Q)
            (entries (state_of st_slightly_negative)).
Proof.
  repeat split; try (vm_compute; reflexivity).
  set (l := entries _). vm_compute in l. subst l.
  repeat (apply Forall_cons;
          [eexists; split; [reflexivity|unfold Qle; cbn; lia]|]).
  apply Forall_nil.
Qed.

Lemma validate_state_checks_witness :
  validate_state (state_of st_nan)
  = ([msg_nonfinite], Some StateValidationException).
Proof.
  refine (proj1 (validate_state_checks (state_of st_nan) [FNaN] _) _).
  - vm_compute. reflexivity.
  - apply Exists_exists. exists FNaN. split; [|reflexivity].
    vm_compute. left. reflexivity.
Defined.

(** C3, against the claim as worded: on this tree the sampler does not
    return what the specified order of passes returns (it returns [p] as
    the bare drawn value; reconciling before the draw would leave [p] a
    mapping that still carries [age_bins]). *)
Lemma passes_not_in_specified_order :
  (demo_sample uniform_on_age_bins 0%nat).2
  = Ok (Node [("model", Node [("structure", Node [("age_bins", Leaf (LArr two_bins))])]);
              ("p", Leaf (LArr (PNum (1 # 2))))], 1%nat)
  /\ (demo_sample uniform_on_age_bins 0%nat).2
     <> (demo_sample_as_specified uniform_on_age_bins 0%nat).2.
Proof.
  split; [vm_compute; reflexivity|].
  vm_compute. intros H. discriminate H.
Qed.

Lemma draw_precedes_age_reconciliation_witness :
  (demo_sample (one_parameter two_bins two_bins (PNum 0) (PNum 1) "uniform") 0%nat).2
  = Ok (Node [model_part two_bins; ("p", Leaf (LArr (PNum (1 # 2))))], 1%nat).
Proof.
  refine (proj1 (proj2 (draw_precedes_age_reconciliation nat demo_distributions
                   demo_random demo_abs_mul demo_mean_axis1 demo_interp_extrap
                   two_bins two_bins (PNum 0) (PNum 1) "uniform" demo_uniform
                   0%nat 1%nat (LArr (PNum (1 # 2))) (LArr (PNum (1 # 2)))
                   _ _ _))); reflexivity.
Defined.

(** C4, against the claim as worded: the call succeeds and the input
    tree is not what it was; its plain number has become an array. *)
Lemma sampler_changes_plain_input :
  demo_sample plain_value 0%nat
  = (Node [("a", Leaf (LArr (PNum 1)))],
     Ok (Node [("a", Leaf (LArr (PNum 1)))], 0%nat))
  /\ (demo_sample plain_value 0%nat).1 <> plain_value.
Proof.
  split; [vm_compute; reflexivity|].
  vm_compute. intros H. discriminate H.
Qed.

(** C8, against the claim as worded: the unknown name is reported, but
    the input tree is not left as it was. *)
Lemma unknown_distribution_changes_plain_input :
  (demo_sample not_a_real_distribution 0%nat).2
  = Raise (ValueError "Distribution not-a-real-distribution does not exist!")
  /\ (demo_sample not_a_real_distribution 0%nat).1 <> not_a_real_distribution.
Proof.
  split; [vm_compute; reflexivity|].
  vm_compute. intros H. discriminate H.
Qed.

Lemma unknown_distribution_is_raised_witness :
  _sample_distribution nat demo_distributions demo_random
    [("distribution", Node [("func", Leaf (LStr "not-a-real-distribution"))])]
    0%nat
  = Raise (unknown_distribution "not-a-real-distribution").
Proof.
  refine (proj1 (unknown_distribution_is_raised nat demo_distributions
                   demo_random demo_abs_mul demo_mean_axis1 demo_interp_extrap
                   [("distribution", Node [("func", Leaf (LStr "not-a-real-distribution"))])]
                   [("func", Leaf (LStr "not-a-real-distribution"))]
                   "not-a-real-distribution" 0%nat _ _) _ _); reflexivity.
Defined.

(** C7, against the claim as worded: a full adm2-indexed array with a
    mask over two of its three regions is not reduced to the masked
    sums [1; 4]; the call raises. *)
Lemma masked_sum_of_full_array_raises :
  sum_adm1 0 Z.add three_regions [1; 2; 4] (Some first_and_third) false
  = Raise (ValueError "shape mismatch")
  /\ sum_adm1 0 Z.add three_regions [1; 2; 4] (Some first_and_third) false
     <> Ok [1; 4].
Proof. split; [reflexivity|]. vm_compute. intros H. discriminate H. Qed.

Lemma sum_adm1_is_group_sum_witness :
  exists out,
    sum_adm1 0 Z.add three_regions [1; 4] (Some first_and_third) false = Ok out
    /\ out !! 0%nat = Some 1 /\ out !! 1%nat = Some 4.
Proof.
  destruct (sum_adm1_is_group_sum 0 Z.add three_regions [1; 4]
              (Some first_and_third) false [0; 1])
    as (out & Hrun & _ & Hget & _).
  - reflexivity.
  - repeat constructor; cbn; lia.
  - reflexivity.
  - exists out. split; [exact Hrun|].
    split; [apply (Hget 0%nat)|apply (Hget 1%nat)]; cbn; lia.
Defined.

(** C5, against the claim as worded: the one-entry positive series 0.5
    with window 1 has geometric mean exp(-1000), below 0.001, where exp
    of the arithmetic mean of the logarithm is 0.5. *)
Lemma geometric_mean_below_one_differs :
  exists g a : R,
    rolling_geometric_mean (Some 0%R) one_half 1 1 None = Ok (Arr2 1 [[Some g]])
    /\ res_map (nd_map exp_entry)
         (rolling_arithmetic_mean 0%R (nd_map ln one_half) 1 1 None)
       = Ok (Arr2 1 [[Some a]])
    /\ (g < 1 / 1000)%R /\ a = (1 / 2)%R.
Proof.
  unfold rolling_geometric_mean, rolling_arithmetic_mean, one_half.
  cbn -[log_abs neg_count exp ln Rdiv Rmult Rplus IZR].
  assert (Hlog : log_abs (1 / 2) = (-1000)%R).
  { unfold log_abs. rewrite Rabs_pos_eq by lra.
    destruct (Rlt_dec (1 / 2) 1); [reflexivity|lra]. }
  assert (Hneg : neg_count (1 / 2) = 0%nat).
  { unfold neg_count. destruct (Rlt_dec (1 / 2) 0); [lra|reflexivity]. }
  rewrite Hlog, Hneg.
  cbv -[exp ln Rdiv Rmult Rplus IZR Rinv Ropp Rlt].
  do 2 eexists. split; [reflexivity|]. split; [reflexivity|]. split.
  - replace (0 + -1000 * (1 / 1))%R with (-1000)%R by lra.
    pose proof (exp_ineq1 1000 ltac:(lra)) as Hbig.
    pose proof (exp_pos (-1000)) as Hpos.
    assert (Hinv : (exp (-1000) * exp 1000 = 1)%R).
    { rewrite <- exp_plus. replace (-1000 + 1000)%R with 0%R by lra. apply exp_0. }
    nra.
  - replace (0 + ln (1 / 2) * (1 / 1))%R with (ln (1 / 2)) by lra.
    apply exp_ln. lra.
Qed.

End Examples.

(** * Further worked inputs *)


Section MoreExamples.
Import Py State Config Graph Data Inputs FloatView ConfigLists GraphData Population MoreInputs.

Lemma composite_groups_witness :
  exists ind,
    build_indices unit_consts = Some ind /\
    dict_get "Itot" ind = Some (IdxArr (arange 5 8)) /\
    dict_get "H" ind = Some (IdxArr (arange 6 7 ++ arange 9 10)).
Proof.
  destruct (composite_groups unit_consts) as (ind & H0 & _ & _ & _ & _ & H5 & H6 & _);
    [cbn; lia|cbn; lia|cbn; lia|].
  exists ind. split; [exact H0|]. split; [exact H5|exact H6].
Defined.

Lemma setattr_getattr_round_trip_witness :
  exists s',
    setattr tenths_state "R" (RScalar (1 # 2)%Q) = Some s' /\
    getattr s' "R" = Some (Squeezed [[(1 # 2)%Q]]) /\
    getattr s' "D" = getattr tenths_state "D".
Proof.
  destruct (setattr_getattr_round_trip tenths_state "R" 1 2
              (RScalar (1 # 2)%Q) [[(1 # 2)%Q]])
    as (s' & H1 & H2 & _ & H4);
    [reflexivity|lia|lia|cbn; lia|reflexivity|].
  exists s'. split; [exact H1|]. split; [exact H2|].
  apply (H4 "D" 2 3); [reflexivity|lia|lia|lia].
Defined.

Lemma zeros_like_is_fresh_state_witness :
  init 0%Q unit_consts (1%nat, 1%nat) None
  = Some (zeros_like 0%Q tenths_state).
Proof.
  apply (zeros_like_is_fresh_state 0%Q unit_consts 1 1 tenths tenths_state).
  - split; [reflexivity|].
    repeat (apply Forall_cons; [split; [reflexivity|
      apply Forall_cons; [reflexivity|apply Forall_nil]]|]).
    apply Forall_nil.
  - reflexivity.
Defined.

Lemma fresh_state_is_all_susceptible_witness :
  exists s s1,
    init 0%Q unit_consts (2%nat, 3%nat) None = Some s /\
    init_S s = Some s1 /\
    validate_state (as_floats s1) = ([], None).
Proof.
  destruct (fresh_state_is_all_susceptible unit_consts 2 3)
    as (s & s1 & H1 & H2 & _ & _ & H5); [cbn; lia|cbn; lia|cbn; lia|].
  exists s, s1. split; [exact H1|]. split; [exact H2|exact H5].
Defined.

Lemma init_S_idempotent_witness :
  init_S tenths_balanced = Some tenths_balanced.
Proof.
  apply (init_S_idempotent unit_consts 1 1 tenths tenths_state tenths_balanced);
    [cbn; lia|cbn; lia|cbn; lia|reflexivity|reflexivity|reflexivity].
Defined.

Lemma sample_distribution_result_witness :
  exists d',
    _sample_distribution nat demo_distributions demo_random uniform_mapping 0%nat
    = Ok (Node d', 1%nat) /\
    dict_get "value" d' = Some (Leaf (LArr (PNum (1 # 2)))) /\
    dict_get "distribution" d' = None /\
    dict_get "age_bins" d' = Some (Leaf (LArr two_bins)).
Proof.
  assert (Hrun : _sample_distribution nat demo_distributions demo_random
                   uniform_mapping 0%nat
                 = Ok (Node [("age_bins", Leaf (LArr two_bins));
                             ("value", Leaf (LArr (PNum (1 # 2))))], 1%nat))
    by reflexivity.
  destruct (sample_distribution_result nat demo_distributions demo_random
              uniform_mapping 0%nat 1%nat _ ltac:(repeat constructor; cbn; intuition discriminate) Hrun)
    as (d' & dist & name & f & v & Ht & _ & _ & _ & _ & Hv & Hd & Hk).
  exists d'. injection Ht as <-.
  split; [reflexivity|]. split; [reflexivity|]. split; reflexivity.
Defined.

Lemma sample_without_parameters_witness :
  demo_sample plain_value 0%nat
  = (_to_arrays plain_value, Ok (_to_arrays plain_value, 0%nat)).
Proof.
  apply (sample_without_parameters nat demo_distributions demo_random
           demo_abs_mul demo_mean_axis1 demo_interp_extrap plain_value 0%nat);
    reflexivity.
Defined.

Lemma age_interp_same_bins_witness :
  _age_interp demo_mean_axis1 demo_interp_extrap
    (Leaf (LArr two_bins)) (Leaf (LPy two_bins)) (Leaf (LArr (PNum 1)))
  = Ok (Leaf (LArr (PNum 1))).
Proof.
  apply (age_interp_same_bins demo_mean_axis1 demo_interp_extrap _ _ _ two_bins);
    reflexivity.
Defined.

Lemma to_lists_round_trip_witness :
  _to_lists (_to_arrays plain_value) = plain_value.
Proof.
  apply (to_lists_round_trip plain_value); reflexivity.
Defined.

Lemma set_reroll_var_keeps_witness :
  _set_reroll_var demo_abs_mul (Node []) scaled_mapping
  = Ok (Node scaled_mapping).
Proof.
  apply (set_reroll_var_keeps demo_abs_mul (Node []) scaled_mapping
           scaled_kwargs (Leaf (LStr "truncnorm")));
    [reflexivity|reflexivity|right; reflexivity].
Defined.

Lemma rolling_arithmetic_last_axis_witness :
  rolling_arithmetic_mean 0%R (Arr2 2 [[1; 3]%R]) 2 1 None
  = Ok (Arr2 1 [window_means 2 [1; 3]%R]).
Proof.
  apply (rolling_arithmetic_last_axis 0%R 2 [[1; 3]%R] 2 1);
    [repeat constructor|lia|cbn; lia|by left].
Defined.

Lemma rolling_mean_func_weekly_witness :
  rolling_mean_func 0%R (Arr2 2 one_week)
  = Ok (Arr2 2
         (tabulate 1 (fun t =>
            tabulate 2 (fun j =>
              Some (Rsum (nth_column j (take 7 (drop t one_week))) / 7)%R)))).
Proof.
  apply (rolling_mean_func_weekly 0%R 2 one_week);
    [repeat constructor|cbn; lia].
Defined.

Lemma rolling_arithmetic_window_misfit_witness :
  exists msg,
    rolling_arithmetic_mean 0%R (Arr2 2 [[1; 3]%R]) 3 1 None
    = Raise (ValueError msg).
Proof.
  apply (rolling_arithmetic_window_misfit 0%R 2 [[1; 3]%R] 3 1);
    [repeat constructor|discriminate|lia|by left|cbn; lia].
Defined.

Lemma read_node_attr_clipped_witness :
  _read_node_attr nine_days true (Some 0%R) None
  = Ok (Arr2 1 (clipped_values 0 nine_days 9),
        Some (Arr2 1 (clipped_increments 0 nine_days 9))) /\
  all_entries (fun x => 0 <= x)%R (Arr2 1 (clipped_increments 0 nine_days 9)).
Proof.
  destruct (read_node_attr_clipped nine_days [0; 1; 2; 3; 4; 5; 6; 7; 8]%R 0%R)
    as (H1 & _ & H3); [reflexivity|repeat constructor|].
  split; [exact H1|exact H3].
Defined.

Lemma read_node_attr_monotone_witness :
  _read_node_attr nine_days true (Some 0%R) None
  = _read_node_attr nine_days true None None.
Proof.
  apply (read_node_attr_monotone nine_days).
  - apply Forall_cons; [|apply Forall_nil].
    repeat (apply Forall_cons; [lra|]). apply Forall_nil.
  - apply Forall_cons; [|apply Forall_nil].
    intros t x y Hx Hy.
    do 9 (destruct t as [|t]; [cbn in Hx, Hy; injection Hx as <-;
                               try (injection Hy as <-; lra); discriminate|]).
    discriminate.
Defined.

Lemma rolling_inc_cases_nonneg_witness :
  exists out,
    rolling_inc_cases 0%R nine_days = Ok (Arr2 1 out) /\
    length out = 2%nat /\
    all_entries (at_least 0) (Arr2 1 out).
Proof.
  destruct (rolling_inc_cases_nonneg 0%R nine_days [0; 1; 2; 3; 4; 5; 6; 7; 8]%R)
    as (out & H1 & H2 & _ & H4);
    [reflexivity|repeat constructor|cbn; lia|].
  exists out. repeat split; assumption.
Defined.

Lemma sum_adm1_conserves_total_witness :
  exists out,
    sum_adm1 0 Z.add three_regions [1; 2; 3] None false = Ok out /\
    length out = 2%nat /\
    foldl Z.add 0 out = 6.
Proof.
  destruct (sum_adm1_conserves_total 0 Z.add three_regions [1; 2; 3] None false
              [0; 0; 1])
    as (out & H1 & H2 & H3);
    [intros; lia|intros; lia|intros; lia|reflexivity
    |repeat constructor; cbn; lia|reflexivity|].
  exists out. repeat split; assumption.
Defined.

Lemma sum_adm1_additive_witness :
  sum_adm1 0 Z.add three_regions (map (Z.mul 2) [1; 2; 3]) None false
  = res_map (map (Z.mul 2)) (sum_adm1 0 Z.add three_regions [1; 2; 3] None false).
Proof.
  apply (sum_adm1_additive 0 Z.add 0 Z.add (Z.mul 2) three_regions [1; 2; 3]
           None false); [reflexivity|intros; lia].
Defined.

Lemma Nj_floor_witness :
  Nj (read_population_tensor 2 [[0; 5]%R; [3; 4]%R] 1%R)
  = map (fun row => Rsum (map (clip (Some 1%R) None) row)) [[0; 5]%R; [3; 4]%R]
  /\ Forall (fun x => INR 2 * 1 <= x)%R
            (Nj (read_population_tensor 2 [[0; 5]%R; [3; 4]%R] 1%R)).
Proof.
  apply (Nj_floor 2 [[0; 5]%R; [3; 4]%R] 1%R). repeat constructor.
Defined.

End MoreExamples.
